(** * RazerHeatMap: the colour-state engine and its transport protocol

    A shallow embedding of [heatmap.py] (class [HeatMapper]) and
    [heatmap_server.py] (class [HeatMapServer]).

    - Python dictionaries are association lists in insertion order.
    - Exceptions are an error monad ([result]).
    - Finite float64 values are rational numbers kept in lowest terms; the
      quotient of a division by zero is one of the IEEE special values.
    - The clock, the socket and the palette library are inputs of the
      operations that use them. *)

From Stdlib Require Import ZArith QArith Qminmax Qround List String Ascii Bool Arith Lia.
From Stdlib Require Import Decimal DecimalString DecimalZ DecimalN DecimalPos.
From Stdlib Require DecimalFacts.
Import ListNotations.

Set Implicit Arguments.
Set Warnings "-register-all".
Set Warnings "-automation".

Close Scope Q_scope.
Open Scope bool_scope.
Open Scope list_scope.
Open Scope string_scope.

(* ================================================================= *)
(** ** Python run-time: exceptions and dictionaries *)

Module Py.

Inductive exn : Type :=
  | ValueError | KeyError | IndexError | TypeError | AttributeError
  | UnboundLocalError | OSError
  | LiteralError.  (* raised at or after [ast.literal_eval], see [Text.literal_eval] *)

Inductive result (A : Type) : Type :=
  | Ok (a : A)
  | Raise (e : exn).
Arguments Ok {A} a.
Arguments Raise {A} e.

Definition bind {A B} (r : result A) (k : A -> result B) : result B :=
  match r with
  | Ok a => k a
  | Raise e => Raise e
  end.

(** Keys of a dictionary: a type with a boolean equality that decides [=]. *)
Class Hashable (K : Type) := {
  key_eqb : K -> K -> bool;
  key_eqb_spec : forall a b, reflect (a = b) (key_eqb a b)
}.

Definition dict (K V : Type) : Type := list (K * V).

Section Dict.
Context {K V : Type} `{Hashable K}.

(** [d.get(k)] *)
Fixpoint get (k : K) (d : dict K V) : option V :=
  match d with
  | [] => None
  | (k', v) :: r => if key_eqb k k' then Some v else get k r
  end.

(** [d[k]] *)
Definition getitem (k : K) (d : dict K V) : result V :=
  match get k d with
  | Some v => Ok v
  | None => Raise KeyError
  end.

(** [d[k] = v]: an existing key keeps its position, a new one goes last. *)
Fixpoint set (k : K) (v : V) (d : dict K V) : dict K V :=
  match d with
  | [] => [(k, v)]
  | (k', v') :: r =>
      if key_eqb k k' then (k', v) :: r else (k', v') :: set k v r
  end.

Definition keys (d : dict K V) : list K := map fst d.
Definition values (d : dict K V) : list V := map snd d.

(** [dict(items)], also a dict comprehension over [items]. *)
Definition of_items (items : list (K * V)) : dict K V :=
  fold_left (fun d kv => set (fst kv) (snd kv) d) items [].
End Dict.

End Py.
Import Py.

Notation "x <- r ;; k" := (Py.bind r (fun x => k))
  (at level 61, r at next level, right associativity).

#[export] Instance string_Hashable : Hashable string :=
  {| key_eqb := String.eqb; key_eqb_spec := String.eqb_spec |}.

(** A Location: the tuple [(row, col)]. *)
Definition location : Type := (Z * Z)%type.

Definition location_eqb (a b : location) : bool :=
  Z.eqb (fst a) (fst b) && Z.eqb (snd a) (snd b).

Lemma location_eqb_spec (a b : location) : reflect (a = b) (location_eqb a b).
Proof.
  destruct a as [r c], b as [r' c']; unfold location_eqb; simpl.
  destruct (Z.eqb_spec r r'), (Z.eqb_spec c c'); simpl; constructor; congruence.
Qed.

#[export] Instance location_Hashable : Hashable location :=
  {| key_eqb := location_eqb; key_eqb_spec := location_eqb_spec |}.

(* ================================================================= *)
(** ** float64 as used by the normalisation *)

Module Np.

(** The value of a float64 array element after the division. *)
Inductive float64 : Type :=
  | Finite (q : Q)
  | PosInf
  | NegInf
  | NaN.

Definition Qlt_bool (a b : Q) : bool := negb (Qle_bool b a).

Definition sub (a b : Q) : Q := Qred (a - b)%Q.

(** [a / b] on finite operands: numpy warns and yields nan or an infinity
    when [b] is zero. *)
Definition div (a b : Q) : float64 :=
  if Qeq_bool b 0 then
    if Qeq_bool a 0 then NaN
    else if Qlt_bool 0 a then PosInf else NegInf
  else Finite (Qred (a / b)%Q).

(** [np.min], [np.max]: a ValueError on a zero-size array. *)
Definition min (a : list Q) : result Q :=
  match a with
  | [] => Raise ValueError
  | x :: r => Ok (fold_left Qmin r x)
  end.

Definition max (a : list Q) : result Q :=
  match a with
  | [] => Raise ValueError
  | x :: r => Ok (fold_left Qmax r x)
  end.

(** [np.fromiter(counts, dtype=float)] on Python ints. *)
Definition fromiter (counts : list nat) : list Q :=
  map (fun c => inject_Z (Z.of_nat c)) counts.

(** [x <= y] on float64: false as soon as one side is nan. *)
Definition le (x y : float64) : Prop :=
  match x, y with
  | NaN, _ | _, NaN => False
  | NegInf, _ => True
  | _, PosInf => True
  | Finite a, Finite b => (a <= b)%Q
  | _, _ => False
  end.

(** [int(x)] on a finite float: truncation toward zero. *)
Definition int (x : Q) : Z := Z.quot (Qnum x) (Zpos (Qden x)).

End Np.

(* ================================================================= *)
(** ** Text: [str] of integers and tuples, [ast.literal_eval] of a tuple *)

Module Text.

(** The double quote, written by its code so that no literal needs one. *)
Definition dquote : ascii := "034"%char.
Definition backslash : ascii := "092"%char.

Definition is_digit (c : ascii) : bool :=
  let n := nat_of_ascii c in ((48 <=? n) && (n <=? 57))%nat.

(** The longest prefix of decimal digits, and what follows it. *)
Fixpoint span_digits (s : string) : string * string :=
  match s with
  | String c r =>
      if is_digit c
      then let (ds, rest) := span_digits r in (String c ds, rest)
      else (EmptyString, s)
  | EmptyString => (EmptyString, EmptyString)
  end.

Fixpoint all_zeros (s : string) : bool :=
  match s with
  | String c r => Ascii.eqb c "0" && all_zeros r
  | EmptyString => true
  end.

(** The value of a non-empty run of decimal digits. *)
Definition digits_value (ds : string) : option Z :=
  match NilZero.uint_of_string ds with
  | Some d => Some (Z.of_uint d)
  | None => None
  end.

(** [str(z)] on a Python int. *)
Definition str_int (z : Z) : string := NilZero.string_of_int (Z.to_int z).

(** [str((row, col))] *)
Definition str_location (k : location) : string :=
  "(" ++ str_int (fst k) ++ ", " ++ str_int (snd k) ++ ")".

(** [s.lower()] on ASCII letters. *)
Definition lower_char (c : ascii) : ascii :=
  let n := nat_of_ascii c in
  if ((65 <=? n) && (n <=? 90))%nat then ascii_of_nat (n + 32) else c.

Fixpoint lower (s : string) : string :=
  match s with
  | String c r => String (lower_char c) (lower r)
  | EmptyString => EmptyString
  end.

(** White space between the tokens of a Python expression in parentheses. *)
Definition is_py_space (c : ascii) : bool :=
  let n := nat_of_ascii c in
  ((n =? 32) || (n =? 9) || (n =? 10) || (n =? 13) || (n =? 12))%nat.

Fixpoint skip_py_space (s : string) : string :=
  match s with
  | String c r => if is_py_space c then skip_py_space r else s
  | EmptyString => s
  end.

(** [lstrip(" \t")], applied by [literal_eval] to its argument. *)
Fixpoint lstrip_blank (s : string) : string :=
  match s with
  | String c r =>
      if Ascii.eqb c " " || Ascii.eqb c "009" then lstrip_blank r else s
  | EmptyString => s
  end.

Fixpoint all_digits (s : string) : bool :=
  match s with
  | String c r => is_digit c && all_digits r
  | EmptyString => true
  end.

(** Whether [s] starts with a digit. *)
Definition starts_with_digit (s : string) : bool :=
  match s with
  | String c _ => is_digit c
  | EmptyString => false
  end.

(** [s] without its first character, when that character is [c]. *)
Definition expect (c : ascii) (s : string) : option string :=
  match s with
  | String c' r => if Ascii.eqb c c' then Some r else None
  | EmptyString => None
  end.

(** A decimal integer literal with an optional sign: no leading zero unless
    the literal is all zeros. *)
Definition py_int_literal (s : string) : option (Z * string) :=
  let (sign, s1) :=
    match expect "-" s with
    | Some r => ((-1)%Z, skip_py_space r)
    | None =>
        match expect "+" s with
        | Some r => (1%Z, skip_py_space r)
        | None => (1%Z, s)
        end
    end in
  let (ds, rest) := span_digits s1 in
  match ds with
  | EmptyString => None
  | String c _ =>
      if Ascii.eqb c "0" && negb (all_zeros ds) then None
      else match digits_value ds with
           | Some v => Some ((sign * v)%Z, rest)
           | None => None
           end
  end.

(** The items of a tuple display after the first: [, item]* with an optional
    trailing comma, up to the closing parenthesis. *)
Fixpoint tuple_items (fuel : nat) (s : string) : option (list Z * string) :=
  match fuel with
  | O => None
  | S n =>
      let s0 := skip_py_space s in
      match expect ")" s0 with
      | Some r => Some ([], r)
      | None =>
          match expect "," s0 with
          | None => None
          | Some r =>
              let s1 := skip_py_space r in
              match expect ")" s1 with
              | Some r' => Some ([], r')
              | None =>
                  match py_int_literal s1 with
                  | Some (z, r') =>
                      match tuple_items n r' with
                      | Some (zs, r'') => Some (z :: zs, r'')
                      | None => None
                      end
                  | None => None
                  end
              end
          end
      end
  end.

(** [ast.literal_eval(s)] where [s] denotes a tuple of integer literals:
    [()], [(a,)], [(a, b)], ...  Every other argument yields [None]: the
    library then raises ValueError or SyntaxError, or returns a value that
    is not a tuple of ints. *)
Definition literal_eval (s : string) : option (list Z) :=
  match expect "(" (lstrip_blank s) with
  | None => None
  | Some r =>
      let s1 := skip_py_space r in
      match expect ")" s1 with
      | Some r' => if String.eqb (skip_py_space r') "" then Some [] else None
      | None =>
          match py_int_literal s1 with
          | Some (z, r1) =>
              match expect "," (skip_py_space r1) with
              | Some _ =>
                  match tuple_items (S (String.length r1)) r1 with
                  | Some (zs, r2) =>
                      if String.eqb (skip_py_space r2) "" then Some (z :: zs)
                      else None
                  | None => None
                  end
              | None => None
              end
          | None => None
          end
      end
  end.

End Text.

(* ================================================================= *)
(** ** The [json] module: [dumps] and [loads]

    A Python [str] is a string of code points below 256, which covers the
    ASCII documents the client writes; a [\u] escape above [00ff] is outside
    the model and is rejected. *)

Module Json.
Import Text.

Inductive value : Type :=
  | Null
  | Bool (b : bool)
  | Int (z : Z)
  | Float (lexeme : string)
  | Str (s : string)
  | Arr (items : list value)
  | Obj (members : dict string value).

(** *** Encoder *)

Definition hex_digit (n : nat) : ascii :=
  if (n <? 10)%nat then ascii_of_nat (48 + n) else ascii_of_nat (87 + n).

(** [ensure_ascii] escaping of one character. *)
Definition escape_char (c : ascii) : string :=
  let n := nat_of_ascii c in
  if Ascii.eqb c dquote then String backslash (String dquote "")
  else if Ascii.eqb c backslash then String backslash (String backslash "")
  else if (n =? 10)%nat then String backslash "n"
  else if (n =? 13)%nat then String backslash "r"
  else if (n =? 9)%nat then String backslash "t"
  else if (n =? 8)%nat then String backslash "b"
  else if (n =? 12)%nat then String backslash "f"
  else if ((32 <=? n) && (n <=? 126))%nat then String c ""
  else String backslash
         (String "u" (String "0" (String "0"
           (String (hex_digit (n / 16)) (String (hex_digit (n mod 16)) ""))))).

Fixpoint escape (s : string) : string :=
  match s with
  | String c r => escape_char c ++ escape r
  | EmptyString => EmptyString
  end.

Definition quote (s : string) : string :=
  String dquote (escape s ++ String dquote "").

(** [", ".join(parts)] *)
Fixpoint join (parts : list string) : string :=
  match parts with
  | [] => ""
  | [p] => p
  | p :: rest => p ++ ", " ++ join rest
  end.

(** [json.dumps(v)] with the default separators. *)
Fixpoint dumps (v : value) : string :=
  match v with
  | Null => "null"
  | Bool true => "true"
  | Bool false => "false"
  | Int z => str_int z
  | Float lexeme => lexeme
  | Str s => quote s
  | Arr items => "[" ++ join (map dumps items) ++ "]"
  | Obj members =>
      "{" ++ join (map (fun kv : string * value =>
                          let (k, x) := kv in quote k ++ ": " ++ dumps x)
                       members) ++ "}"
  end.

(** A member whose value is an array of integers: the pair that [dumps]
    receives, and the text it writes for it. *)
Definition wire_value (kv : string * list Z) : string * value :=
  (fst kv, Arr (map Int (snd kv))).

Definition wire_member (kv : string * list Z) : string :=
  quote (fst kv) ++ ": " ++ dumps (Arr (map Int (snd kv))).

(** *** Decoder *)

Definition is_ws (c : ascii) : bool :=
  let n := nat_of_ascii c in
  ((n =? 32) || (n =? 9) || (n =? 10) || (n =? 13))%nat.

Fixpoint skip_ws (s : string) : string :=
  match s with
  | String c r => if is_ws c then skip_ws r else s
  | EmptyString => s
  end.

Definition hex_value (c : ascii) : option nat :=
  let n := nat_of_ascii c in
  if ((48 <=? n) && (n <=? 57))%nat then Some (n - 48)
  else if ((97 <=? n) && (n <=? 102))%nat then Some (n - 87)
  else if ((65 <=? n) && (n <=? 70))%nat then Some (n - 55)
  else None.

(** The four hex digits of a [\u] escape. *)
Definition hex4 (a b c d : ascii) : option nat :=
  match hex_value a, hex_value b, hex_value c, hex_value d with
  | Some x, Some y, Some z, Some w => Some (((x * 16 + y) * 16 + z) * 16 + w)
  | _, _, _, _ => None
  end.

(** The body of a string literal, after its opening quote. *)
Fixpoint scan_string (s : string) : option (string * string) :=
  match s with
  | EmptyString => None
  | String c r =>
      if Ascii.eqb c dquote then Some ("", r)
      else if Ascii.eqb c backslash then
        match r with
        | String e r' =>
            let simple (x : ascii) :=
              match scan_string r' with
              | Some (body, rest) => Some (String x body, rest)
              | None => None
              end in
            if Ascii.eqb e dquote then simple dquote
            else if Ascii.eqb e backslash then simple backslash
            else if Ascii.eqb e "/" then simple "/"%char
            else if Ascii.eqb e "b" then simple "008"%char
            else if Ascii.eqb e "f" then simple "012"%char
            else if Ascii.eqb e "n" then simple "010"%char
            else if Ascii.eqb e "r" then simple "013"%char
            else if Ascii.eqb e "t" then simple "009"%char
            else if Ascii.eqb e "u" then
              match r' with
              | String h1 (String h2 (String h3 (String h4 r''))) =>
                  match hex4 h1 h2 h3 h4 with
                  | Some n =>
                      if (n <? 256)%nat then
                        match scan_string r'' with
                        | Some (body, rest) =>
                            Some (String (ascii_of_nat n) body, rest)
                        | None => None
                        end
                      else None
                  | None => None
                  end
              | _ => None
              end
            else None
        | EmptyString => None
        end
      else if (nat_of_ascii c <? 32)%nat then None
      else
        match scan_string r with
        | Some (body, rest) => Some (String c body, rest)
        | None => None
        end
  end.

(** [s] without the prefix [p], when it starts with it. *)
Fixpoint strip_prefix (p s : string) : option string :=
  match p, s with
  | EmptyString, _ => Some s
  | String a p', String b s' =>
      if Ascii.eqb a b then strip_prefix p' s' else None
  | String _ _, EmptyString => None
  end.

(** The integer part of a number: [0], or a digit run that starts with a
    non-zero digit. *)
Definition int_part (s : string) : option (string * string) :=
  match s with
  | String c r =>
      if Ascii.eqb c "0" then Some ("0", r)
      else if is_digit c then Some (span_digits s)
      else None
  | EmptyString => None
  end.

(** [.digits], when present. *)
Definition frac_part (s : string) : string * string :=
  match expect "." s with
  | Some r =>
      match span_digits r with
      | (EmptyString, _) => ("", s)
      | (ds, rest) => (String "." ds, rest)
      end
  | None => ("", s)
  end.

(** [e], [E] with an optional sign and digits, when present. *)
Definition exp_part (s : string) : string * string :=
  match s with
  | String c r =>
      if Ascii.eqb c "e" || Ascii.eqb c "E" then
        let (sign, r1) :=
          match expect "-" r with
          | Some r' => ("-", r')
          | None =>
              match expect "+" r with
              | Some r' => ("+", r')
              | None => ("", r)
              end
          end in
        match span_digits r1 with
        | (EmptyString, _) => ("", s)
        | (ds, rest) => (String c (sign ++ ds), rest)
        end
      else ("", s)
  | EmptyString => ("", s)
  end.

(** A number: a Python int when it has neither fraction nor exponent. *)
Definition scan_number (s : string) : option (value * string) :=
  let (neg, s1) :=
    match expect "-" s with
    | Some r => (true, r)
    | None => (false, s)
    end in
  match int_part s1 with
  | None => None
  | Some (ds, r1) =>
      let (frac, r2) := frac_part r1 in
      let (exp, r3) := exp_part r2 in
      if String.eqb frac "" && String.eqb exp "" then
        match digits_value ds with
        | Some n => Some (Int (if neg then - n else n)%Z, r3)
        | None => None
        end
      else Some (Float ((if neg then "-" else "") ++ ds ++ frac ++ exp), r3)
  end.

(** Whether a number that ends right before [s] could not go on into [s]. *)
Definition number_stop (s : string) : bool :=
  match s with
  | String c _ =>
      negb (is_digit c || Ascii.eqb c "." || Ascii.eqb c "e" || Ascii.eqb c "E")
  | EmptyString => true
  end.

(** A constant of the grammar or a number. *)
Definition scan_atom (s : string) : option (value * string) :=
  match strip_prefix "null" s with
  | Some r => Some (Null, r)
  | None =>
  match strip_prefix "true" s with
  | Some r => Some (Bool true, r)
  | None =>
  match strip_prefix "false" s with
  | Some r => Some (Bool false, r)
  | None =>
  match strip_prefix "NaN" s with
  | Some r => Some (Float "NaN", r)
  | None =>
  match strip_prefix "Infinity" s with
  | Some r => Some (Float "Infinity", r)
  | None =>
  match strip_prefix "-Infinity" s with
  | Some r => Some (Float "-Infinity", r)
  | None => scan_number s
  end end end end end end.

(** The recursive-descent scanner.  [parse_value] reads one value at the
    head of [s]; [parse_elements] and [parse_members] read what follows the
    opening bracket or brace, up to and with the closing one. *)
Fixpoint parse_value (fuel : nat) (s : string) {struct fuel}
  : option (value * string) :=
  match fuel with
  | O => None
  | S n =>
      match s with
      | String c r =>
          if Ascii.eqb c "{" then
            match expect "}" (skip_ws r) with
            | Some r' => Some (Obj [], r')
            | None =>
                match parse_members n (skip_ws r) with
                | Some (kvs, rest) => Some (Obj (Py.of_items kvs), rest)
                | None => None
                end
            end
          else if Ascii.eqb c "[" then
            match expect "]" (skip_ws r) with
            | Some r' => Some (Arr [], r')
            | None =>
                match parse_elements n (skip_ws r) with
                | Some (vs, rest) => Some (Arr vs, rest)
                | None => None
                end
            end
          else if Ascii.eqb c dquote then
            match scan_string r with
            | Some (body, rest) => Some (Str body, rest)
            | None => None
            end
          else scan_atom s
      | EmptyString => None
      end
  end

with parse_elements (fuel : nat) (s : string) {struct fuel}
  : option (list value * string) :=
  match fuel with
  | O => None
  | S n =>
      match parse_value n s with
      | Some (v, r) =>
          match expect "," (skip_ws r) with
          | Some r' =>
              match parse_elements n (skip_ws r') with
              | Some (vs, rest) => Some (v :: vs, rest)
              | None => None
              end
          | None =>
              match expect "]" (skip_ws r) with
              | Some r' => Some ([v], r')
              | None => None
              end
          end
      | None => None
      end
  end

with parse_members (fuel : nat) (s : string) {struct fuel}
  : option (list (string * value) * string) :=
  match fuel with
  | O => None
  | S n =>
      match expect dquote s with
      | None => None
      | Some r =>
          match scan_string r with
          | None => None
          | Some (k, r1) =>
              match expect ":" (skip_ws r1) with
              | None => None
              | Some r2 =>
                  match parse_value n (skip_ws r2) with
                  | None => None
                  | Some (v, r3) =>
                      match expect "," (skip_ws r3) with
                      | Some r4 =>
                          match parse_members n (skip_ws r4) with
                          | Some (kvs, rest) => Some ((k, v) :: kvs, rest)
                          | None => None
                          end
                      | None =>
                          match expect "}" (skip_ws r3) with
                          | Some r4 => Some ([(k, v)], r4)
                          | None => None
                          end
                      end
                  end
              end
          end
      end
  end.

(** [json.loads(data)]: one value, white space around it, nothing else.
    Every nested call of the scanner comes after at most two calls that
    read no character, so twice the length of the text is fuel enough. *)
Definition loads (data : string) : result value :=
  match parse_value (S (2 * String.length data)) (skip_ws data) with
  | Some (v, rest) =>
      match skip_ws rest with
      | EmptyString => Ok v
      | _ => Raise ValueError
      end
  | None => Raise ValueError
  end.

End Json.


(* ================================================================= *)
(** ** heatmap.py: the colour-state engine *)

(** [COLOR_MAPS] *)
Definition COLOR_MAPS : list string :=
  ["jet"; "turbo"; "hot"; "bwr"; "seismic"; "Spectral"; "gnuplot"; "brg";
   "gist_rainbow"; "rainbow"].

(** The argument of a matplotlib colormap call: the engine passes the
    Python int [0] at a reset and a float64 array element at an update. *)
Inductive cmap_arg : Type :=
  | CInt (i : Z)
  | CFloat (x : Np.float64).

(** What the engine writes to the console and to the log. *)
Inductive output : Type :=
  | Log_send_error
  | Print_using_colormap (name : string)
  | Print_lowkey_enhancement (b : bool)
  | Print_key_names_to_counts (d : dict string nat)
  | Print_locations_to_colors (d : dict location (list Z))
  | Print_colormap_updated (name : string)
  | Print_lowkey_switched (b : bool).

(** The fields of a [HeatMapper] object.  [self.color_map] is not a field of
    its own: every assignment to it is [plt.cm.get_cmap(self.color_map_name)].
    [sock] holds the payloads handed to [sendall], oldest first. *)
Record HeatMapper : Type := mkHeatMapper {
  debug_mode : bool;
  key_to_location_map : dict string (list location);
  color_map_name : string;
  color_map_index : nat;
  refresh_interval : Q;
  enhance_lowkeys : bool;
  change_heatmap_on_refresh : bool;
  sock : list string;
  start_time : Q;
  elapsed_time : Q;
  location_to_color : dict location (list Z);
  location_to_count : dict location nat;
  key_name_to_count : dict string nat;
  console : list output
}.

Definition set_color_map (name : string) (index : nat) (s : HeatMapper) :=
  mkHeatMapper (debug_mode s) (key_to_location_map s) name index
    (refresh_interval s) (enhance_lowkeys s) (change_heatmap_on_refresh s)
    (sock s) (start_time s) (elapsed_time s) (location_to_color s)
    (location_to_count s) (key_name_to_count s) (console s).

Definition set_enhance_lowkeys (b : bool) (s : HeatMapper) :=
  mkHeatMapper (debug_mode s) (key_to_location_map s) (color_map_name s)
    (color_map_index s) (refresh_interval s) b (change_heatmap_on_refresh s)
    (sock s) (start_time s) (elapsed_time s) (location_to_color s)
    (location_to_count s) (key_name_to_count s) (console s).

Definition set_sock (out : list string) (s : HeatMapper) :=
  mkHeatMapper (debug_mode s) (key_to_location_map s) (color_map_name s)
    (color_map_index s) (refresh_interval s) (enhance_lowkeys s)
    (change_heatmap_on_refresh s) out (start_time s) (elapsed_time s)
    (location_to_color s) (location_to_count s) (key_name_to_count s)
    (console s).

Definition set_start_time (t : Q) (s : HeatMapper) :=
  mkHeatMapper (debug_mode s) (key_to_location_map s) (color_map_name s)
    (color_map_index s) (refresh_interval s) (enhance_lowkeys s)
    (change_heatmap_on_refresh s) (sock s) t (elapsed_time s)
    (location_to_color s) (location_to_count s) (key_name_to_count s)
    (console s).

Definition set_elapsed_time (t : Q) (s : HeatMapper) :=
  mkHeatMapper (debug_mode s) (key_to_location_map s) (color_map_name s)
    (color_map_index s) (refresh_interval s) (enhance_lowkeys s)
    (change_heatmap_on_refresh s) (sock s) (start_time s) t
    (location_to_color s) (location_to_count s) (key_name_to_count s)
    (console s).

Definition set_location_to_color (d : dict location (list Z)) (s : HeatMapper) :=
  mkHeatMapper (debug_mode s) (key_to_location_map s) (color_map_name s)
    (color_map_index s) (refresh_interval s) (enhance_lowkeys s)
    (change_heatmap_on_refresh s) (sock s) (start_time s) (elapsed_time s)
    d (location_to_count s) (key_name_to_count s) (console s).

Definition set_location_to_count (d : dict location nat) (s : HeatMapper) :=
  mkHeatMapper (debug_mode s) (key_to_location_map s) (color_map_name s)
    (color_map_index s) (refresh_interval s) (enhance_lowkeys s)
    (change_heatmap_on_refresh s) (sock s) (start_time s) (elapsed_time s)
    (location_to_color s) d (key_name_to_count s) (console s).

Definition set_key_name_to_count (d : dict string nat) (s : HeatMapper) :=
  mkHeatMapper (debug_mode s) (key_to_location_map s) (color_map_name s)
    (color_map_index s) (refresh_interval s) (enhance_lowkeys s)
    (change_heatmap_on_refresh s) (sock s) (start_time s) (elapsed_time s)
    (location_to_color s) (location_to_count s) d (console s).

Definition emit (o : output) (s : HeatMapper) :=
  mkHeatMapper (debug_mode s) (key_to_location_map s) (color_map_name s)
    (color_map_index s) (refresh_interval s) (enhance_lowkeys s)
    (change_heatmap_on_refresh s) (sock s) (start_time s) (elapsed_time s)
    (location_to_color s) (location_to_count s) (key_name_to_count s)
    (console s ++ [o])%list.

(** What the environment answers during one call of [on_key_release]:
    the two readings of [time.time()] (the second is taken only at a reset)
    and whether [sendall] succeeds. *)
Record release_env : Type := mkReleaseEnv {
  time_at_release : Q;
  time_at_restart : Q;
  sendall_ok : bool
}.

(** What the environment answers during [__init__]. *)
Record init_env : Type := mkInitEnv {
  connect_ok : bool;
  time_at_start : Q;
  time_after_start : Q;
  first_sendall_ok : bool
}.

(** [COLOR_MAPS.index(name)] *)
Fixpoint list_index (name : string) (l : list string) : result nat :=
  match l with
  | [] => Raise ValueError
  | x :: r =>
      if String.eqb x name then Ok O
      else i <- list_index name r ;; Ok (S i)
  end.

(** The locations of the layout in the order the nested loops of
    [__init_color_map] visit them. *)
Definition layout_locations (m : dict string (list location)) : list location :=
  flat_map snd m.

Section Engine.

(** [plt.cm.get_cmap(name)]: the RGBA channels, each in [0, 1]. *)
Variable get_cmap : string -> cmap_arg -> list Q.

(** [np.sqrt] on a finite non-negative float64. *)
Variable np_sqrt : Q -> Q.

(** [[int(c * 255) for c in rgba[0:3]]] *)
Definition scale_rgb (rgba : list Q) : list Z :=
  map (fun c => Np.int (c * 255)%Q) (firstn 3 rgba).

(** The base colour under the palette [name]: [self.color_map(0)], scaled. *)
Definition base_color_of (name : string) : list Z :=
  scale_rgb (get_cmap name (CInt 0)).

(** [__init_color_map]: the base colour is one list; the engine never
    mutates a colour list in place, so sharing it is not observable. *)
Definition init_color_map (s : HeatMapper) : HeatMapper :=
  let base_color := base_color_of (color_map_name s) in
  fold_left
    (fun st loc =>
       set_location_to_color (Py.set loc base_color (location_to_color st))
         (set_location_to_count (Py.set loc O (location_to_count st)) st))
    (layout_locations (key_to_location_map s)) s.

(** The document of [__send_colors_to_server].  A key is a tuple and never
    [None], so the filter of the comprehension keeps every key. *)
Definition wire_document (colors : dict location (list Z)) : Json.value :=
  Json.Obj
    (Py.of_items
       (map (fun kv : location * list Z =>
               (Text.str_location (fst kv), Json.Arr (map Json.Int (snd kv))))
            colors)).

(** The same members before the colours are wrapped as JSON values. *)
Definition wire_members (colors : dict location (list Z))
  : list (string * list Z) :=
  map (fun kv : location * list Z => (Text.str_location (fst kv), snd kv)) colors.

(** [__send_colors_to_server]: a socket error is logged and swallowed. *)
Definition send_colors_to_server (ok : bool) (s : HeatMapper) : HeatMapper :=
  let serialized_dict := Json.dumps (wire_document (location_to_color s)) in
  let s' := set_sock (sock s ++ [serialized_dict])%list s in
  if ok then s' else emit Log_send_error s'.

(** What becomes of one count before the division: the float, or its
    square root under lowkey enhancement. *)
Definition transformed_count (s : HeatMapper) (c : nat) : Q :=
  if enhance_lowkeys s then np_sqrt (inject_Z (Z.of_nat c))
  else inject_Z (Z.of_nat c).

(** The array of [__update_color_map] after the division. *)
Definition normalized_counts (s : HeatMapper) : result (list Np.float64) :=
  let a := Np.fromiter (Py.values (location_to_count s)) in
  let a := if enhance_lowkeys s then map np_sqrt a else a in
  lo <- Np.min a ;;
  hi <- Np.max a ;;
  Ok (map (fun x => Np.div (Np.sub x lo) hi) a).

(** The loop of [__update_color_map] reads the array by a running index:
    it pairs the locations of [location_to_count], in order, with the
    elements of the array. *)
Definition normalized_by_location (s : HeatMapper)
  : result (dict location Np.float64) :=
  location_counts_np <- normalized_counts s ;;
  Ok (combine (Py.keys (location_to_count s)) location_counts_np).

(** [__update_color_map] *)
Definition update_color_map (s : HeatMapper) : result HeatMapper :=
  by_location <- normalized_by_location s ;;
  Ok (set_location_to_color
        (fold_left
           (fun colors lx =>
              Py.set (fst lx)
                (scale_rgb (get_cmap (color_map_name s) (CFloat (snd lx))))
                colors)
           by_location (location_to_color s))
        s).

(** [__select_next_colormap] *)
Definition select_next_colormap (s : HeatMapper) : result HeatMapper :=
  let index :=
    if (color_map_index s =? List.length COLOR_MAPS - 1)%nat then O
    else S (color_map_index s) in
  match nth_error COLOR_MAPS index with
  | Some name => Ok (set_color_map name index s)
  | None => Raise IndexError
  end.

(** [on_key_release], lines 104-109: the refresh check. *)
Definition refresh_check (env : release_env) (s : HeatMapper) : result HeatMapper :=
  let s := set_elapsed_time (Np.sub (time_at_release env) (start_time s)) s in
  if Np.Qlt_bool (refresh_interval s) (elapsed_time s) then
    s <- (if change_heatmap_on_refresh s then select_next_colormap s else Ok s) ;;
    Ok (set_start_time (time_at_restart env) (init_color_map s))
  else Ok s.

(** The key name the layout is looked up with. *)
Definition str_key_of (key : string) : string :=
  if String.prefix "Key" key then key else Text.lower key.

(** [self.location_to_count[loc] += 1] *)
Definition count_location (loc : location) (s : HeatMapper) : result HeatMapper :=
  c <- Py.getitem loc (location_to_count s) ;;
  Ok (set_location_to_count (Py.set loc (c + 1)%nat (location_to_count s)) s).

Fixpoint count_locations (locations : list location) (s : HeatMapper)
  : result HeatMapper :=
  match locations with
  | [] => Ok s
  | loc :: rest => s <- count_location loc s ;; count_locations rest s
  end.

(** The operator keys of debug mode. *)
Definition debug_hooks (str_key : string) (s : HeatMapper) : result HeatMapper :=
  let s :=
    if String.eqb str_key "Key.f7" then
      emit (Print_locations_to_colors (location_to_color s))
        (emit (Print_key_names_to_counts (key_name_to_count s))
           (emit (Print_lowkey_enhancement (enhance_lowkeys s))
              (emit (Print_using_colormap (color_map_name s)) s)))
    else s in
  s <- (if String.eqb str_key "Key.f2" then
          s <- select_next_colormap s ;;
          Ok (emit (Print_colormap_updated (color_map_name s)) s)
        else Ok s) ;;
  Ok (if String.eqb str_key "Key.f3" then
        let s := set_enhance_lowkeys (negb (enhance_lowkeys s)) s in
        emit (Print_lowkey_switched (enhance_lowkeys s)) s
      else s).

(** [on_key_release], lines 111-142: the key's own update. *)
Definition record_key (env : release_env) (key : string) (s : HeatMapper)
  : result HeatMapper :=
  let str_key := str_key_of key in
  match Py.get str_key (key_to_location_map s) with
  | None => Ok s
  | Some locations =>
      c <- Py.getitem str_key (key_name_to_count s) ;;
      let s := set_key_name_to_count
                 (Py.set str_key (c + 1)%nat (key_name_to_count s)) s in
      s <- count_locations locations s ;;
      s <- (if debug_mode s then debug_hooks str_key s else Ok s) ;;
      s <- update_color_map s ;;
      Ok (send_colors_to_server (sendall_ok env) s)
  end.

(** [on_key_release]; [key] stands for [str(key)]. *)
Definition on_key_release (env : release_env) (key : string) (s : HeatMapper)
  : result HeatMapper :=
  s <- refresh_check env s ;;
  record_key env key s.

(** [HeatMapper.__init__], from the loaded layout on. *)
Definition init (env : init_env) (layout : dict string (list location))
    (color_map : string) (refresh_interval_secs : Q)
    (enhance_lowkeys change_heatmap_on_refresh debug_mode : bool)
  : result HeatMapper :=
  index <- list_index color_map COLOR_MAPS ;;
  if connect_ok env then
    let s :=
      mkHeatMapper debug_mode layout color_map index refresh_interval_secs
        enhance_lowkeys change_heatmap_on_refresh []
        (time_at_start env)
        (Np.sub (time_after_start env) (time_at_start env))
        [] []
        (Py.of_items (map (fun kl : string * list location => (fst kl, O)) layout))
        [] in
    Ok (send_colors_to_server (first_sendall_ok env) (init_color_map s))
  else Raise OSError.

(** What holds of every state the engine goes through: the cursor is inside
    the registry and names the active palette, and the two location
    dictionaries have no key outside the layout. *)
Definition consistent (s : HeatMapper) : Prop :=
  (color_map_index s < List.length COLOR_MAPS)%nat
  /\ nth_error COLOR_MAPS (color_map_index s) = Some (color_map_name s)
  /\ (forall loc, In loc (Py.keys (location_to_count s)) ->
                  In loc (layout_locations (key_to_location_map s)))
  /\ (forall loc, In loc (Py.keys (location_to_color s)) ->
                  In loc (layout_locations (key_to_location_map s))).

(** The states the engine goes through: the constructed one, and every
    state a key release leads to. *)
Inductive reachable : HeatMapper -> Prop :=
  | reachable_init env layout color_map refresh enhance change debug s :
      init env layout color_map refresh enhance change debug = Ok s ->
      reachable s
  | reachable_release env key s s' :
      reachable s -> on_key_release env key s = Ok s' -> reachable s'.

End Engine.

(* ================================================================= *)
(** ** heatmap_server.py: the transport server *)

Module Server.

Fixpoint tuple_eqb (a b : list Z) : bool :=
  match a, b with
  | [], [] => true
  | x :: a', y :: b' => Z.eqb x y && tuple_eqb a' b'
  | _, _ => false
  end.

Lemma tuple_eqb_spec (a b : list Z) : reflect (a = b) (tuple_eqb a b).
Proof.
  revert b; induction a as [|x a IH]; intros [|y b]; simpl;
    try (constructor; congruence).
  destruct (Z.eqb_spec x y); simpl; [|constructor; congruence].
  destruct (IH b); constructor; congruence.
Qed.

#[export] Instance tuple_Hashable : Hashable (list Z) :=
  {| key_eqb := tuple_eqb; key_eqb_spec := tuple_eqb_spec |}.

(** What the server does that can be observed: its log, and its calls on
    the device ([matrix[row, col] = rgb] and [draw()]). *)
Inductive event : Type :=
  | Log_connected
  | Log_received_data
  | Log_size_of (length_of_data : nat)
  | Log_decode_error
  | Set_cell (row col : Z) (rgb : list Json.value)
  | Draw.

(** The local variable [color_map_str] of [start_listening], unbound until
    its first assignment, and the events so far. *)
Record frame : Type := mkFrame {
  color_map_str : option Json.value;
  events : list event
}.

Definition record (e : event) (f : frame) : frame :=
  mkFrame (color_map_str f) (events f ++ [e])%list.

(** [tuple(v)] on a decoded value. *)
Definition tuple_of (v : Json.value) : result (list Json.value) :=
  match v with
  | Json.Arr items => Ok items
  | Json.Str s =>
      Ok (map (fun c => Json.Str (String c "")) (list_ascii_of_string s))
  | Json.Obj members => Ok (map Json.Str (Py.keys members))
  | _ => Raise TypeError
  end.

(** The first inner loop: [color_map[ast.literal_eval(k)] = v]. *)
Fixpoint eval_keys (items : list (string * Json.value))
    (color_map : dict (list Z) Json.value)
  : result (dict (list Z) Json.value) :=
  match items with
  | [] => Ok color_map
  | (k, v) :: rest =>
      match Text.literal_eval k with
      | Some loc => eval_keys rest (Py.set loc v color_map)
      | None => Raise LiteralError
      end
  end.

(** The second inner loop: one matrix assignment per entry.  The cells set
    before an exception stay set. *)
Fixpoint set_cells (items : list (list Z * Json.value)) (f : frame)
  : result unit * frame :=
  match items with
  | [] => (Ok tt, f)
  | (k, v) :: rest =>
      match nth_error k 0, nth_error k 1 with
      | Some row, Some col =>
          match tuple_of v with
          | Ok rgb => set_cells rest (record (Set_cell row col rgb) f)
          | Raise e => (Raise e, f)
          end
      | _, _ => (Raise IndexError, f)
      end
  end.

(** Lines 53-60 of one iteration: what follows the [try] statement. *)
Definition apply_update (f : frame) : result unit * frame :=
  match color_map_str f with
  | None => (Raise UnboundLocalError, f)
  | Some (Json.Obj members) =>
      match eval_keys members [] with
      | Ok color_map =>
          match set_cells color_map f with
          | (Ok _, f') => (Ok tt, record Draw f')
          | (Raise e, f') => (Raise e, f')
          end
      | Raise e => (Raise e, f)
      end
  | Some _ => (Raise AttributeError, f)
  end.

(** Lines 48-51: the [try] statement.  Only ValueError is caught. *)
Definition try_loads (data : string) (f : frame) : result unit * frame :=
  match Json.loads data with
  | Ok v => (Ok tt, mkFrame (Some v) (events f))
  | Raise ValueError => (Ok tt, record Log_decode_error f)
  | Raise e => (Raise e, f)
  end.

(** How [start_listening] leaves the read loop. *)
Inductive exit : Type :=
  | Peer_closed              (* an empty read: [break] *)
  | Awaiting_data            (* blocked in [recv] *)
  | Uncaught (e : exn).      (* the exception leaves [start_listening] *)

(** The read loop over the chunks that [recv] returns, in order. *)
Fixpoint read_loop (chunks : list string) (f : frame) : exit * frame :=
  match chunks with
  | [] => (Awaiting_data, f)
  | data :: rest =>
      let f := record (Log_size_of (String.length data))
                 (record Log_received_data f) in
      match data with
      | EmptyString => (Peer_closed, f)
      | _ =>
          match try_loads data f with
          | (Raise e, f) => (Uncaught e, f)
          | (Ok _, f) =>
              match apply_update f with
              | (Raise e, f) => (Uncaught e, f)
              | (Ok _, f) => read_loop rest f
              end
          end
      end
  end.

(** [start_listening], once the connection is accepted. *)
Definition start_listening (chunks : list string) : exit * frame :=
  read_loop chunks (mkFrame None [Log_connected]).

(** A Color Assignment as the server holds it once decoded: the key is the
    tuple, the value the list of JSON integers. *)
Definition as_decoded (colors : dict location (list Z))
  : dict (list Z) Json.value :=
  map (fun kv : location * list Z =>
         ([fst (fst kv); snd (fst kv)], Json.Arr (map Json.Int (snd kv))))
      colors.

(** The matrix assignments that a Color Assignment asks for. *)
Definition cells_of (colors : dict location (list Z)) : list event :=
  map (fun kv : location * list Z =>
         Set_cell (fst (fst kv)) (snd (fst kv)) (map Json.Int (snd kv)))
      colors.

(** The decoding steps of one iteration, on their own. *)
Definition decode (data : string) : result (dict (list Z) Json.value) :=
  v <- Json.loads data ;;
  match v with
  | Json.Obj members => eval_keys members []
  | _ => Raise AttributeError
  end.

End Server.


(* ================================================================= *)
(** ** What the engine keeps *)

(** A payload that is the encoding of a Color Assignment. *)
Definition snapshot_payload (p : string) : Prop :=
  exists colors : dict location (list Z),
    NoDup (Py.keys colors) /\ p = Json.dumps (wire_document colors).

(** Every location and key name of the layout has its entries, no colour
    is listed twice, and every payload handed to the socket is a snapshot. *)
Definition complete (s : HeatMapper) : Prop :=
  (forall loc, In loc (layout_locations (key_to_location_map s)) ->
               In loc (Py.keys (location_to_count s)))
  /\ (forall loc, In loc (layout_locations (key_to_location_map s)) ->
                  In loc (Py.keys (location_to_color s)))
  /\ (forall k, In k (Py.keys (key_to_location_map s)) ->
                In k (Py.keys (key_name_to_count s)))
  /\ NoDup (Py.keys (location_to_color s))
  /\ Forall snapshot_payload (sock s).

(** Two states with the same layout, counters, colours, socket and clock:
    they differ at most in the palette, the enhancement flag and the
    console. *)
Definition same_store (s s' : HeatMapper) : Prop :=
  key_to_location_map s' = key_to_location_map s
  /\ location_to_count s' = location_to_count s
  /\ location_to_color s' = location_to_color s
  /\ key_name_to_count s' = key_name_to_count s
  /\ sock s' = sock s
  /\ debug_mode s' = debug_mode s
  /\ refresh_interval s' = refresh_interval s
  /\ change_heatmap_on_refresh s' = change_heatmap_on_refresh s
  /\ start_time s' = start_time s
  /\ elapsed_time s' = elapsed_time s.

Definition location_eq_dec (a b : location) : {a = b} + {a <> b}.
Proof. decide equality; apply Z.eq_dec. Defined.

(** The number of [draw()] calls among the events of the server. *)
Definition draw_count (evs : list Server.event) : nat :=
  List.length
    (filter (fun e => match e with Server.Draw => true | _ => false end) evs).

(** What the server does for a message of the engine that it reads whole:
    the two log lines of the read, the cells of the assignment in order,
    and one draw. *)
Definition message_events (colors : dict location (list Z)) : list Server.event :=
  ([Server.Log_received_data;
    Server.Log_size_of (String.length (Json.dumps (wire_document colors)))]
   ++ Server.cells_of colors ++ [Server.Draw])%list.

(** Lines 43-60 for a chunk that is not empty: one pass through the body of
    the read loop. *)
Definition loop_body (data : string) (f : Server.frame)
  : result unit * Server.frame :=
  let f := Server.record (Server.Log_size_of (String.length data))
             (Server.record Server.Log_received_data f) in
  match Server.try_loads data f with
  | (Raise e, f) => (Raise e, f)
  | (Ok _, f) => Server.apply_update f
  end.


(* ================================================================= *)
(** ** heatmap_server.py: the constructor of the server *)

Module Devices.

(** A device as the constructor reads it: its name, its serial and
    whether [device.fx.advanced] is truthy. *)
Record razer_device : Type := mkDevice {
  device_name : string;
  device_serial : string;
  fx_advanced : bool
}.

Definition device_eqb (a b : razer_device) : bool :=
  String.eqb (device_name a) (device_name b)
  && String.eqb (device_serial a) (device_serial b)
  && Bool.eqb (fx_advanced a) (fx_advanced b).

(** [devices.remove(d)]: the first element equal to [d] goes; ValueError
    when there is none. *)
Fixpoint remove (d : razer_device) (l : list razer_device)
  : result (list razer_device) :=
  match l with
  | [] => Raise ValueError
  | x :: r =>
      if device_eqb d x then Ok r
      else r' <- remove d r ;; Ok (x :: r')
  end.

(** What the constructor logs. *)
Inductive init_event : Type :=
  | Log_found (n : nat)
  | Log_skipping (name serial : string).

(** The loop [for device in self.devices], which removes from the list it
    iterates over: the iterator is an index into the list as it is at each
    step, and [last] is the loop variable [device].  [fuel] bounds the
    number of steps; the length of the list is enough, since each step
    moves the index one closer to the end. *)
Fixpoint scan_devices (fuel i : nat) (devices : list razer_device)
    (last : option razer_device) (log : list init_event)
  : result (list razer_device * option razer_device * list init_event) :=
  match fuel with
  | O => Ok (devices, last, log)
  | S n =>
      match nth_error devices i with
      | None => Ok (devices, last, log)
      | Some d =>
          if fx_advanced d then scan_devices n (S i) devices (Some d) log
          else
            devices' <- remove d devices ;;
            scan_devices n (S i) devices' (Some d)
              (log ++ [Log_skipping (device_name d) (device_serial d)])%list
      end
  end.

(** The fields of a [HeatMapServer] object, and its log. *)
Record server : Type := mkServer {
  port : Z;
  devices : list razer_device;
  device : razer_device;
  sync_effects : bool;
  init_log : list init_event
}.

(** [HeatMapServer.__init__], from the devices the manager found on. *)
Definition init (port : Z) (found : list razer_device) : result server :=
  r <- scan_devices (List.length found) 0 found None
         [Log_found (List.length found)] ;;
  match r with
  | (devices, Some d, log) => Ok (mkServer port devices d false log)
  | (_, None, _) => Raise UnboundLocalError
  end.

End Devices.

(* ================================================================= *)
(** ** Instances used to run the model *)

(** A grey ramp as palette: an index into a 256-entry table, a float in
    [0, 1], and the colours matplotlib gives to nan and to out-of-range
    arguments. *)
Definition ramp_cmap (name : string) (x : cmap_arg) : list Q :=
  match x with
  | CInt i => let v := (inject_Z i / 255)%Q in [v; v; v; 1%Q]
  | CFloat (Np.Finite q) => [q; q; q; 1%Q]
  | CFloat Np.PosInf => [1%Q; 1%Q; 1%Q; 1%Q]
  | CFloat Np.NegInf => [0%Q; 0%Q; 0%Q; 1%Q]
  | CFloat Np.NaN => [0%Q; 0%Q; 0%Q; 0%Q]
  end.

(** A square root rounded down to a multiple of 2^-20. *)
Definition floor_sqrt (q : Q) : Q :=
  (inject_Z (Z.sqrt (Qfloor (q * inject_Z (2 ^ 40)))) / inject_Z (2 ^ 20))%Q.

(** [n] successive calls of [__select_next_colormap]. *)
Fixpoint select_next_n (n : nat) (s : HeatMapper) : result HeatMapper :=
  match n with
  | O => Ok s
  | S k => s' <- select_next_colormap s ;; select_next_n k s'
  end.

(** Successive key releases, each with its environment. *)
Fixpoint releases (get_cmap : string -> cmap_arg -> list Q) (np_sqrt : Q -> Q)
    (evs : list (release_env * string)) (s : HeatMapper) : result HeatMapper :=
  match evs with
  | [] => Ok s
  | (env, key) :: rest =>
      s' <- on_key_release get_cmap np_sqrt env key s ;;
      releases get_cmap np_sqrt rest s'
  end.

(** The layouts of the scenarios. *)
Definition layout_ab : dict string (list location) :=
  [("a", [(0, 0)%Z]); ("b", [(0, 1)%Z])].

(** A key without a cell next to a key with one. *)
Definition layout_gap : dict string (list location) :=
  [("a", []); ("b", [(0, 0)%Z])].

(** The message that paints cell (0, 0) red. *)
Definition red_document : string :=
  Json.dumps (Json.Obj [("(0, 0)", Json.Arr [Json.Int 255; Json.Int 0; Json.Int 0])]).

Definition quiet_init : init_env := mkInitEnv true 0%Q 0%Q true.
Definition at_time (t : Q) : release_env := mkReleaseEnv t t true.

(** How many of the releases [evs] are looked up under the key name [k]. *)
Definition releases_of (k : string) (evs : list (release_env * string)) : nat :=
  List.length (filter (fun e => String.eqb (str_key_of (snd e)) k) evs).

(** The least and the greatest element of an array. *)
Definition least (lo : Q) (a : list Q) : Prop :=
  In lo a /\ forall x, In x a -> (lo <= x)%Q.

Definition greatest (hi : Q) (a : list Q) : Prop :=
  In hi a /\ forall x, In x a -> (x <= hi)%Q.

(** The channels a palette returns: four of them, each in [0, 1]. *)
Definition palette_in_range (get_cmap : string -> cmap_arg -> list Q) : Prop :=
  forall name x,
    List.length (get_cmap name x) = 4%nat
    /\ Forall (fun c => (0 <= c)%Q /\ (c <= 1)%Q) (get_cmap name x).

(** A colour as the device takes it: three channels from 0 to 255. *)
Definition color_triple (rgb : list Z) : Prop :=
  List.length rgb = 3%nat /\ Forall (fun z => (0 <= z <= 255)%Z) rgb.

Definition colors_in_range (s : HeatMapper) : Prop :=
  forall loc rgb, Py.get loc (location_to_color s) = Some rgb -> color_triple rgb.

(** A grey ramp that, as matplotlib's palettes do, clips its argument to
    the range of the table. *)
Definition clip01 (q : Q) : Q := Qmax 0 (Qmin q 1).

Definition grey_cmap (name : string) (x : cmap_arg) : list Q :=
  match x with
  | CInt i => let v := clip01 (inject_Z i / 255)%Q in [v; v; v; 1%Q]
  | CFloat (Np.Finite q) => let v := clip01 q in [v; v; v; 1%Q]
  | CFloat Np.PosInf => [1%Q; 1%Q; 1%Q; 1%Q]
  | CFloat Np.NegInf => [0%Q; 0%Q; 0%Q; 1%Q]
  | CFloat Np.NaN => [0%Q; 0%Q; 0%Q; 0%Q]
  end.

(* ================================================================= *)
(** * Properties *)

(** ** Rational comparisons *)

Lemma Qlt_bool_iff (a b : Q) : Np.Qlt_bool a b = true <-> (a < b)%Q.
Proof.
  unfold Np.Qlt_bool. rewrite negb_true_iff.
  split; intro H.
  - apply Qnot_le_lt. intro Hle. apply Qle_bool_iff in Hle. congruence.
  - destruct (Qle_bool b a) eqn:E; [|reflexivity].
    apply Qle_bool_iff in E. exfalso. apply (Qlt_not_le _ _ H E).
Qed.

Lemma Qlt_bool_sub (r t s : Q) :
  Np.Qlt_bool r (Np.sub t s) = true <-> (r < t - s)%Q.
Proof.
  rewrite Qlt_bool_iff. unfold Np.sub. now rewrite Qred_correct.
Qed.

Lemma Qlt_bool_sub_false (r t s : Q) :
  ~ (r < t - s)%Q -> Np.Qlt_bool r (Np.sub t s) = false.
Proof.
  intro H. destruct (Np.Qlt_bool r (Np.sub t s)) eqn:E; [|reflexivity].
  apply Qlt_bool_sub in E. contradiction.
Qed.

(** ** The palette cursor *)

(** C8: from a cursor inside the registry that names the active palette,
    one call of [__select_next_colormap] moves the cursor to the next entry
    of the registry, from the last entry to the first, makes the entry
    under the cursor the active palette and changes nothing else; as many
    calls as the registry has entries lead back to the same cursor and the
    same palette name. *)
Theorem select_next_colormap_cycle (s : HeatMapper) :
  (color_map_index s < List.length COLOR_MAPS)%nat ->
  nth_error COLOR_MAPS (color_map_index s) = Some (color_map_name s) ->
  (exists s1,
     select_next_colormap s = Ok s1
     /\ color_map_index s1
        = (if (color_map_index s =? 9)%nat then O else S (color_map_index s))
     /\ nth_error COLOR_MAPS (color_map_index s1) = Some (color_map_name s1)
     /\ s1 = set_color_map (color_map_name s1) (color_map_index s1) s)
  /\ select_next_n (List.length COLOR_MAPS) s = Ok s.
Proof.
  destruct s as [dm klm name idx ri el ch so st et lc ln kn co]; simpl.
  intros Hlt Hname. split.
  - do 10 (destruct idx as [|idx];
           [eexists; split; [reflexivity|]; repeat split|]).
    lia.
  - do 10 (destruct idx as [|idx];
           [injection Hname as <-; reflexivity|]).
    lia.
Qed.

Lemma select_next_colormap_cycle_witness :
  exists s s1,
    init ramp_cmap quiet_init layout_ab "rainbow" 3600%Q false false false = Ok s
    /\ select_next_colormap s = Ok s1
    /\ color_map_index s = 9%nat
    /\ color_map_index s1 = O
    /\ color_map_name s1 = "jet"
    /\ select_next_n 10 s = Ok s.
Proof.
  assert (H : exists s,
             init ramp_cmap quiet_init layout_ab "rainbow" 3600%Q false false false
             = Ok s
             /\ color_map_index s = 9%nat
             /\ color_map_name s = "rainbow").
  { eexists. split; [reflexivity|]. split; reflexivity. }
  destruct H as (s & Hinit & Hidx & Hname).
  destruct (@select_next_colormap_cycle s) as [(s1 & H1 & Hi & Hn & _) Hcycle].
  - rewrite Hidx. simpl. lia.
  - rewrite Hidx, Hname. reflexivity.
  - rewrite Hidx in Hi. cbn in Hi.
    exists s, s1. split; [exact Hinit|]. split; [exact H1|].
    split; [exact Hidx|]. split; [exact Hi|].
    rewrite Hi in Hn. cbn in Hn. split; [now injection Hn | exact Hcycle].
Defined.

(** ** Dictionaries *)

Section DictFacts.
Context {K V : Type} `{Hashable K}.

Lemma key_eqb_refl (k : K) : key_eqb k k = true.
Proof. destruct (key_eqb_spec k k); congruence. Qed.

Lemma key_eqb_neq (k k' : K) : k <> k' -> key_eqb k k' = false.
Proof. destruct (key_eqb_spec k k'); congruence. Qed.

Lemma get_set_same (k : K) (v : V) (d : dict K V) :
  Py.get k (Py.set k v d) = Some v.
Proof.
  induction d as [|[k' v'] d IH]; simpl.
  - now rewrite key_eqb_refl.
  - destruct (key_eqb_spec k k') as [->|Hne]; simpl.
    + now rewrite key_eqb_refl.
    + now rewrite key_eqb_neq.
Qed.

Lemma get_set_other (k k' : K) (v : V) (d : dict K V) :
  k <> k' -> Py.get k (Py.set k' v d) = Py.get k d.
Proof.
  intro Hne. induction d as [|[k'' v''] d IH]; simpl.
  - now rewrite key_eqb_neq.
  - destruct (key_eqb_spec k' k'') as [->|Hne']; simpl.
    + now rewrite key_eqb_neq.
    + now rewrite IH.
Qed.

Lemma in_keys_set (k k' : K) (v : V) (d : dict K V) :
  In k (Py.keys (Py.set k' v d)) <-> k = k' \/ In k (Py.keys d).
Proof.
  unfold Py.keys. induction d as [|[k'' v''] d IH]; simpl.
  - intuition.
  - destruct (key_eqb_spec k' k'') as [->|Hne]; simpl.
    + intuition.
    + rewrite IH. intuition.
Qed.

Lemma get_in_keys (k : K) (d : dict K V) :
  In k (Py.keys d) <-> exists v, Py.get k d = Some v.
Proof.
  unfold Py.keys. induction d as [|[k' v'] d IH]; simpl.
  - split; [tauto | intros [v Hv]; discriminate].
  - destruct (key_eqb_spec k k') as [->|Hne].
    + split; [eauto | auto].
    + rewrite <- IH. intuition congruence.
Qed.

(** Assigning to a key that is not there appends the entry. *)
Lemma set_fresh (k : K) (v : V) (d : dict K V) :
  ~ In k (Py.keys d) -> Py.set k v d = (d ++ [(k, v)])%list.
Proof.
  unfold Py.keys. induction d as [|[k' v'] d IH]; simpl; intro Hn.
  - reflexivity.
  - rewrite key_eqb_neq by intuition. rewrite IH by intuition. reflexivity.
Qed.

Lemma fold_set_fresh (items acc : dict K V) :
  NoDup (Py.keys (acc ++ items)%list) ->
  fold_left (fun d kv => Py.set (fst kv) (snd kv) d) items acc
  = (acc ++ items)%list.
Proof.
  revert acc. induction items as [|[k v] items IH]; intros acc Hnd; simpl.
  - now rewrite app_nil_r.
  - assert (Hk : ~ In k (Py.keys acc)).
    { unfold Py.keys in *. rewrite map_app in Hnd. simpl in Hnd.
      apply NoDup_remove_2 in Hnd. intro Hin. apply Hnd.
      apply in_or_app. now left. }
    rewrite set_fresh by assumption.
    rewrite IH; rewrite <- app_assoc; simpl; [reflexivity | assumption].
Qed.

(** Building a dictionary from items with distinct keys keeps the items. *)
Lemma of_items_nodup (items : dict K V) :
  NoDup (Py.keys items) -> Py.of_items items = items.
Proof. intro Hnd. unfold Py.of_items. now rewrite fold_set_fresh. Qed.

(** Setting every key of [ks] to [x]. *)
Lemma get_fold_set_notin (x : V) (ks : list K) (d : dict K V) (k : K) :
  ~ In k ks ->
  Py.get k (fold_left (fun d k' => Py.set k' x d) ks d) = Py.get k d.
Proof.
  revert d. induction ks as [|k0 ks IH]; intros d Hn; simpl; [reflexivity|].
  simpl in Hn. rewrite IH by tauto. apply get_set_other. intuition.
Qed.

Lemma get_fold_set_in (x : V) (ks : list K) (d : dict K V) (k : K) :
  In k ks -> Py.get k (fold_left (fun d k' => Py.set k' x d) ks d) = Some x.
Proof.
  revert d. induction ks as [|k0 ks IH]; intros d Hin; simpl; [destruct Hin|].
  destruct (in_dec (fun a b => reflect_dec _ _ (key_eqb_spec a b)) k ks) as [Hk|Hk].
  - now apply IH.
  - destruct Hin as [->|Hin]; [|contradiction].
    rewrite get_fold_set_notin by assumption. apply get_set_same.
Qed.

Lemma in_keys_fold_set (x : V) (ks : list K) (d : dict K V) (k : K) :
  In k (Py.keys (fold_left (fun d k' => Py.set k' x d) ks d)) <->
  In k ks \/ In k (Py.keys d).
Proof.
  revert d. induction ks as [|k0 ks IH]; intro d; simpl; [tauto|].
  rewrite IH, in_keys_set. intuition.
Qed.

End DictFacts.

(** ** The engine: resets *)

Section EngineFacts.
Variable get_cmap : string -> cmap_arg -> list Q.
Variable np_sqrt : Q -> Q.

(** [__init_color_map] changes the two location dictionaries and nothing
    else: it assigns 0 and the base colour at every location of the layout. *)
Lemma init_color_map_eq (s : HeatMapper) :
  init_color_map get_cmap s =
  set_location_to_color
    (fold_left
       (fun d loc => Py.set loc (base_color_of get_cmap (color_map_name s)) d)
       (layout_locations (key_to_location_map s)) (location_to_color s))
    (set_location_to_count
       (fold_left (fun d loc => Py.set loc O d)
          (layout_locations (key_to_location_map s)) (location_to_count s))
       s).
Proof.
  unfold init_color_map.
  generalize (base_color_of get_cmap (color_map_name s)) as base.
  generalize (layout_locations (key_to_location_map s)) as locs.
  intros locs base. revert s.
  induction locs as [|loc locs IH]; intro s; simpl.
  - now destruct s.
  - rewrite IH. now destruct s.
Qed.

Lemma key_name_to_count_init_color_map (s : HeatMapper) :
  key_name_to_count (init_color_map get_cmap s) = key_name_to_count s.
Proof. rewrite init_color_map_eq. reflexivity. Qed.

Lemma select_next_colormap_fields (s s' : HeatMapper) :
  select_next_colormap s = Ok s' ->
  exists name index, s' = set_color_map name index s
    /\ (index < List.length COLOR_MAPS)%nat
    /\ nth_error COLOR_MAPS index = Some name.
Proof.
  unfold select_next_colormap.
  set (index := if (_ =? _)%nat then _ else _).
  destruct (nth_error COLOR_MAPS index) as [name|] eqn:E; [|discriminate].
  intros [= <-]. exists name, index. split; [reflexivity|]. split; [|exact E].
  apply nth_error_Some. rewrite E. discriminate.
Qed.

(** What the refresh check does when the interval has elapsed. *)
Lemma refresh_check_elapsed (env : release_env) (s s' : HeatMapper) :
  (refresh_interval s < time_at_release env - start_time s)%Q ->
  refresh_check get_cmap env s = Ok s' ->
  exists s1,
    (if change_heatmap_on_refresh s
     then select_next_colormap
            (set_elapsed_time (Np.sub (time_at_release env) (start_time s)) s)
     else Ok (set_elapsed_time (Np.sub (time_at_release env) (start_time s)) s))
    = Ok s1
    /\ s' = set_start_time (time_at_restart env) (init_color_map get_cmap s1).
Proof.
  intros Hlt. unfold refresh_check.
  cbn [refresh_interval elapsed_time set_elapsed_time change_heatmap_on_refresh].
  apply Qlt_bool_sub in Hlt. rewrite Hlt.
  destruct (change_heatmap_on_refresh s).
  - destruct (select_next_colormap _) as [s1|e] eqn:E; simpl; [|discriminate].
    intros [= <-]. now exists s1.
  - simpl. intros [= <-]. eexists. split; reflexivity.
Qed.

(** What it does otherwise: it stores the elapsed time. *)
Lemma refresh_check_not_elapsed (env : release_env) (s : HeatMapper) :
  ~ (refresh_interval s < time_at_release env - start_time s)%Q ->
  refresh_check get_cmap env s
  = Ok (set_elapsed_time (Np.sub (time_at_release env) (start_time s)) s).
Proof.
  intros Hlt. unfold refresh_check.
  cbn [refresh_interval elapsed_time set_elapsed_time].
  now rewrite Qlt_bool_sub_false.
Qed.

(** C9: a reset triggered inside [on_key_release] leaves the Key-Name
    Counters as they were: the state right after the refresh check has the
    same [key_name_to_count] as the state before it. *)
Theorem refresh_keeps_key_name_counts (env : release_env) (s s' : HeatMapper) :
  (refresh_interval s < time_at_release env - start_time s)%Q ->
  refresh_check get_cmap env s = Ok s' ->
  key_name_to_count s' = key_name_to_count s.
Proof.
  intros Hlt Hr.
  destruct (refresh_check_elapsed env s Hlt Hr) as (s1 & Hs1 & ->).
  cbn [set_start_time key_name_to_count].
  rewrite key_name_to_count_init_color_map.
  destruct (change_heatmap_on_refresh s).
  - apply select_next_colormap_fields in Hs1 as (name & index & -> & _).
    reflexivity.
  - now injection Hs1 as <-.
Qed.

End EngineFacts.

Lemma refresh_keeps_key_name_counts_witness :
  exists s0 s s',
    init ramp_cmap quiet_init layout_ab "hot" 3600%Q false false false = Ok s0
    /\ on_key_release ramp_cmap floor_sqrt (at_time 1%Q) "a" s0 = Ok s
    /\ refresh_check ramp_cmap (at_time 4000%Q) s = Ok s'
    /\ key_name_to_count s = [("a", 1%nat); ("b", O)]
    /\ key_name_to_count s' = key_name_to_count s.
Proof.
  eexists _, _, _.
  split; [reflexivity|]. split; [vm_compute; reflexivity|].
  split; [vm_compute; reflexivity|]. split; [reflexivity|].
  apply (@refresh_keeps_key_name_counts ramp_cmap (at_time 4000%Q));
    vm_compute; reflexivity.
Defined.

(** ** The engine: key names without a cell *)

Section UnmappedKeys.
Variable get_cmap : string -> cmap_arg -> list Q.
Variable np_sqrt : Q -> Q.

Lemma refresh_check_layout (env : release_env) (s s' : HeatMapper) :
  refresh_check get_cmap env s = Ok s' ->
  key_to_location_map s' = key_to_location_map s.
Proof.
  unfold refresh_check.
  cbn [refresh_interval elapsed_time set_elapsed_time change_heatmap_on_refresh].
  destruct (Np.Qlt_bool _ _); [|now intros [= <-]].
  destruct (change_heatmap_on_refresh s).
  - destruct (select_next_colormap _) as [s1|e] eqn:E; simpl; [|discriminate].
    intros [= <-].
    apply select_next_colormap_fields in E as (name & index & -> & _).
    rewrite init_color_map_eq. reflexivity.
  - simpl. intros [= <-]. rewrite init_color_map_eq. reflexivity.
Qed.


End UnmappedKeys.



(** ** The engine: an update while every counter is zero *)

(** C1 on the code: a release of a key that the layout maps to no cell
    leaves every Press Counter at 0, and the update then divides 0 by 0:
    the normalized value is nan, and the colour is the palette's value at
    nan, whatever the palette and the square root are. *)
Theorem update_with_zero_counts_is_nan
    (get_cmap : string -> cmap_arg -> list Q) (np_sqrt : Q -> Q) :
  exists s0 s1,
    init get_cmap quiet_init layout_gap "hot" 3600%Q false false false = Ok s0
    /\ on_key_release get_cmap np_sqrt (at_time 1%Q) "a" s0 = Ok s1
    /\ location_to_count s1 = [((0, 0)%Z, O)]
    /\ normalized_counts np_sqrt s1 = Ok [Np.NaN]
    /\ location_to_color s1
       = [((0, 0)%Z, scale_rgb (get_cmap "hot" (CFloat Np.NaN)))].
Proof.
  eexists _, _.
  split; [reflexivity|]. split; [reflexivity|].
  split; [reflexivity|]. split; reflexivity.
Qed.

(** ** The server: a chunk that is not a JSON document *)

(** C2 on the code: after the decode error is logged the iteration goes on.
    On the first read [color_map_str] is unbound and the loop ends with an
    uncaught UnboundLocalError; later, the previous message is applied to
    the device once more. *)
Theorem malformed_chunk_is_not_skipped :
  Server.start_listening ["{"]
  = (Server.Uncaught UnboundLocalError,
     Server.mkFrame None
       [Server.Log_connected; Server.Log_received_data; Server.Log_size_of 1;
        Server.Log_decode_error])
  /\ Json.loads "{" = Raise ValueError
  /\ let red := [Json.Int 255; Json.Int 0; Json.Int 0] in
     Server.start_listening [red_document; "{"]
     = (Server.Awaiting_data,
        Server.mkFrame (Some (Json.Obj [("(0, 0)", Json.Arr red)]))
          [Server.Log_connected;
           Server.Log_received_data; Server.Log_size_of 23;
           Server.Set_cell 0 0 red; Server.Draw;
           Server.Log_received_data; Server.Log_size_of 1;
           Server.Log_decode_error;
           Server.Set_cell 0 0 red; Server.Draw]).
Proof.
  split; [vm_compute; reflexivity|]. split; vm_compute; reflexivity.
Qed.

(** ** The engine: the scenario of three releases *)

Section Scenario.
Variable get_cmap : string -> cmap_arg -> list Q.
Variable np_sqrt : Q -> Q.

Lemma release_without_refresh (env : release_env) (key : string) (s : HeatMapper) :
  ~ (refresh_interval s < time_at_release env - start_time s)%Q ->
  on_key_release get_cmap np_sqrt env key s
  = record_key get_cmap np_sqrt env key
      (set_elapsed_time (Np.sub (time_at_release env) (start_time s)) s).
Proof.
  intro H. unfold on_key_release. now rewrite refresh_check_not_elapsed.
Qed.

(** One release that does not cross the refresh interval, evaluated on a
    state whose fields are known; the stored elapsed time, the palette's
    colours and the payload stay as they are written. *)
Ltac release_step H :=
  rewrite release_without_refresh by exact H;
  cbn [time_at_release];
  match goal with
  | |- context [Np.sub ?t ?x] => generalize (Np.sub t x); intro
  end;
  match goal with
  | |- context [record_key ?g ?q ?e ?k ?st] =>
      let r := eval lazy -[scale_rgb base_color_of Json.dumps wire_document]
               in (record_key g q e k st) in
      change (record_key g q e k st) with r
  end;
  cbv beta iota delta [Py.bind].

(** On the layout a -> (0,0), b -> (0,1), with lowkey enhancement off and no
    release past the refresh interval, three releases of "a" leave the
    Press Counters at 3 and 0, the normalized values at 1 and 0, and the
    colours at the palette's values at 1.0 and 0.0. *)
Lemma three_releases_scenario (ienv : init_env) (cm : string) (refresh : Q)
    (change debug : bool) (e1 e2 e3 : release_env) (s0 : HeatMapper) :
  init get_cmap ienv layout_ab cm refresh false change debug = Ok s0 ->
  ~ (refresh < time_at_release e1 - time_at_start ienv)%Q ->
  ~ (refresh < time_at_release e2 - time_at_start ienv)%Q ->
  ~ (refresh < time_at_release e3 - time_at_start ienv)%Q ->
  exists s3,
    releases get_cmap np_sqrt [(e1, "a"); (e2, "a"); (e3, "a")] s0 = Ok s3
    /\ location_to_count s3 = [((0, 0)%Z, 3%nat); ((0, 1)%Z, O)]
    /\ normalized_counts np_sqrt s3
       = Ok [Np.Finite 1%Q; Np.Finite 0%Q]
    /\ location_to_color s3
       = [((0, 0)%Z, scale_rgb (get_cmap cm (CFloat (Np.Finite 1%Q))));
          ((0, 1)%Z, scale_rgb (get_cmap cm (CFloat (Np.Finite 0%Q))))].
Proof.
  unfold init. destruct (list_index cm COLOR_MAPS) as [index|e]; [|discriminate].
  simpl Py.bind.
  destruct ienv as [conn t0 t0' ok0], e1 as [t1 t1' ok1], e2 as [t2 t2' ok2],
    e3 as [t3 t3' ok3].
  cbn [connect_ok time_at_start time_at_release first_sendall_ok].
  destruct conn; [|discriminate].
  generalize (Np.sub t0' t0) as el0. intros el0 [= <-] H1 H2 H3.
  unfold releases.
  destruct debug, ok0, ok1, ok2, ok3;
    (release_step H1; release_step H2; release_step H3;
     eexists; split; [reflexivity|];
     split; [reflexivity|]; split; reflexivity).
Qed.

End Scenario.

(** ** The engine: normalization keeps the order of the counts *)

Lemma fold_Qmax_ge_init (r : list Q) (y : Q) : (y <= fold_left Qmax r y)%Q.
Proof.
  revert y. induction r as [|x r IH]; intro y; simpl.
  - apply Qle_refl.
  - eapply Qle_trans; [apply Q.le_max_l | apply IH].
Qed.

Lemma fold_Qmax_ge (r : list Q) (y x : Q) :
  In x (y :: r) -> (x <= fold_left Qmax r y)%Q.
Proof.
  revert y. induction r as [|z r IH]; intros y [<-|Hin]; simpl.
  - apply Qle_refl.
  - destruct Hin.
  - eapply Qle_trans; [apply Q.le_max_l | apply fold_Qmax_ge_init].
  - destruct Hin as [<-|Hin].
    + eapply Qle_trans; [apply Q.le_max_r | apply fold_Qmax_ge_init].
    + apply IH. now right.
Qed.

Lemma np_max_ge (a : list Q) (hi x : Q) :
  Np.max a = Ok hi -> In x a -> (x <= hi)%Q.
Proof.
  destruct a as [|y r]; simpl; [discriminate|].
  intros [= <-] Hin. now apply fold_Qmax_ge.
Qed.

(** Dividing by a positive maximum keeps the order. *)
Lemma np_div_monotone (x y lo hi : Q) :
  (0 < hi)%Q -> (x <= y)%Q ->
  Np.le (Np.div (Np.sub x lo) hi) (Np.div (Np.sub y lo) hi).
Proof.
  intros Hhi Hxy. unfold Np.div.
  assert (Hne : Qeq_bool hi 0 = false).
  { destruct (Qeq_bool hi 0) eqn:E; [|reflexivity].
    apply Qeq_bool_eq in E. rewrite E in Hhi. now apply Qlt_irrefl in Hhi. }
  rewrite Hne. cbn [Np.le]. unfold Np.sub. rewrite !Qred_correct.
  unfold Qdiv. apply Qmult_le_compat_r.
  - unfold Qminus. apply Qplus_le_compat; [assumption | apply Qle_refl].
  - apply Qlt_le_weak. now apply Qinv_lt_0_compat.
Qed.

Lemma get_combine_map {V W : Type} (h : V -> W) (k : location) (d : dict location V) :
  Py.get k (combine (Py.keys d) (map h (Py.values d)))
  = option_map h (Py.get k d).
Proof.
  unfold Py.keys, Py.values. induction d as [|[k' v] d IH]; simpl; [reflexivity|].
  destruct (location_eqb k k'); [reflexivity | exact IH].
Qed.

Lemma get_in_values {V : Type} (k : location) (v : V) (d : dict location V) :
  Py.get k d = Some v -> In v (Py.values d).
Proof.
  unfold Py.values. induction d as [|[k' v'] d IH]; simpl; [discriminate|].
  destruct (location_eqb k k'); [intros [= ->]; now left | intro H; right; auto].
Qed.

Section Monotone.
Variable np_sqrt : Q -> Q.

(** What is assumed of [np.sqrt]: it keeps the order of non-negative
    arguments, and the root of 1 is positive. *)
Hypothesis np_sqrt_monotone :
  forall a b : Q, (0 <= a)%Q -> (a <= b)%Q -> (np_sqrt a <= np_sqrt b)%Q.
Hypothesis np_sqrt_one : (0 < np_sqrt 1)%Q.

Lemma transformed_monotone (s : HeatMapper) (c c' : nat) :
  (c <= c')%nat -> (transformed_count np_sqrt s c <= transformed_count np_sqrt s c')%Q.
Proof.
  intro H. unfold transformed_count.
  assert (Hq : (inject_Z (Z.of_nat c) <= inject_Z (Z.of_nat c'))%Q)
    by (rewrite <- Zle_Qle; lia).
  destruct (enhance_lowkeys s); [|exact Hq].
  apply np_sqrt_monotone; [|exact Hq].
  change 0%Q with (inject_Z 0). rewrite <- Zle_Qle. lia.
Qed.

Lemma transformed_positive (s : HeatMapper) (c : nat) :
  (0 < c)%nat -> (0 < transformed_count np_sqrt s c)%Q.
Proof.
  intro H.
  apply Qlt_le_trans with (transformed_count np_sqrt s 1%nat).
  - unfold transformed_count. destruct (enhance_lowkeys s);
      [exact np_sqrt_one | reflexivity].
  - apply transformed_monotone. lia.
Qed.

Lemma normalized_counts_eq (s : HeatMapper) (v : list Np.float64) :
  normalized_counts np_sqrt s = Ok v ->
  exists lo hi,
    Np.max (map (transformed_count np_sqrt s) (Py.values (location_to_count s))) = Ok hi
    /\ v = map (fun c => Np.div (Np.sub (transformed_count np_sqrt s c) lo) hi)
             (Py.values (location_to_count s)).
Proof.
  unfold normalized_counts, Np.fromiter, transformed_count.
  destruct (enhance_lowkeys s); rewrite ?map_map;
    (destruct (Np.min _) as [lo|]; simpl; [|discriminate]);
    (destruct (Np.max _) as [hi|] eqn:E; simpl; [|discriminate]);
    intros [= <-]; exists lo, hi; (split; [reflexivity|]);
    now rewrite map_map.
Qed.

(** C7: at an update, a location with a strictly greater Press Counter has
    a normalized value that is greater or equal, with lowkey enhancement on
    or off; the palette plays no part. *)
Theorem normalization_monotone (s : HeatMapper) (norm : dict location Np.float64)
    (A B : location) (ca cb : nat) (xa xb : Np.float64) :
  normalized_by_location np_sqrt s = Ok norm ->
  Py.get A (location_to_count s) = Some ca ->
  Py.get B (location_to_count s) = Some cb ->
  Py.get A norm = Some xa ->
  Py.get B norm = Some xb ->
  (cb < ca)%nat ->
  Np.le xb xa.
Proof.
  unfold normalized_by_location.
  destruct (normalized_counts np_sqrt s) as [v|] eqn:Hv; simpl; [|discriminate].
  intros [= <-] HA HB Hxa Hxb Hlt.
  destruct (normalized_counts_eq s Hv) as (lo & hi & Hhi & ->).
  rewrite get_combine_map, HA in Hxa. rewrite get_combine_map, HB in Hxb.
  simpl in Hxa, Hxb. injection Hxa as <-. injection Hxb as <-.
  apply np_div_monotone.
  - apply Qlt_le_trans with (transformed_count np_sqrt s ca).
    + apply transformed_positive. lia.
    + apply (@np_max_ge _ _ _ Hhi). apply in_map. now apply get_in_values with A.
  - apply transformed_monotone. lia.
Qed.

End Monotone.

Lemma floor_sqrt_monotone (a b : Q) :
  (0 <= a)%Q -> (a <= b)%Q -> (floor_sqrt a <= floor_sqrt b)%Q.
Proof.
  intros _ Hab. unfold floor_sqrt.
  apply Qmult_le_compat_r; [|now vm_compute].
  rewrite <- Zle_Qle. apply Z.sqrt_le_mono. apply Qfloor_resp_le.
  apply Qmult_le_compat_r; [exact Hab | now vm_compute].
Qed.

Lemma floor_sqrt_one : (0 < floor_sqrt 1)%Q.
Proof. now vm_compute. Qed.

Lemma normalization_monotone_witness :
  exists s0 s norm xa xb,
    init ramp_cmap quiet_init layout_ab "hot" 3600%Q true false false = Ok s0
    /\ releases ramp_cmap floor_sqrt
         [(at_time 1%Q, "a"); (at_time 2%Q, "a"); (at_time 3%Q, "b")] s0 = Ok s
    /\ normalized_by_location floor_sqrt s = Ok norm
    /\ Py.get (0, 0)%Z norm = Some xa
    /\ Py.get (0, 1)%Z norm = Some xb
    /\ Np.le xb xa.
Proof.
  eexists _, _, _, _, _.
  split; [reflexivity|]. split; [vm_compute; reflexivity|].
  match goal with
  | |- normalized_by_location _ ?s = _ /\ _ => pose (st := s)
  end.
  split; [vm_compute; reflexivity|].
  match goal with
  | |- Py.get _ ?n = _ /\ _ => pose (nm := n)
  end.
  split; [reflexivity|]. split; [reflexivity|].
  apply (@normalization_monotone floor_sqrt floor_sqrt_monotone floor_sqrt_one
           st nm (0, 0)%Z (0, 1)%Z 2%nat 1%nat);
    vm_compute; reflexivity.
Defined.

(** ** The engine: what every reachable state satisfies *)

Lemma list_index_spec (name : string) (l : list string) (i : nat) :
  list_index name l = Ok i -> (i < List.length l)%nat /\ nth_error l i = Some name.
Proof.
  revert i. induction l as [|x l IH]; intro i; simpl; [discriminate|].
  destruct (String.eqb_spec x name) as [->|Hne].
  - intros [= <-]. split; [lia | reflexivity].
  - destruct (list_index name l) as [j|]; simpl; [|discriminate].
    intros [= <-]. destruct (IH j eq_refl). split; [lia | assumption].
Qed.

Lemma in_keys_fold_set_pairs {V W : Type} (f : location * W -> V)
    (pairs : list (location * W)) (d : dict location V) (k : location) :
  In k (Py.keys (fold_left (fun colors lx => Py.set (fst lx) (f lx) colors) pairs d))
  <-> In k (map fst pairs) \/ In k (Py.keys d).
Proof.
  revert d. induction pairs as [|p pairs IH]; intro d; simpl; [tauto|].
  rewrite IH, in_keys_set. intuition.
Qed.

Lemma in_fst_combine {A B : Type} (x : A) (l : list A) (l' : list B) :
  In x (map fst (combine l l')) -> In x l.
Proof.
  revert l'. induction l as [|a l IH]; intros [|b l']; simpl; try tauto.
  intros [->|H]; [now left | right; eauto].
Qed.

Section Invariant.
Variable get_cmap : string -> cmap_arg -> list Q.
Variable np_sqrt : Q -> Q.

Lemma consistent_select_next_colormap (s s' : HeatMapper) :
  consistent s -> select_next_colormap s = Ok s' -> consistent s'.
Proof.
  intros (_ & _ & Hcount & Hcolor) Hs.
  apply select_next_colormap_fields in Hs as (name & index & -> & Hlt & Hnth).
  repeat split; assumption.
Qed.

Lemma consistent_init_color_map (s : HeatMapper) :
  consistent s -> consistent (init_color_map get_cmap s).
Proof.
  intros (Hlt & Hnth & Hcount & Hcolor). rewrite init_color_map_eq.
  repeat split; try assumption; intro loc;
    cbn [set_location_to_color set_location_to_count location_to_count
         location_to_color key_to_location_map];
    rewrite in_keys_fold_set; intros [H|H]; auto.
Qed.

Lemma consistent_refresh_check (env : release_env) (s s' : HeatMapper) :
  consistent s -> refresh_check get_cmap env s = Ok s' -> consistent s'.
Proof.
  intros Hs. unfold refresh_check.
  cbn [refresh_interval elapsed_time set_elapsed_time change_heatmap_on_refresh].
  destruct (Np.Qlt_bool _ _); [|intros [= <-]; exact Hs].
  assert (He : consistent
                 (set_elapsed_time (Np.sub (time_at_release env) (start_time s)) s))
    by exact Hs.
  destruct (change_heatmap_on_refresh s).
  - destruct (select_next_colormap _) as [s1|e] eqn:E; simpl; [|discriminate].
    intros [= <-].
    apply (consistent_select_next_colormap He) in E.
    apply consistent_init_color_map in E. exact E.
  - simpl. intros [= <-].
    apply consistent_init_color_map in He. exact He.
Qed.

Lemma count_locations_fields (locations : list location) (s s' : HeatMapper) :
  count_locations locations s = Ok s' ->
  exists d, s' = set_location_to_count d s
    /\ forall loc, In loc (Py.keys d) <-> In loc (Py.keys (location_to_count s)).
Proof.
  revert s. induction locations as [|l locations IH]; intro s; simpl.
  - intros [= <-]. exists (location_to_count s). split; [now destruct s | tauto].
  - unfold count_location, Py.getitem.
    destruct (Py.get l (location_to_count s)) as [c|] eqn:E; simpl; [|discriminate].
    intro H. apply IH in H as (d & -> & Hd).
    exists d. split; [reflexivity|].
    intro loc. rewrite Hd. cbn [location_to_count set_location_to_count].
    rewrite in_keys_set. split; [|tauto].
    intros [->|H]; [|exact H]. apply get_in_keys. eauto.
Qed.

Lemma consistent_debug_hooks (str_key : string) (s s' : HeatMapper) :
  consistent s -> debug_hooks str_key s = Ok s' -> consistent s'.
Proof.
  intro Hs. unfold debug_hooks.
  set (s1 := if String.eqb str_key "Key.f7" then _ else s).
  assert (H1 : consistent s1) by (subst s1; destruct (String.eqb _ _); exact Hs).
  clearbody s1.
  destruct (String.eqb str_key "Key.f2").
  - destruct (select_next_colormap s1) as [s2|e] eqn:E; simpl; [|discriminate].
    apply (consistent_select_next_colormap H1) in E.
    intros [= <-]. destruct (String.eqb str_key "Key.f3"); exact E.
  - simpl. intros [= <-]. destruct (String.eqb str_key "Key.f3"); exact H1.
Qed.

Lemma consistent_update_color_map (s s' : HeatMapper) :
  consistent s -> update_color_map get_cmap np_sqrt s = Ok s' -> consistent s'.
Proof.
  intros (Hlt & Hnth & Hcount & Hcolor). unfold update_color_map, normalized_by_location.
  destruct (normalized_counts np_sqrt s) as [v|]; simpl; [|discriminate].
  intros [= <-]. repeat split; try assumption. intro loc.
  cbn [set_location_to_color location_to_color key_to_location_map].
  rewrite in_keys_fold_set_pairs. intros [H|H]; [|auto].
  apply Hcount. eapply in_fst_combine. exact H.
Qed.

Lemma consistent_send_colors_to_server (ok : bool) (s : HeatMapper) :
  consistent s -> consistent (send_colors_to_server ok s).
Proof. intro Hs. unfold send_colors_to_server. destruct ok; exact Hs. Qed.

Lemma consistent_record_key (env : release_env) (key : string) (s s' : HeatMapper) :
  consistent s -> record_key get_cmap np_sqrt env key s = Ok s' -> consistent s'.
Proof.
  intro Hs. unfold record_key.
  destruct (Py.get (str_key_of key) (key_to_location_map s)) as [locations|];
    [|intros [= <-]; exact Hs].
  destruct (Py.getitem _ _) as [c|]; simpl; [|discriminate].
  destruct (count_locations locations _) as [s1|] eqn:E1; simpl; [|discriminate].
  apply count_locations_fields in E1 as (d & -> & Hd).
  cbn [debug_mode set_location_to_count set_key_name_to_count].
  match goal with |- context [debug_hooks _ ?st] => set (s2 := st) end.
  assert (H2 : consistent s2).
  { destruct Hs as (Hlt & Hnth & Hcount & Hcolor).
    repeat split; try assumption. intros loc H. apply Hcount, Hd, H. }
  clearbody s2.
  destruct (if debug_mode s then debug_hooks (str_key_of key) s2 else Ok s2)
    as [s3|] eqn:E3; simpl; [|discriminate].
  assert (H3 : consistent s3).
  { destruct (debug_mode s); [eapply consistent_debug_hooks; eassumption|].
    now injection E3 as <-. }
  destruct (update_color_map get_cmap np_sqrt s3) as [s4|] eqn:E4; simpl;
    [|discriminate].
  intros [= <-]. apply consistent_send_colors_to_server.
  eapply consistent_update_color_map; eassumption.
Qed.

Lemma consistent_init (env : init_env) (layout : dict string (list location))
    (color_map : string) (refresh : Q) (enhance change debug : bool)
    (s : HeatMapper) :
  init get_cmap env layout color_map refresh enhance change debug = Ok s ->
  consistent s.
Proof.
  unfold init.
  destruct (list_index color_map COLOR_MAPS) as [index|] eqn:E; simpl; [|discriminate].
  destruct (connect_ok env); [|discriminate].
  intros [= <-]. apply list_index_spec in E as [Hlt Hnth].
  apply consistent_send_colors_to_server, consistent_init_color_map.
  repeat split; try assumption; intros loc [].
Qed.

Lemma reachable_consistent (s : HeatMapper) :
  reachable get_cmap np_sqrt s -> consistent s.
Proof.
  induction 1 as [env layout cm refresh enhance change debug s Hinit
                 | env key s s' _ IH Hrel].
  - eapply consistent_init; eassumption.
  - unfold on_key_release in Hrel.
    destruct (refresh_check get_cmap env s) as [s1|] eqn:E; simpl in Hrel;
      [|discriminate].
    eapply consistent_record_key; [|eassumption].
    eapply consistent_refresh_check; eassumption.
Qed.


End Invariant.


(* ================================================================= *)
(** ** The wire format: text *)

Module TextFacts.
Import Text.

Ltac ascii_cases c := destruct c as [[] [] [] [] [] [] [] []].

Lemma append_assoc (a b c : string) : (a ++ b) ++ c = a ++ (b ++ c).
Proof. induction a as [|x a IH]; simpl; [reflexivity | now rewrite IH]. Qed.

Lemma length_append (a b : string) :
  String.length (a ++ b) = (String.length a + String.length b)%nat.
Proof. induction a as [|x a IH]; simpl; [reflexivity | now rewrite IH]. Qed.

Lemma all_digits_string_of_uint (d : uint) :
  all_digits (NilEmpty.string_of_uint d) = true.
Proof. induction d; simpl; auto. Qed.

Lemma span_digits_app (ds rest : string) :
  all_digits ds = true -> starts_with_digit rest = false ->
  span_digits (ds ++ rest) = (ds, rest).
Proof.
  intros Hds Hrest. induction ds as [|c ds IH]; simpl.
  - destruct rest as [|c r]; simpl in *; [reflexivity | now rewrite Hrest].
  - simpl in Hds. apply andb_true_iff in Hds as [Hc Hds].
    rewrite Hc, (IH Hds). reflexivity.
Qed.

Lemma digits_value_string_of_uint (d : uint) :
  d <> Nil -> digits_value (NilEmpty.string_of_uint d) = Some (Z.of_uint d).
Proof.
  intro Hd. unfold digits_value.
  replace (NilZero.uint_of_string (NilEmpty.string_of_uint d))
    with (Some d); [reflexivity|].
  symmetry. rewrite <- (@NilZero.usu d Hd). unfold NilZero.string_of_uint.
  destruct d; congruence.
Qed.

(** The decimal digits of a positive number do not start with a zero. *)
Lemma to_uint_head (p : positive) :
  exists c tail,
    NilEmpty.string_of_uint (Pos.to_uint p) = String c tail
    /\ is_digit c = true /\ Ascii.eqb c "0" = false.
Proof.
  assert (Hnorm : unorm (Pos.to_uint p) = Pos.to_uint p).
  { rewrite <- DecimalPos.Unsigned.to_of, DecimalPos.Unsigned.of_to. reflexivity. }
  pose proof (DecimalPos.Unsigned.to_uint_nonzero p) as Hnz.
  destruct (Pos.to_uint p) as [|d|d|d|d|d|d|d|d|d|d] eqn:E;
    try (eexists _, _; split; [reflexivity|]; split; reflexivity).
  - discriminate Hnorm.
  - exfalso. rewrite DecimalFacts.unorm_D0 in Hnorm.
    destruct d as [|d'|d'|d'|d'|d'|d'|d'|d'|d'|d'] eqn:E';
      [now apply Hnz | ..];
      (assert (Hle : (nb_digits (unorm d) <= nb_digits d)%nat)
         by (apply DecimalFacts.nb_digits_unorm; subst d; discriminate);
       subst d; rewrite Hnorm in Hle; simpl in Hle; lia).
Qed.

(** The shape of [str(z)]: an optional minus sign and a canonical digit
    run whose value is the absolute value of [z]. *)
Lemma str_int_shape (z : Z) :
  exists ds c tail,
    str_int z = (if (z <? 0)%Z then "-" else "") ++ ds
    /\ ds = String c tail
    /\ is_digit c = true
    /\ all_digits ds = true
    /\ digits_value ds = Some (Z.abs z)
    /\ (Ascii.eqb c "0" = false \/ ds = "0").
Proof.
  destruct z as [|p|p].
  - exists "0", "0"%char, "". repeat split; auto.
  - destruct (to_uint_head p) as (c & tail & Heq & Hc & Hz).
    exists (NilEmpty.string_of_uint (Pos.to_uint p)), c, tail.
    split.
    { unfold str_int. simpl. unfold NilZero.string_of_uint.
      destruct (Pos.to_uint p) eqn:E; try reflexivity.
      now apply DecimalPos.Unsigned.to_uint_nonnil in E. }
    split; [exact Heq|]. split; [exact Hc|].
    split; [apply all_digits_string_of_uint|].
    split; [|now left].
    rewrite digits_value_string_of_uint
      by apply DecimalPos.Unsigned.to_uint_nonnil.
    unfold Z.of_uint. now rewrite DecimalPos.Unsigned.of_to.
  - destruct (to_uint_head p) as (c & tail & Heq & Hc & Hz).
    exists (NilEmpty.string_of_uint (Pos.to_uint p)), c, tail.
    split.
    { unfold str_int. simpl. unfold NilZero.string_of_uint.
      destruct (Pos.to_uint p) eqn:E; try reflexivity.
      now apply DecimalPos.Unsigned.to_uint_nonnil in E. }
    split; [exact Heq|]. split; [exact Hc|].
    split; [apply all_digits_string_of_uint|].
    split; [|now left].
    rewrite digits_value_string_of_uint
      by apply DecimalPos.Unsigned.to_uint_nonnil.
    unfold Z.of_uint. now rewrite DecimalPos.Unsigned.of_to.
Qed.

(** A digit is none of the other characters the scanners look for. *)
Lemma digit_is_no_sign (c : ascii) :
  is_digit c = true -> Ascii.eqb "-" c = false /\ Ascii.eqb "+" c = false.
Proof. intro H. ascii_cases c; try discriminate H; split; reflexivity. Qed.

Lemma digit_is_no_paren (c : ascii) :
  is_digit c = true -> Ascii.eqb ")" c = false /\ Ascii.eqb "," c = false.
Proof. intro H. ascii_cases c; try discriminate H; split; reflexivity. Qed.

Lemma digit_is_no_space (c : ascii) :
  is_digit c = true -> is_py_space c = false.
Proof. intro H. ascii_cases c; try discriminate H; reflexivity. Qed.

Lemma skip_py_space_digit (c : ascii) (t : string) :
  is_digit c = true -> skip_py_space (String c t) = String c t.
Proof. intro H. simpl. now rewrite digit_is_no_space. Qed.

Lemma canonical_digits_accepted (ds : string) (c : ascii) (tail : string) :
  ds = String c tail ->
  Ascii.eqb c "0" = false \/ ds = "0" ->
  Ascii.eqb c "0" && negb (all_zeros ds) = false.
Proof.
  intros Hds [Hc|H0].
  - now rewrite Hc.
  - rewrite H0 in *. injection Hds as <- <-. reflexivity.
Qed.

(** [ast.literal_eval] reads an integer literal that [str] wrote. *)
Lemma py_int_literal_str_int (z : Z) (rest : string) :
  starts_with_digit rest = false ->
  py_int_literal (str_int z ++ rest) = Some (z, rest).
Proof.
  intro Hrest.
  destruct (str_int_shape z) as (ds & c & tail & Hstr & Hds & Hc & Hall & Hval & Hcan).
  pose proof (@canonical_digits_accepted ds c tail Hds Hcan) as Hok.
  pose proof (@span_digits_app ds rest Hall Hrest) as Hspan.
  destruct (@digit_is_no_sign c Hc) as [Hm Hp].
  rewrite Hstr. unfold py_int_literal. subst ds.
  destruct (Z.ltb_spec z 0) as [Hneg|Hpos].
  - change (("-" ++ String c tail) ++ rest) with (String "-" (String c tail ++ rest)).
    cbn [expect]. change (Ascii.eqb "-" "-") with true. cbv iota.
    change (String c tail ++ rest) with (String c (tail ++ rest)) at 1.
    rewrite (@skip_py_space_digit c (tail ++ rest) Hc).
    change (String c (tail ++ rest)) with (String c tail ++ rest).
    rewrite Hspan, Hok, Hval. f_equal. f_equal. lia.
  - change (("" ++ String c tail) ++ rest) with (String c (tail ++ rest)).
    cbn [expect]. rewrite Hm, Hp.
    change (String c (tail ++ rest)) with (String c tail ++ rest).
    rewrite Hspan, Hok, Hval. f_equal. f_equal. lia.
Qed.

(** The first character of [str(z)] is a digit or the minus sign. *)
Lemma str_int_head (z : Z) (rest : string) :
  exists c t, str_int z ++ rest = String c t
              /\ (is_digit c = true \/ c = "-"%char).
Proof.
  destruct (str_int_shape z) as (ds & c & tail & Hstr & Hds & Hc & _).
  rewrite Hstr, Hds. destruct (z <? 0)%Z; simpl; eauto.
Qed.

Lemma skip_py_space_str_int (z : Z) (rest : string) :
  skip_py_space (str_int z ++ rest) = str_int z ++ rest.
Proof.
  destruct (str_int_head z rest) as (c & t & -> & [Hc| ->]).
  - now apply skip_py_space_digit.
  - reflexivity.
Qed.

Lemma expect_str_int (z : Z) (rest : string) :
  expect ")" (str_int z ++ rest) = None.
Proof.
  destruct (str_int_head z rest) as (c & t & -> & [Hc| ->]).
  - destruct (@digit_is_no_paren c Hc) as [Hp _].
    cbn [expect]. now rewrite Hp.
  - reflexivity.
Qed.

(** [ast.literal_eval(str(k))] is the tuple [k]. *)
Lemma literal_eval_str_location (k : location) :
  literal_eval (str_location k) = Some [fst k; snd k].
Proof.
  destruct k as [r c]. unfold str_location, literal_eval. cbn [fst snd].
  change (lstrip_blank ("(" ++ str_int r ++ ", " ++ str_int c ++ ")"))
    with ("(" ++ str_int r ++ ", " ++ str_int c ++ ")").
  change (expect "(" ("(" ++ str_int r ++ ", " ++ str_int c ++ ")"))
    with (Some (str_int r ++ ", " ++ str_int c ++ ")")).
  cbv beta iota zeta. rewrite skip_py_space_str_int, expect_str_int.
  rewrite py_int_literal_str_int by reflexivity.
  change (skip_py_space (", " ++ str_int c ++ ")"))
    with (String "," (String " " (str_int c ++ ")"))).
  change (expect "," (String "," (String " " (str_int c ++ ")"))))
    with (Some (String " " (str_int c ++ ")"))).
  cbv beta iota.
  change (String.length (", " ++ str_int c ++ ")"))
    with (S (S (String.length (str_int c ++ ")")))).
  cbn [tuple_items].
  change (skip_py_space (", " ++ str_int c ++ ")"))
    with (String "," (String " " (str_int c ++ ")"))).
  cbn [expect]. change (Ascii.eqb ")" ",") with false.
  change (Ascii.eqb "," ",") with true. cbv iota.
  change (skip_py_space (String " " (str_int c ++ ")")))
    with (skip_py_space (str_int c ++ ")")).
  rewrite skip_py_space_str_int, expect_str_int.
  rewrite py_int_literal_str_int by reflexivity.
  reflexivity.
Qed.

Lemma str_location_injective (k k' : location) :
  str_location k = str_location k' -> k = k'.
Proof.
  intro H. apply (f_equal literal_eval) in H.
  rewrite !literal_eval_str_location in H.
  destruct k, k'. simpl in H. congruence.
Qed.

End TextFacts.

(* ================================================================= *)
(** ** The wire format: JSON *)

Module JsonFacts.
Import Text Json TextFacts.

(** What [scan_string] does with a character that needs no escape. *)
Lemma scan_string_plain (c : ascii) (r : string) :
  Ascii.eqb c dquote = false ->
  Ascii.eqb c backslash = false ->
  (nat_of_ascii c <? 32)%nat = false ->
  scan_string (String c r)
  = match scan_string r with
    | Some (body, rest) => Some (String c body, rest)
    | None => None
    end.
Proof. intros H1 H2 H3. cbn [scan_string]. now rewrite H1, H2, H3. Qed.

(** What it does with a [\u00xy] escape. *)
Lemma scan_string_u00 (h1 h2 : ascii) (r : string) :
  scan_string
    (String backslash (String "u" (String "0" (String "0" (String h1 (String h2 r))))))
  = match hex4 "0" "0" h1 h2 with
    | Some n =>
        if (n <? 256)%nat then
          match scan_string r with
          | Some (body, rest) => Some (String (ascii_of_nat n) body, rest)
          | None => None
          end
        else None
    | None => None
    end.
Proof. reflexivity. Qed.

Lemma hex_value_hex_digit (k : nat) :
  (k < 16)%nat -> hex_value (hex_digit k) = Some k.
Proof.
  intro H. do 16 (destruct k as [|k]; [reflexivity|]). lia.
Qed.

Lemma hex4_of_code (n : nat) :
  (n < 256)%nat ->
  hex4 "0" "0" (hex_digit (n / 16)) (hex_digit (n mod 16)) = Some n.
Proof.
  intro H. unfold hex4.
  change (hex_value "0") with (Some O).
  rewrite !hex_value_hex_digit.
  - f_equal. pose proof (Nat.div_mod_eq n 16). lia.
  - apply Nat.mod_upper_bound. discriminate.
  - apply Nat.Div0.div_lt_upper_bound. exact H.
Qed.

Lemma ascii_of_code (c : ascii) (n : nat) :
  nat_of_ascii c = n -> c = ascii_of_nat n.
Proof. intros <-. now rewrite ascii_nat_embedding. Qed.

(** Scanning the escaped form of a character gives the character back. *)
Lemma scan_escape_char (c : ascii) (r body rest : string) :
  scan_string r = Some (body, rest) ->
  scan_string (escape_char c ++ r) = Some (String c body, rest).
Proof.
  intro H. unfold escape_char.
  destruct (Ascii.eqb c dquote) eqn:E1.
  { apply Ascii.eqb_eq in E1. subst c. cbn. now rewrite H. }
  destruct (Ascii.eqb c backslash) eqn:E2.
  { apply Ascii.eqb_eq in E2. subst c. cbn. now rewrite H. }
  destruct (Nat.eqb_spec (nat_of_ascii c) 10) as [E|_].
  { apply ascii_of_code in E. subst c. cbn. now rewrite H. }
  destruct (Nat.eqb_spec (nat_of_ascii c) 13) as [E|_].
  { apply ascii_of_code in E. subst c. cbn. now rewrite H. }
  destruct (Nat.eqb_spec (nat_of_ascii c) 9) as [E|_].
  { apply ascii_of_code in E. subst c. cbn. now rewrite H. }
  destruct (Nat.eqb_spec (nat_of_ascii c) 8) as [E|_].
  { apply ascii_of_code in E. subst c. cbn. now rewrite H. }
  destruct (Nat.eqb_spec (nat_of_ascii c) 12) as [E|_].
  { apply ascii_of_code in E. subst c. cbn. now rewrite H. }
  destruct ((32 <=? nat_of_ascii c)%nat && (nat_of_ascii c <=? 126)%nat) eqn:E3.
  - apply andb_true_iff in E3 as [Hlo _]. apply Nat.leb_le in Hlo.
    cbn [append]. rewrite scan_string_plain, H; try assumption; [reflexivity|].
    apply Nat.ltb_ge. exact Hlo.
  - cbn [append]. rewrite scan_string_u00.
    rewrite hex4_of_code by apply nat_ascii_bounded.
    replace (nat_of_ascii c <? 256)%nat with true
      by (symmetry; apply Nat.ltb_lt, nat_ascii_bounded).
    now rewrite H, ascii_nat_embedding.
Qed.

(** [scan_string] reads back what [quote] wrote, for every string. *)
Lemma scan_string_escape (s rest : string) :
  scan_string (escape s ++ String dquote rest) = Some (s, rest).
Proof.
  induction s as [|c s IH]; [reflexivity|].
  cbn [escape]. rewrite append_assoc. now apply scan_escape_char.
Qed.

Lemma quote_append (s rest : string) :
  quote s ++ rest = String dquote (escape s ++ String dquote rest).
Proof. unfold quote. cbn [append]. now rewrite append_assoc. Qed.

Lemma number_stop_no_digit (rest : string) :
  number_stop rest = true -> starts_with_digit rest = false.
Proof.
  destruct rest as [|c r]; [reflexivity|]. cbn.
  destruct (is_digit c); [discriminate | reflexivity].
Qed.

Lemma frac_part_stop (rest : string) :
  number_stop rest = true -> frac_part rest = ("", rest).
Proof.
  destruct rest as [|c r]; [reflexivity|]. unfold frac_part, number_stop, expect.
  rewrite (Ascii.eqb_sym "." c).
  destruct (is_digit c), (Ascii.eqb c "."); try discriminate; reflexivity.
Qed.

Lemma exp_part_stop (rest : string) :
  number_stop rest = true -> exp_part rest = ("", rest).
Proof.
  destruct rest as [|c r]; [reflexivity|]. unfold exp_part, number_stop.
  destruct (is_digit c), (Ascii.eqb c "."), (Ascii.eqb c "e"), (Ascii.eqb c "E");
    try discriminate; reflexivity.
Qed.

Lemma int_part_canonical (ds : string) (c : ascii) (tail rest : string) :
  ds = String c tail ->
  is_digit c = true ->
  all_digits ds = true ->
  Ascii.eqb c "0" = false \/ ds = "0" ->
  starts_with_digit rest = false ->
  int_part (ds ++ rest) = Some (ds, rest).
Proof.
  intros Hds Hc Hall Hcan Hrest.
  pose proof (@span_digits_app ds rest Hall Hrest) as Hspan.
  subst ds. cbn [append int_part].
  destruct Hcan as [Hz|H0].
  - rewrite Hz, Hc.
    change (String c (tail ++ rest)) with (String c tail ++ rest).
    now rewrite Hspan.
  - injection H0 as -> ->. reflexivity.
Qed.

(** [scan_number] reads an integer that [str] wrote. *)
Lemma scan_number_str_int (z : Z) (rest : string) :
  number_stop rest = true ->
  scan_number (str_int z ++ rest) = Some (Int z, rest).
Proof.
  intro Hstop.
  destruct (str_int_shape z) as (ds & c & tail & Hstr & Hds & Hc & Hall & Hval & Hcan).
  pose proof (@int_part_canonical ds c tail rest Hds Hc Hall Hcan
                (number_stop_no_digit _ Hstop)) as Hint.
  destruct (@digit_is_no_sign c Hc) as [Hm _].
  rewrite Hstr. unfold scan_number.
  destruct (Z.ltb_spec z 0) as [Hneg|Hpos].
  - change (("-" ++ ds) ++ rest) with (String "-" (ds ++ rest)).
    cbn [expect]. change (Ascii.eqb "-" "-") with true. cbv iota.
    rewrite Hint, (frac_part_stop _ Hstop), (exp_part_stop _ Hstop).
    cbn [String.eqb andb]. rewrite Hval. f_equal. f_equal. f_equal. lia.
  - change (("" ++ ds) ++ rest) with (ds ++ rest).
    replace (expect "-" (ds ++ rest)) with (@None string)
      by (subst ds; cbn [append expect]; now rewrite Hm).
    rewrite Hint, (frac_part_stop _ Hstop), (exp_part_stop _ Hstop).
    cbn [String.eqb andb]. rewrite Hval. f_equal. f_equal. f_equal. lia.
Qed.

(** A digit, and a minus sign before a digit, start a number and nothing
    else. *)
Lemma parse_value_digit (n : nat) (c : ascii) (t : string) :
  is_digit c = true ->
  parse_value (S n) (String c t) = scan_number (String c t).
Proof. intro H. ascii_cases c; try discriminate H; reflexivity. Qed.

Lemma parse_value_minus_digit (n : nat) (c : ascii) (t : string) :
  is_digit c = true ->
  parse_value (S n) (String "-" (String c t)) = scan_number (String "-" (String c t)).
Proof. intro H. ascii_cases c; try discriminate H; reflexivity. Qed.

Lemma digit_is_no_ws (c : ascii) : is_digit c = true -> is_ws c = false.
Proof. intro H. ascii_cases c; try discriminate H; reflexivity. Qed.

Lemma digit_is_no_bracket (c : ascii) :
  is_digit c = true -> Ascii.eqb "]" c = false.
Proof. intro H. ascii_cases c; try discriminate H; reflexivity. Qed.

(** The start of [str(z)] followed by [rest], spelled out. *)
Lemma str_int_cases (z : Z) (rest : string) :
  exists c t, is_digit c = true
    /\ (str_int z ++ rest = String c t
        \/ str_int z ++ rest = String "-" (String c t)).
Proof.
  destruct (str_int_shape z) as (ds & c & tail & Hstr & Hds & Hc & _).
  exists c, (tail ++ rest). split; [exact Hc|].
  rewrite Hstr, Hds. destruct (z <? 0)%Z; [right | left]; reflexivity.
Qed.

Lemma parse_value_str_int (n : nat) (z : Z) (rest : string) :
  number_stop rest = true ->
  parse_value (S n) (str_int z ++ rest) = Some (Int z, rest).
Proof.
  intro Hstop. rewrite <- (scan_number_str_int z rest Hstop).
  destruct (str_int_cases z rest) as (c & t & Hc & [-> | ->]).
  - now apply parse_value_digit.
  - now apply parse_value_minus_digit.
Qed.

Lemma skip_ws_str_int (z : Z) (rest : string) :
  skip_ws (str_int z ++ rest) = str_int z ++ rest.
Proof.
  destruct (str_int_cases z rest) as (c & t & Hc & [-> | ->]).
  - cbn [skip_ws]. now rewrite digit_is_no_ws.
  - reflexivity.
Qed.

Lemma expect_bracket_str_int (z : Z) (rest : string) :
  expect "]" (str_int z ++ rest) = None.
Proof.
  destruct (str_int_cases z rest) as (c & t & Hc & [-> | ->]).
  - cbn [expect]. now rewrite digit_is_no_bracket.
  - reflexivity.
Qed.

(** One step of each scanner. *)
Lemma parse_elements_S (n : nat) (s : string) :
  parse_elements (S n) s
  = match parse_value n s with
    | Some (v, r) =>
        match expect "," (skip_ws r) with
        | Some r' =>
            match parse_elements n (skip_ws r') with
            | Some (vs, rest) => Some (v :: vs, rest)
            | None => None
            end
        | None =>
            match expect "]" (skip_ws r) with
            | Some r' => Some ([v], r')
            | None => None
            end
        end
    | None => None
    end.
Proof. reflexivity. Qed.

Lemma parse_members_quote (n : nat) (k rest : string) :
  parse_members (S n) (String dquote (escape k ++ String dquote rest))
  = match expect ":" (skip_ws rest) with
    | None => None
    | Some r2 =>
        match parse_value n (skip_ws r2) with
        | None => None
        | Some (v, r3) =>
            match expect "," (skip_ws r3) with
            | Some r4 =>
                match parse_members n (skip_ws r4) with
                | Some (kvs, rest') => Some ((k, v) :: kvs, rest')
                | None => None
                end
            | None =>
                match expect "}" (skip_ws r3) with
                | Some r4 => Some ([(k, v)], r4)
                | None => None
                end
            end
        end
    end.
Proof.
  change (parse_members (S n) (String dquote (escape k ++ String dquote rest)))
    with (match scan_string (escape k ++ String dquote rest) with
          | None => None
          | Some (k, r1) =>
              match expect ":" (skip_ws r1) with
              | None => None
              | Some r2 =>
                  match parse_value n (skip_ws r2) with
                  | None => None
                  | Some (v, r3) =>
                      match expect "," (skip_ws r3) with
                      | Some r4 =>
                          match parse_members n (skip_ws r4) with
                          | Some (kvs, rest') => Some ((k, v) :: kvs, rest')
                          | None => None
                          end
                      | None =>
                          match expect "}" (skip_ws r3) with
                          | Some r4 => Some ([(k, v)], r4)
                          | None => None
                          end
                      end
                  end
              end
          end).
  now rewrite scan_string_escape.
Qed.

Lemma parse_value_bracket (n : nat) (r : string) :
  parse_value (S n) (String "[" r)
  = match expect "]" (skip_ws r) with
    | Some r' => Some (Arr [], r')
    | None =>
        match parse_elements n (skip_ws r) with
        | Some (vs, rest) => Some (Arr vs, rest)
        | None => None
        end
    end.
Proof. reflexivity. Qed.

Lemma parse_value_brace (n : nat) (r : string) :
  parse_value (S n) (String "{" r)
  = match expect "}" (skip_ws r) with
    | Some r' => Some (Obj [], r')
    | None =>
        match parse_members n (skip_ws r) with
        | Some (kvs, rest) => Some (Obj (Py.of_items kvs), rest)
        | None => None
        end
    end.
Proof. reflexivity. Qed.

Lemma str_int_length (z : Z) : (1 <= String.length (str_int z))%nat.
Proof.
  destruct (str_int_shape z) as (ds & c & tail & Hstr & Hds & _).
  rewrite Hstr, Hds, length_append. simpl. lia.
Qed.

Lemma join_cons (p q : string) (ps : list string) :
  join (p :: q :: ps) = p ++ ", " ++ join (q :: ps).
Proof. reflexivity. Qed.

Lemma append_nil_r (s : string) : s ++ "" = s.
Proof. induction s as [|c s IH]; simpl; [reflexivity | now rewrite IH]. Qed.

(** The elements of an array of integers, up to the closing bracket. *)
Lemma parse_elements_ints (l : list Z) (n : nat) (rest : string) :
  l <> [] ->
  (String.length (join (map str_int l)) < n)%nat ->
  parse_elements n (join (map str_int l) ++ String "]" rest)
  = Some (map Int l, rest).
Proof.
  revert n. induction l as [|z l IH]; intros n Hne Hlen; [congruence|].
  destruct l as [|z' l'].
  - cbn [map join] in *.
    pose proof (str_int_length z).
    destruct n as [|[|n]]; try lia.
    rewrite parse_elements_S.
    rewrite parse_value_str_int by reflexivity.
    reflexivity.
  - cbn [map] in Hlen |- *. rewrite join_cons in Hlen |- *.
    rewrite !length_append in Hlen. cbn [String.length] in Hlen.
    pose proof (str_int_length z).
    destruct n as [|[|n]]; try lia.
    rewrite !append_assoc.
    rewrite parse_elements_S.
    rewrite parse_value_str_int by reflexivity.
    change (skip_ws (", " ++ join (str_int z' :: map str_int l') ++ String "]" rest))
      with (String "," (String " " (join (str_int z' :: map str_int l') ++ String "]" rest))).
    cbn [expect]. change (Ascii.eqb "," ",") with true. cbv iota.
    change (skip_ws (String " " (join (str_int z' :: map str_int l') ++ String "]" rest)))
      with (skip_ws (join (str_int z' :: map str_int l') ++ String "]" rest)).
    assert (Hskip : skip_ws (join (str_int z' :: map str_int l') ++ String "]" rest)
                    = join (str_int z' :: map str_int l') ++ String "]" rest).
    { destruct l' as [|z'' l''].
      - apply skip_ws_str_int.
      - cbn [map]. rewrite join_cons, append_assoc. apply skip_ws_str_int. }
    rewrite Hskip.
    change (str_int z' :: map str_int l') with (map str_int (z' :: l')).
    rewrite IH; [reflexivity | discriminate | cbn [map]; lia].
Qed.

Lemma dumps_int_array (l : list Z) :
  dumps (Arr (map Int l)) = "[" ++ join (map str_int l) ++ "]".
Proof. cbn [dumps]. now rewrite map_map. Qed.

(** An array of integers, as [dumps] writes it. *)
Lemma parse_value_int_array (l : list Z) (n : nat) (rest : string) :
  (String.length (dumps (Arr (map Int l))) <= n)%nat ->
  parse_value n (dumps (Arr (map Int l)) ++ rest) = Some (Arr (map Int l), rest).
Proof.
  rewrite dumps_int_array. intro Hlen.
  rewrite !length_append in Hlen. cbn [String.length] in Hlen.
  destruct n as [|n]; [lia|].
  change (("[" ++ join (map str_int l) ++ "]") ++ rest)
    with (String "[" ((join (map str_int l) ++ "]") ++ rest)).
  rewrite append_assoc.
  change ("]" ++ rest) with (String "]" rest).
  rewrite parse_value_bracket.
  destruct l as [|z l].
  - reflexivity.
  - assert (Hskip : skip_ws (join (map str_int (z :: l)) ++ String "]" rest)
                    = join (map str_int (z :: l)) ++ String "]" rest).
    { destruct l as [|z' l'].
      - apply skip_ws_str_int.
      - cbn [map]. rewrite join_cons, append_assoc. apply skip_ws_str_int. }
    assert (Hexp : expect "]" (join (map str_int (z :: l)) ++ String "]" rest) = None).
    { destruct l as [|z' l'].
      - apply expect_bracket_str_int.
      - cbn [map]. rewrite join_cons, append_assoc. apply expect_bracket_str_int. }
    rewrite Hskip, Hexp.
    rewrite parse_elements_ints; [reflexivity | discriminate | lia].
Qed.

Lemma members_start (m : list (string * list Z)) (rest : string) :
  m <> [] ->
  exists t, join (map wire_member m) ++ rest = String dquote t.
Proof.
  destruct m as [|kv [|kv' m']]; [congruence | |]; intros _.
  - cbn [map join]. unfold wire_member. rewrite append_assoc, quote_append. eauto.
  - cbn [map]. rewrite join_cons. unfold wire_member at 1.
    rewrite !append_assoc, quote_append. eauto.
Qed.

Lemma skip_ws_members (m : list (string * list Z)) (rest : string) :
  m <> [] ->
  skip_ws (join (map wire_member m) ++ rest) = join (map wire_member m) ++ rest
  /\ expect "}" (join (map wire_member m) ++ rest) = None.
Proof.
  intro Hne. destruct (members_start rest Hne) as [t ->]. split; reflexivity.
Qed.

(** The members of the wire document, up to the closing brace. *)
Lemma parse_members_wire (m : list (string * list Z)) (n : nat) (rest : string) :
  m <> [] ->
  (String.length (join (map wire_member m)) < n)%nat ->
  parse_members n (join (map wire_member m) ++ String "}" rest)
  = Some (map wire_value m, rest).
Proof.
  revert n. induction m as [|kv m IH]; intros n Hne Hlen; [congruence|].
  destruct n as [|n]; [lia|].
  destruct m as [|kv' m'].
  - cbn [map join] in *. unfold wire_member in *.
    rewrite !length_append in Hlen. cbn [String.length] in Hlen.
    rewrite !append_assoc, quote_append.
    rewrite parse_members_quote.
    change (skip_ws (": " ++ dumps (Arr (map Int (snd kv))) ++ String "}" rest))
      with (String ":" (String " " (dumps (Arr (map Int (snd kv))) ++ String "}" rest))).
    cbn [expect]. change (Ascii.eqb ":" ":") with true. cbv iota.
    rewrite dumps_int_array at 1.
    change (skip_ws (String " " (("[" ++ join (map str_int (snd kv)) ++ "]")
                                  ++ String "}" rest)))
      with (("[" ++ join (map str_int (snd kv)) ++ "]") ++ String "}" rest).
    rewrite <- dumps_int_array.
    rewrite parse_value_int_array by lia.
    reflexivity.
  - cbn [map] in *. rewrite join_cons in *. unfold wire_member at 1 in Hlen.
    unfold wire_member at 1.
    rewrite !length_append in Hlen. cbn [String.length] in Hlen.
    rewrite !append_assoc, quote_append.
    rewrite parse_members_quote.
    set (tail := ", " ++ join (wire_member kv' :: map wire_member m') ++ String "}" rest).
    change (skip_ws (": " ++ dumps (Arr (map Int (snd kv))) ++ tail))
      with (String ":" (String " " (dumps (Arr (map Int (snd kv))) ++ tail))).
    cbn [expect]. change (Ascii.eqb ":" ":") with true. cbv iota.
    rewrite dumps_int_array at 1.
    change (skip_ws (String " " (("[" ++ join (map str_int (snd kv)) ++ "]") ++ tail)))
      with (("[" ++ join (map str_int (snd kv)) ++ "]") ++ tail).
    rewrite <- dumps_int_array.
    rewrite parse_value_int_array by lia.
    subst tail.
    change (skip_ws (", " ++ join (wire_member kv' :: map wire_member m') ++ String "}" rest))
      with (String "," (String " " (join (wire_member kv' :: map wire_member m')
                                      ++ String "}" rest))).
    cbn [expect]. change (Ascii.eqb "," ",") with true. cbv iota.
    change (skip_ws (String " " (join (wire_member kv' :: map wire_member m')
                                   ++ String "}" rest)))
      with (skip_ws (join (wire_member kv' :: map wire_member m') ++ String "}" rest)).
    change (wire_member kv' :: map wire_member m') with (map wire_member (kv' :: m')).
    destruct (@skip_ws_members (kv' :: m') (String "}" rest)) as [Hskip _];
      [discriminate|].
    rewrite Hskip, IH; [reflexivity | discriminate | cbn [map]; lia].
Qed.

Lemma dumps_wire_object (m : list (string * list Z)) :
  dumps (Obj (map wire_value m)) = "{" ++ join (map wire_member m) ++ "}".
Proof.
  cbn [dumps]. rewrite map_map. reflexivity.
Qed.

(** [loads] reads back an object of integer arrays that [dumps] wrote. *)
Lemma loads_dumps_wire (m : list (string * list Z)) :
  loads (dumps (Obj (map wire_value m)))
  = Ok (Obj (Py.of_items (map wire_value m))).
Proof.
  rewrite dumps_wire_object. unfold loads.
  set (body := join (map wire_member m)).
  change (skip_ws ("{" ++ body ++ "}")) with (String "{" (body ++ "}")).
  cbn [Nat.mul]. rewrite length_append. cbn [String.length Nat.add].
  rewrite parse_value_brace.
  destruct m as [|kv m'].
  - reflexivity.
  - destruct (@skip_ws_members (kv :: m') "}") as [Hskip Hexp]; [discriminate|].
    fold body in Hskip, Hexp. rewrite Hskip, Hexp.
    subst body. rewrite parse_members_wire.
    + reflexivity.
    + discriminate.
    + rewrite length_append. lia.
Qed.

End JsonFacts.

(* ================================================================= *)
(** ** The wire format: from the engine to the server *)

Lemma NoDup_map_injective {A B : Type} (f : A -> B) (l : list A) :
  (forall x y, f x = f y -> x = y) -> NoDup l -> NoDup (map f l).
Proof.
  intros Hinj Hnd. induction Hnd as [|x l Hx Hnd IH]; simpl; constructor.
  - intro Hin. apply in_map_iff in Hin as (y & Hy & Hin).
    apply Hinj in Hy. now subst y.
  - exact IH.
Qed.

Lemma wire_members_nodup (colors : dict location (list Z)) :
  NoDup (Py.keys colors) ->
  NoDup (Py.keys (map Json.wire_value (wire_members colors))).
Proof.
  intro Hnd. unfold Py.keys, wire_members.
  replace (map fst (map Json.wire_value
             (map (fun kv : location * list Z =>
                     (Text.str_location (fst kv), snd kv)) colors)))
    with (map Text.str_location (map fst colors))
    by (rewrite !map_map; apply map_ext; reflexivity).
  apply NoDup_map_injective; [apply TextFacts.str_location_injective | exact Hnd].
Qed.

(** The members of the wire document when the locations are distinct. *)
Lemma wire_document_members (colors : dict location (list Z)) :
  NoDup (Py.keys colors) ->
  wire_document colors = Json.Obj (map Json.wire_value (wire_members colors)).
Proof.
  intro Hnd. unfold wire_document. f_equal.
  replace (map (fun kv : location * list Z =>
                  (Text.str_location (fst kv), Json.Arr (map Json.Int (snd kv))))
               colors)
    with (map Json.wire_value (wire_members colors))
    by (unfold wire_members; now rewrite map_map).
  apply of_items_nodup. now apply wire_members_nodup.
Qed.

Lemma eval_keys_wire (colors : dict location (list Z))
    (acc : dict (list Z) Json.value) :
  NoDup (Py.keys acc ++ Py.keys (Server.as_decoded colors))%list ->
  Server.eval_keys (map Json.wire_value (wire_members colors)) acc
  = Ok (acc ++ Server.as_decoded colors)%list.
Proof.
  revert acc. induction colors as [|[k rgb] colors IH]; intros acc Hnd.
  - simpl. now rewrite app_nil_r.
  - cbn [wire_members map Server.eval_keys Json.wire_value fst snd].
    rewrite TextFacts.literal_eval_str_location.
    cbn [Server.as_decoded map fst snd Py.keys] in Hnd.
    assert (Hfresh : ~ In [fst k; snd k] (Py.keys acc)).
    { apply NoDup_remove_2 in Hnd. intro Hin. apply Hnd.
      apply in_or_app. now left. }
    rewrite set_fresh by exact Hfresh.
    fold (wire_members colors). rewrite IH.
    + rewrite <- app_assoc. reflexivity.
    + unfold Py.keys in *. rewrite map_app, <- app_assoc. exact Hnd.
Qed.

Lemma as_decoded_nodup (colors : dict location (list Z)) :
  NoDup (Py.keys colors) -> NoDup (Py.keys (Server.as_decoded colors)).
Proof.
  intro Hnd. unfold Py.keys, Server.as_decoded.
  replace (map fst (map (fun kv : location * list Z =>
                           ([fst (fst kv); snd (fst kv)],
                            Json.Arr (map Json.Int (snd kv)))) colors))
    with (map (fun k : location => [fst k; snd k]) (map fst colors))
    by (rewrite !map_map; apply map_ext; reflexivity).
  apply NoDup_map_injective; [|exact Hnd].
  intros [r c] [r' c'] H. simpl in H. congruence.
Qed.

(** What the client sends for an assignment with distinct locations, the
    server decodes to the same assignment. *)
Lemma decode_dumps_wire_document (colors : dict location (list Z)) :
  NoDup (Py.keys colors) ->
  Server.decode (Json.dumps (wire_document colors))
  = Ok (Server.as_decoded colors).
Proof.
  intro Hnd. unfold Server.decode.
  rewrite wire_document_members by exact Hnd.
  rewrite JsonFacts.loads_dumps_wire.
  cbn [Py.bind].
  rewrite of_items_nodup by (now apply wire_members_nodup).
  apply (eval_keys_wire colors []). now apply as_decoded_nodup.
Qed.

Lemma loads_dumps_wire_document (colors : dict location (list Z)) :
  NoDup (Py.keys colors) ->
  Json.loads (Json.dumps (wire_document colors)) = Ok (wire_document colors).
Proof.
  intro Hnd. rewrite wire_document_members by exact Hnd.
  rewrite JsonFacts.loads_dumps_wire.
  now rewrite of_items_nodup by (now apply wire_members_nodup).
Qed.

(** The matrix assignments for a decoded assignment: one per entry, in
    order, none raising. *)
Lemma set_cells_as_decoded (colors : dict location (list Z)) (f : Server.frame) :
  Server.set_cells (Server.as_decoded colors) f
  = (Ok tt,
     Server.mkFrame (Server.color_map_str f)
       (Server.events f ++ Server.cells_of colors)%list).
Proof.
  revert f. induction colors as [|[[r c] rgb] colors IH]; intro f.
  - simpl. rewrite app_nil_r. now destruct f.
  - cbn [Server.as_decoded map Server.set_cells fst snd nth_error
         Server.tuple_of Server.cells_of].
    fold (Server.as_decoded colors). fold (Server.cells_of colors).
    rewrite IH. cbn [Server.record Server.color_map_str Server.events].
    now rewrite <- app_assoc.
Qed.

(** C5: for every Color Assignment, a dictionary with distinct locations as
    keys, what the client encodes the server decodes to the same locations,
    in the same order, each with the same integers; and a server that
    reads the payload in one chunk assigns exactly these colours to these
    cells and draws once. *)
Theorem wire_round_trip (colors : dict location (list Z)) :
  NoDup (Py.keys colors) ->
  let payload := Json.dumps (wire_document colors) in
  Server.decode payload = Ok (Server.as_decoded colors)
  /\ Server.start_listening [payload]
     = (Server.Awaiting_data,
        Server.mkFrame (Some (wire_document colors))
          ([Server.Log_connected; Server.Log_received_data;
            Server.Log_size_of (String.length payload)]
           ++ Server.cells_of colors ++ [Server.Draw])%list).
Proof.
  intros Hnd payload.
  split; [now apply decode_dumps_wire_document|].
  pose proof (@loads_dumps_wire_document colors Hnd) as Hloads.
  pose proof (@decode_dumps_wire_document colors Hnd) as Hdecode.
  unfold Server.decode in Hdecode. rewrite Hloads in Hdecode.
  fold payload in Hloads.
  assert (Hpayload : payload <> "").
  { unfold payload. rewrite wire_document_members by exact Hnd.
    rewrite JsonFacts.dumps_wire_object. discriminate. }
  unfold wire_document in Hdecode. cbn [Py.bind] in Hdecode.
  clearbody payload. destruct payload as [|c t]; [congruence|].
  unfold Server.start_listening. cbn [Server.read_loop].
  unfold Server.try_loads. rewrite Hloads.
  unfold Server.apply_update. cbn [Server.color_map_str Server.events Server.record].
  unfold wire_document at 1. rewrite Hdecode.
  rewrite set_cells_as_decoded.
  cbn [Server.record Server.color_map_str Server.events app].
  rewrite <- app_assoc. reflexivity.
Qed.

Lemma wire_round_trip_witness :
  let colors := [((0, 0)%Z, [255; 0; 0]%Z); ((3, 12)%Z, [1; 20; 255]%Z)] in
  NoDup (Py.keys colors)
  /\ Server.decode (Json.dumps (wire_document colors))
     = Ok [([0; 0]%Z, Json.Arr [Json.Int 255; Json.Int 0; Json.Int 0]);
           ([3; 12]%Z, Json.Arr [Json.Int 1; Json.Int 20; Json.Int 255])].
Proof.
  assert (Hnd : NoDup (Py.keys [((0, 0)%Z, [255; 0; 0]%Z);
                                ((3, 12)%Z, [1; 20; 255]%Z)])).
  { repeat constructor; simpl; intuition discriminate. }
  split; [exact Hnd|].
  exact (proj1 (@wire_round_trip _ Hnd)).
Defined.

(** ** The engine: the message sent at construction *)

Lemma NoDup_keys_set {K V : Type} `{Hashable K} (k : K) (v : V) (d : dict K V) :
  NoDup (Py.keys d) -> NoDup (Py.keys (Py.set k v d)).
Proof.
  induction d as [|[k' v'] d IH]; simpl; intro Hnd.
  - constructor; [intros [] | constructor].
  - inversion Hnd as [|? ? Hk' Hd]; subst.
    destruct (key_eqb_spec k k') as [->|Hne]; simpl.
    + constructor; assumption.
    + constructor; [|now apply IH].
      intro Hin. apply (in_keys_set k' k v d) in Hin as [->|Hin]; auto.
Qed.

Lemma NoDup_keys_fold_set {K V : Type} `{Hashable K} (x : V) (ks : list K)
    (d : dict K V) :
  NoDup (Py.keys d) ->
  NoDup (Py.keys (fold_left (fun d k => Py.set k x d) ks d)).
Proof.
  revert d. induction ks as [|k ks IH]; intros d Hnd; simpl; [exact Hnd|].
  apply IH. now apply NoDup_keys_set.
Qed.

Section Construction.
Variable get_cmap : string -> cmap_arg -> list Q.


End Construction.


(* ================================================================= *)
(** * Further properties *)

(** ** The server: its constructor *)

Module DevicesFacts.
Import Devices.

Lemma device_eqb_spec (a b : razer_device) : reflect (a = b) (device_eqb a b).
Proof.
  destruct a as [n s f], b as [n' s' f']. unfold device_eqb. simpl.
  destruct (String.eqb_spec n n'), (String.eqb_spec s s'), (Bool.eqb_spec f f');
    simpl; constructor; congruence.
Qed.

Lemma remove_in (d : razer_device) (l : list razer_device) :
  In d l -> exists l', remove d l = Ok l' /\ incl l' l.
Proof.
  induction l as [|x l IH]; intro Hin; [destruct Hin|]. simpl.
  destruct (device_eqb_spec d x) as [->|Hne].
  - exists l. split; [reflexivity | apply incl_tl, incl_refl].
  - destruct Hin as [->|Hin]; [congruence|].
    destruct (IH Hin) as (l' & -> & Hincl). simpl.
    exists (x :: l'). split; [reflexivity|].
    intros y [->|Hy]; [now left | right; auto].
Qed.

Lemma remove_fresh_prefix (x : razer_device) (pre tail : list razer_device) :
  ~ In x pre -> remove x (pre ++ x :: tail)%list = Ok (pre ++ tail)%list.
Proof.
  induction pre as [|p pre IH]; intro Hn; simpl.
  - destruct (device_eqb_spec x x); congruence.
  - destruct (device_eqb_spec x p) as [->|_]; [exfalso; apply Hn; now left|].
    rewrite IH by (intro H; apply Hn; now right). reflexivity.
Qed.

(** The loop goes through a run of devices with advanced effects without
    touching the list. *)
Lemma scan_devices_advanced (pre : list razer_device) :
  Forall (fun d => fx_advanced d = true) pre ->
  forall (fuel : nat) (seen rest : list razer_device)
         (last : option razer_device) (log : list init_event),
    scan_devices (List.length pre + fuel) (List.length seen)
      (seen ++ pre ++ rest)%list last log
    = scan_devices fuel (List.length seen + List.length pre)
        (seen ++ pre ++ rest)%list
        (fold_left (fun _ d => Some d) pre last) log.
Proof.
  induction 1 as [|d pre Hd Hpre IH]; intros fuel seen rest last log.
  - simpl. now rewrite Nat.add_0_r.
  - cbn [List.length Nat.add scan_devices].
    replace (nth_error (seen ++ (d :: pre) ++ rest)%list (List.length seen))
      with (Some d)
      by (symmetry; rewrite nth_error_app2, Nat.sub_diag by lia; reflexivity).
    rewrite Hd.
    specialize (IH fuel (seen ++ [d])%list rest (Some d) log).
    assert (Hlist : ((seen ++ [d]) ++ pre ++ rest)%list
                    = (seen ++ (d :: pre) ++ rest)%list)
      by (rewrite <- app_assoc; reflexivity).
    rewrite Hlist, length_app in IH. cbn [List.length] in IH.
    replace (S (List.length seen)) with (List.length seen + 1)%nat by lia.
    rewrite IH. cbn [fold_left]. f_equal. lia.
Qed.

(** X1: where no device lacks advanced effects the constructor keeps the list
    and holds on to its last device. *)
Theorem init_all_advanced (port : Z) (pre : list razer_device) (d : razer_device) :
  Forall (fun x => fx_advanced x = true) (pre ++ [d])%list ->
  init port (pre ++ [d])%list
  = Ok (mkServer port (pre ++ [d])%list d false
          [Log_found (List.length (pre ++ [d])%list)]).
Proof.
  intro Hall. unfold init.
  pose proof (@scan_devices_advanced (pre ++ [d])%list Hall 0%nat [] [] None
                [Log_found (List.length (pre ++ [d])%list)]) as Hscan.
  rewrite Nat.add_0_r, app_nil_r in Hscan.
  change (([] : list razer_device) ++ pre ++ [d])%list with (pre ++ [d])%list in Hscan.
  change (List.length ([] : list razer_device)) with O in Hscan.
  rewrite Hscan. cbn [scan_devices Py.bind].
  rewrite fold_left_app. reflexivity.
Qed.

Lemma init_all_advanced_witness :
  let a := mkDevice "BlackWidow" "PM01" true in
  let b := mkDevice "Mamba" "PM02" true in
  init 65432 [a; b] = Ok (mkServer 65432 [a; b] b false [Log_found 2]).
Proof.
  intros a b. apply (@init_all_advanced 65432%Z [a] b).
  repeat constructor.
Defined.

(** X2: a device without advanced effects, after devices that have them and
    followed by at most one more device: it is removed from the list, yet
    it is the device the server keeps; the device after it is never looked
    at and stays in the list. *)
Theorem init_keeps_removed_device (port : Z) (pre tail : list razer_device)
    (x : razer_device) :
  Forall (fun d => fx_advanced d = true) pre ->
  fx_advanced x = false ->
  ~ In x pre ->
  (List.length tail <= 1)%nat ->
  init port (pre ++ x :: tail)%list
  = Ok (mkServer port (pre ++ tail)%list x false
          [Log_found (List.length (pre ++ x :: tail)%list);
           Log_skipping (device_name x) (device_serial x)]).
Proof.
  intros Hpre Hx Hfresh Htail. unfold init.
  rewrite length_app. cbn [List.length].
  pose proof (@scan_devices_advanced pre Hpre (S (List.length tail)) []
                (x :: tail) None
                [Log_found (List.length pre + S (List.length tail))]) as Hscan.
  change (([] : list razer_device) ++ pre ++ x :: tail)%list
    with (pre ++ x :: tail)%list in Hscan.
  change (List.length ([] : list razer_device)) with O in Hscan.
  cbn [Nat.add] in Hscan. rewrite Hscan.
  cbn [scan_devices].
  replace (nth_error (pre ++ x :: tail)%list (List.length pre)) with (Some x)
    by (symmetry; rewrite nth_error_app2, Nat.sub_diag by lia; reflexivity).
  rewrite Hx, remove_fresh_prefix by exact Hfresh. cbn [Py.bind].
  assert (Hend : nth_error (pre ++ tail)%list (S (List.length pre)) = None).
  { apply nth_error_None. rewrite length_app. lia. }
  destruct (List.length tail) as [|n]; cbn [scan_devices]; [reflexivity|].
  rewrite Hend. reflexivity.
Qed.

Lemma init_keeps_removed_device_witness :
  let mouse := mkDevice "Mamba" "PM02" false in
  let mat := mkDevice "Firefly" "PM03" false in
  init 65432 [mouse; mat]
  = Ok (mkServer 65432 [mat] mouse false
          [Log_found 2; Log_skipping "Mamba" "PM02"]).
Proof.
  intros mouse mat.
  apply (@init_keeps_removed_device 65432%Z [] [mat] mouse);
    [constructor | reflexivity | intros [] | simpl; lia].
Defined.

(** The loop never fails and never invents a device. *)
Lemma scan_devices_ok (fuel : nat) :
  forall (i : nat) (devices : list razer_device)
         (last : option razer_device) (log : list init_event),
  exists devices' last' log',
    scan_devices fuel i devices last log = Ok (devices', last', log')
    /\ incl devices' devices
    /\ (last' = last \/ exists d, last' = Some d /\ In d devices)
    /\ (fuel <> O -> i < List.length devices -> last' <> None)%nat.
Proof.
  induction fuel as [|fuel IH]; intros i devices last log.
  - exists devices, last, log. simpl.
    repeat split; [apply incl_refl | now left | congruence].
  - cbn [scan_devices].
    destruct (nth_error devices i) as [d|] eqn:E.
    + assert (Hd : In d devices) by (eapply nth_error_In; exact E).
      destruct (fx_advanced d).
      * destruct (IH (S i) devices (Some d) log)
          as (devices' & last' & log' & -> & Hincl & Hlast & _).
        exists devices', last', log'.
        repeat split; [exact Hincl | right | intros _ _].
        -- destruct Hlast as [->|(d' & -> & Hd')]; eauto.
        -- destruct Hlast as [->|(d' & -> & Hd')]; discriminate.
      * destruct (remove_in _ _ Hd) as (l' & -> & Hl'). cbn [Py.bind].
        destruct (IH (S i) l' (Some d)
                    (log ++ [Log_skipping (device_name d) (device_serial d)])%list)
          as (devices' & last' & log' & -> & Hincl & Hlast & _).
        exists devices', last', log'.
        repeat split; [eapply incl_tran; eassumption | right | intros _ _].
        -- destruct Hlast as [->|(d' & -> & Hd')]; eauto.
        -- destruct Hlast as [->|(d' & -> & Hd')]; discriminate.
    + exists devices, last, log.
      repeat split; [apply incl_refl | now left | intros _ Hlt].
      apply nth_error_None in E. lia.
Qed.

(** X3: the constructor raises exactly when the manager found no device (the
    loop variable is then unbound); otherwise it returns a server on the
    given port with effect syncing switched off, and the device it keeps
    and the devices it lists are among those found. *)
Theorem init_raises_iff_no_device (p : Z) (found : list razer_device) :
  (found = [] -> init p found = Raise UnboundLocalError)
  /\ (found <> [] ->
      exists srv, init p found = Ok srv
                  /\ port srv = p
                  /\ sync_effects srv = false
                  /\ In (device srv) found
                  /\ incl (devices srv) found).
Proof.
  split; [intros ->; reflexivity|]. intro Hne. unfold init.
  destruct (scan_devices_ok (List.length found) 0 found None
              [Log_found (List.length found)])
    as (devices' & last' & log' & -> & Hincl & Hlast & Hsome).
  cbn [Py.bind].
  assert (Hlen : (0 < List.length found)%nat)
    by (destruct found; [congruence | simpl; lia]).
  destruct last' as [d|]; [|exfalso; apply Hsome; [lia | exact Hlen | reflexivity]].
  eexists. split; [reflexivity|]. cbn [device devices port sync_effects].
  split; [reflexivity|]. split; [reflexivity|].
  split; [|exact Hincl].
  destruct Hlast as [H|(d' & [= ->] & Hd')]; [discriminate | exact Hd'].
Qed.

Lemma init_raises_iff_no_device_witness :
  exists srv,
    init 65432 [mkDevice "BlackWidow" "PM01" true] = Ok srv
    /\ port srv = 65432%Z
    /\ sync_effects srv = false
    /\ In (device srv) [mkDevice "BlackWidow" "PM01" true]
    /\ incl (devices srv) [mkDevice "BlackWidow" "PM01" true].
Proof.
  apply (proj2 (init_raises_iff_no_device 65432%Z
                  [mkDevice "BlackWidow" "PM01" true])).
  discriminate.
Defined.

End DevicesFacts.

(** ** The engine: one step at a time *)

Section Steps.
Variable get_cmap : string -> cmap_arg -> list Q.
Variable np_sqrt : Q -> Q.

Lemma same_store_refl (s : HeatMapper) : same_store s s.
Proof. repeat split. Qed.

(** The refresh check either only stores the elapsed time, or resets: the
    palette may advance, then every location of the layout is reset and the
    clock restarted. *)
Lemma refresh_check_cases (env : release_env) (s s' : HeatMapper) :
  refresh_check get_cmap env s = Ok s' ->
  let s0 := set_elapsed_time (Np.sub (time_at_release env) (start_time s)) s in
  s' = s0
  \/ exists s1,
       (s1 = s0
        \/ exists name index,
             s1 = set_color_map name index s0
             /\ (index < List.length COLOR_MAPS)%nat
             /\ nth_error COLOR_MAPS index = Some name)
       /\ s' = set_start_time (time_at_restart env) (init_color_map get_cmap s1).
Proof.
  unfold refresh_check.
  cbn [refresh_interval elapsed_time set_elapsed_time change_heatmap_on_refresh].
  destruct (Np.Qlt_bool _ _); [|intros [= <-]; now left].
  intros H. right.
  destruct (change_heatmap_on_refresh s).
  - destruct (select_next_colormap _) as [s1|] eqn:E; simpl in H; [|discriminate].
    injection H as <-. exists s1. split; [|reflexivity]. right.
    apply select_next_colormap_fields in E as (name & index & -> & Hlt & Hnth).
    exists name, index. repeat split; assumption.
  - simpl in H. injection H as <-. eexists. split; [now left | reflexivity].
Qed.

Lemma select_next_colormap_ok (s : HeatMapper) :
  (color_map_index s < List.length COLOR_MAPS)%nat ->
  exists s', select_next_colormap s = Ok s'.
Proof.
  intro Hlt. unfold select_next_colormap.
  set (index := if (_ =? _)%nat then _ else _).
  assert (Hidx : (index < List.length COLOR_MAPS)%nat).
  { subst index. destruct (Nat.eqb_spec (color_map_index s)
                             (List.length COLOR_MAPS - 1)); simpl in *; lia. }
  destruct (nth_error COLOR_MAPS index) eqn:E; [eauto|].
  apply nth_error_None in E. lia.
Qed.

Lemma refresh_check_ok (env : release_env) (s : HeatMapper) :
  consistent s -> exists s', refresh_check get_cmap env s = Ok s'.
Proof.
  intros (Hlt & _). unfold refresh_check.
  cbn [refresh_interval elapsed_time set_elapsed_time change_heatmap_on_refresh].
  destruct (Np.Qlt_bool _ _); [|eauto].
  destruct (change_heatmap_on_refresh s); [|simpl; eauto].
  destruct (@select_next_colormap_ok
              (set_elapsed_time (Np.sub (time_at_release env) (start_time s)) s) Hlt)
    as [s1 ->].
  simpl. eauto.
Qed.

(** The debug keys change the palette, the enhancement flag and the
    console, nothing else. *)
Lemma debug_hooks_same_store (str_key : string) (s s' : HeatMapper) :
  debug_hooks str_key s = Ok s' -> same_store s s'.
Proof.
  unfold debug_hooks.
  set (s1 := if String.eqb str_key "Key.f7" then _ else s).
  assert (H1 : same_store s s1)
    by (subst s1; destruct (String.eqb _ _); repeat split).
  clearbody s1.
  destruct (String.eqb str_key "Key.f2").
  - destruct (select_next_colormap s1) as [s2|] eqn:E; simpl; [|discriminate].
    apply select_next_colormap_fields in E as (name & index & -> & _).
    intros [= <-]. destruct (String.eqb str_key "Key.f3"); exact H1.
  - simpl. intros [= <-]. destruct (String.eqb str_key "Key.f3"); exact H1.
Qed.

Lemma debug_hooks_ok (str_key : string) (s : HeatMapper) :
  (color_map_index s < List.length COLOR_MAPS)%nat ->
  exists s', debug_hooks str_key s = Ok s'.
Proof.
  intro Hlt. unfold debug_hooks.
  set (s1 := if String.eqb str_key "Key.f7" then _ else s).
  assert (H1 : (color_map_index s1 < List.length COLOR_MAPS)%nat)
    by (subst s1; destruct (String.eqb _ _); exact Hlt).
  clearbody s1.
  destruct (String.eqb str_key "Key.f2"); [|simpl; eauto].
  destruct (@select_next_colormap_ok s1 H1) as [s2 ->]. simpl. eauto.
Qed.

(** The steps of the key's own update, for a key of the layout. *)
Lemma record_key_steps (env : release_env) (key : string)
    (locations : list location) (s s' : HeatMapper) :
  Py.get (str_key_of key) (key_to_location_map s) = Some locations ->
  record_key get_cmap np_sqrt env key s = Ok s' ->
  exists c s1 s2 s3,
    Py.get (str_key_of key) (key_name_to_count s) = Some c
    /\ count_locations locations
         (set_key_name_to_count
            (Py.set (str_key_of key) (c + 1)%nat (key_name_to_count s)) s)
       = Ok s1
    /\ (if debug_mode s then debug_hooks (str_key_of key) s1 else Ok s1) = Ok s2
    /\ update_color_map get_cmap np_sqrt s2 = Ok s3
    /\ s' = send_colors_to_server (sendall_ok env) s3.
Proof.
  intros Hget. unfold record_key. rewrite Hget. unfold Py.getitem.
  destruct (Py.get (str_key_of key) (key_name_to_count s)) as [c|]; simpl;
    [|discriminate].
  destruct (count_locations locations _) as [s1|] eqn:E1; simpl; [|discriminate].
  assert (Hdm : debug_mode s1 = debug_mode s).
  { apply count_locations_fields in E1 as (d & -> & _). reflexivity. }
  rewrite Hdm.
  destruct (if debug_mode s then debug_hooks (str_key_of key) s1 else Ok s1)
    as [s2|] eqn:E2; simpl; [|discriminate].
  destruct (update_color_map get_cmap np_sqrt s2) as [s3|] eqn:E3; simpl;
    [|discriminate].
  intros [= <-]. exists c, s1, s2, s3. repeat split; assumption.
Qed.

End Steps.

(** ** The engine: counting *)

Lemma get_set_location {V : Type} (k k' : location) (v : V) (d : dict location V) :
  Py.get k (Py.set k' v d)
  = if location_eq_dec k k' then Some v else Py.get k d.
Proof.
  destruct (location_eq_dec k k') as [->|Hne].
  - apply get_set_same.
  - now apply get_set_other.
Qed.

(** After [count_locations], a counter has grown by the number of times its
    location occurs in the list. *)
Lemma count_locations_values (locations : list location) (s s' : HeatMapper) :
  count_locations locations s = Ok s' ->
  forall loc,
    Py.get loc (location_to_count s')
    = option_map (fun c => (c + count_occ location_eq_dec locations loc)%nat)
        (Py.get loc (location_to_count s)).
Proof.
  revert s. induction locations as [|l locations IH]; intros s H loc.
  - simpl in H. injection H as <-. simpl.
    destruct (Py.get loc (location_to_count s)); simpl; [f_equal; lia | reflexivity].
  - simpl in H. unfold count_location, Py.getitem in H.
    destruct (Py.get l (location_to_count s)) as [c|] eqn:E; simpl in H;
      [|discriminate].
    rewrite (IH _ H loc). cbn [location_to_count set_location_to_count].
    rewrite get_set_location. cbn [count_occ].
    destruct (location_eq_dec loc l) as [->|Hne].
    + rewrite E. destruct (location_eq_dec l l); [|congruence].
      simpl. f_equal. lia.
    + destruct (location_eq_dec l loc); [congruence|]. reflexivity.
Qed.

Lemma count_locations_ok (locations : list location) (s : HeatMapper) :
  (forall l, In l locations -> In l (Py.keys (location_to_count s))) ->
  exists s', count_locations locations s = Ok s'.
Proof.
  revert s. induction locations as [|l locations IH]; intros s Hin.
  - simpl. eauto.
  - simpl. unfold count_location, Py.getitem.
    assert (Hl : In l (Py.keys (location_to_count s))) by (apply Hin; now left).
    apply get_in_keys in Hl as [c ->]. simpl.
    apply IH. intros l' Hl'. cbn [location_to_count set_location_to_count].
    apply in_keys_set. right. apply Hin. now right.
Qed.

(** The cells of a key of the layout are locations of the layout. *)
Lemma get_layout_locations (k : string) (locations : list location)
    (m : dict string (list location)) :
  Py.get k m = Some locations ->
  In k (Py.keys m) /\ incl locations (layout_locations m).
Proof.
  unfold layout_locations, Py.keys.
  induction m as [|[k' locs] m IH]; simpl; [discriminate|].
  destruct (String.eqb k k') eqn:E.
  - intros [= ->]. apply String.eqb_eq in E. subst k'.
    split; [now left | apply incl_appl, incl_refl].
  - intro H. destruct (IH H) as [Hk Hincl].
    split; [now right | apply incl_appr, Hincl].
Qed.

Lemma NoDup_keys_fold_set_pairs {V W : Type} (f : location * W -> V)
    (pairs : list (location * W)) (d : dict location V) :
  NoDup (Py.keys d) ->
  NoDup (Py.keys (fold_left (fun colors lx => Py.set (fst lx) (f lx) colors)
                    pairs d)).
Proof.
  revert d. induction pairs as [|p pairs IH]; intros d Hnd; simpl; [exact Hnd|].
  apply IH. now apply NoDup_keys_set.
Qed.

Lemma get_fold_set_pairs {V W : Type} (f : location * W -> V)
    (pairs : list (location * W)) (d : dict location V) (k : location) (v : V) :
  Py.get k (fold_left (fun colors lx => Py.set (fst lx) (f lx) colors) pairs d)
  = Some v ->
  Py.get k d = Some v \/ exists lx, In lx pairs /\ v = f lx.
Proof.
  revert d. induction pairs as [|p pairs IH]; intros d H; simpl in H; [now left|].
  apply IH in H as [H|(lx & Hlx & ->)].
  - rewrite get_set_location in H.
    destruct (location_eq_dec k (fst p)).
    + injection H as <-. right. exists p. split; [now left | reflexivity].
    + now left.
  - right. exists lx. split; [now right | reflexivity].
Qed.

Section UpdateFacts.
Variable get_cmap : string -> cmap_arg -> list Q.
Variable np_sqrt : Q -> Q.

(** [__update_color_map] assigns colours and nothing else; a colour it
    leaves behind is an old one or a palette value. *)
Lemma update_color_map_fields (s s' : HeatMapper) :
  update_color_map get_cmap np_sqrt s = Ok s' ->
  exists d,
    s' = set_location_to_color d s
    /\ (forall k, In k (Py.keys (location_to_color s)) -> In k (Py.keys d))
    /\ (NoDup (Py.keys (location_to_color s)) -> NoDup (Py.keys d))
    /\ (forall k v, Py.get k d = Some v ->
          Py.get k (location_to_color s) = Some v
          \/ exists x, v = scale_rgb (get_cmap (color_map_name s) (CFloat x))).
Proof.
  unfold update_color_map.
  destruct (normalized_by_location np_sqrt s) as [pairs|]; simpl; [|discriminate].
  intros [= <-]. eexists. split; [reflexivity|]. split; [|split].
  - intros k Hk. apply in_keys_fold_set_pairs. now right.
  - apply NoDup_keys_fold_set_pairs.
  - intros k v Hget. apply get_fold_set_pairs in Hget as [H|(lx & _ & ->)];
      [now left | right; eauto].
Qed.

Lemma update_color_map_ok (s : HeatMapper) :
  location_to_count s <> [] ->
  exists s', update_color_map get_cmap np_sqrt s = Ok s'.
Proof.
  intro Hne. unfold update_color_map, normalized_by_location, normalized_counts.
  destruct (location_to_count s) as [|[k c] d]; [congruence|].
  destruct (enhance_lowkeys s); simpl; eauto.
Qed.

End UpdateFacts.

(** ** The engine: what a key release changes *)

Section ReleaseFacts.
Variable get_cmap : string -> cmap_arg -> list Q.
Variable np_sqrt : Q -> Q.

(** The fields after the key's own update, for a key of the layout. *)
Lemma record_key_fields (env : release_env) (key : string)
    (locations : list location) (s s' : HeatMapper) :
  Py.get (str_key_of key) (key_to_location_map s) = Some locations ->
  record_key get_cmap np_sqrt env key s = Ok s' ->
  exists c s1 s2,
    Py.get (str_key_of key) (key_name_to_count s) = Some c
    /\ key_name_to_count s'
       = Py.set (str_key_of key) (c + 1)%nat (key_name_to_count s)
    /\ count_locations locations
         (set_key_name_to_count
            (Py.set (str_key_of key) (c + 1)%nat (key_name_to_count s)) s)
       = Ok s1
    /\ location_to_count s' = location_to_count s1
    /\ (if debug_mode s then debug_hooks (str_key_of key) s1 else Ok s1) = Ok s2
    /\ update_color_map get_cmap np_sqrt s2 = Ok (set_location_to_color
                                                   (location_to_color s') s2)
    /\ sock s' = (sock s ++ [Json.dumps (wire_document (location_to_color s'))])%list
    /\ key_to_location_map s' = key_to_location_map s
    /\ debug_mode s' = debug_mode s
    /\ refresh_interval s' = refresh_interval s
    /\ change_heatmap_on_refresh s' = change_heatmap_on_refresh s
    /\ start_time s' = start_time s
    /\ elapsed_time s' = elapsed_time s
    /\ color_map_name s' = color_map_name s2
    /\ color_map_index s' = color_map_index s2
    /\ enhance_lowkeys s' = enhance_lowkeys s2.
Proof.
  intros Hget Hrec.
  eapply record_key_steps in Hrec; [|exact Hget].
  destruct Hrec as (c & s1 & s2 & s3 & Hc & H1 & H2 & H3 & ->).
  exists c, s1, s2. split; [exact Hc|].
  pose proof H1 as Hs1. apply count_locations_fields in Hs1 as (d & Hs1 & _).
  assert (Hstore : same_store s1 s2).
  { destruct (debug_mode s); [now apply debug_hooks_same_store in H2|].
    injection H2 as <-. apply same_store_refl. }
  destruct Hstore as (Hm & Hcnt & Hcol & Hkn & Hsock & Hdm & Hri & Hch & Hst & Het).
  pose proof H3 as Hs3. apply update_color_map_fields in Hs3 as (d' & -> & _).
  assert (Hproj : forall ok,
             location_to_color (send_colors_to_server ok (set_location_to_color d' s2))
             = d') by (intros []; reflexivity).
  rewrite Hproj. rewrite Hs1 in *.
  cbn [key_to_location_map location_to_count location_to_color key_name_to_count
       sock debug_mode refresh_interval change_heatmap_on_refresh start_time
       elapsed_time set_location_to_count set_key_name_to_count] in *.
  destruct (sendall_ok env);
    cbn [send_colors_to_server emit set_sock set_location_to_color
         key_to_location_map location_to_count location_to_color key_name_to_count
         sock debug_mode refresh_interval change_heatmap_on_refresh start_time
         elapsed_time color_map_name color_map_index enhance_lowkeys];
    rewrite ?Hkn, ?Hcnt, ?Hsock, ?Hm, ?Hdm, ?Hri, ?Hch, ?Hst, ?Het;
    repeat split; try reflexivity; try assumption.
Qed.

End ReleaseFacts.

Section ReleaseTheorems.
Variable get_cmap : string -> cmap_arg -> list Q.
Variable np_sqrt : Q -> Q.

(** The refresh check leaves the layout, the key-name counters, the socket
    and the settings alone. *)
Lemma refresh_check_frame (env : release_env) (s s' : HeatMapper) :
  refresh_check get_cmap env s = Ok s' ->
  key_to_location_map s' = key_to_location_map s
  /\ key_name_to_count s' = key_name_to_count s
  /\ sock s' = sock s
  /\ debug_mode s' = debug_mode s
  /\ refresh_interval s' = refresh_interval s
  /\ change_heatmap_on_refresh s' = change_heatmap_on_refresh s
  /\ enhance_lowkeys s' = enhance_lowkeys s
  /\ console s' = console s.
Proof.
  intro H. apply refresh_check_cases in H.
  destruct H as [->|(s1 & [->|(name & index & -> & _)] & ->)];
    rewrite ?init_color_map_eq; repeat split.
Qed.

(** X4: a release of a key of the layout that does not cross the refresh
    interval adds, to the counter of every location, the number of times
    the location occurs among the key's cells, and one to the key's own
    counter; no other key-name counter moves. *)
Theorem key_release_counts (env : release_env) (key : string)
    (locations : list location) (s s' : HeatMapper) :
  ~ (refresh_interval s < time_at_release env - start_time s)%Q ->
  Py.get (str_key_of key) (key_to_location_map s) = Some locations ->
  on_key_release get_cmap np_sqrt env key s = Ok s' ->
  (forall loc,
     Py.get loc (location_to_count s')
     = option_map (fun c => (c + count_occ location_eq_dec locations loc)%nat)
         (Py.get loc (location_to_count s)))
  /\ (forall k,
        Py.get k (key_name_to_count s')
        = if String.eqb k (str_key_of key)
          then option_map S (Py.get k (key_name_to_count s))
          else Py.get k (key_name_to_count s)).
Proof.
  intros Hno Hget Hrel.
  rewrite release_without_refresh in Hrel by exact Hno.
  eapply record_key_fields in Hrel; [|exact Hget].
  destruct Hrel as (c & s1 & s2 & Hc & Hkn & H1 & Hcnt & _).
  cbn [key_name_to_count set_elapsed_time] in Hc, Hkn.
  split.
  - intro loc. rewrite Hcnt.
    apply count_locations_values with (loc := loc) in H1. exact H1.
  - intro k. rewrite Hkn.
    destruct (String.eqb_spec k (str_key_of key)) as [->|Hne].
    + rewrite get_set_same, Hc. simpl. f_equal. lia.
    + now apply get_set_other.
Qed.

(** X5: a key release hands [sendall] one payload, the encoding of the Color
    Assignment it leaves, when the key is in the layout, and nothing when
    it is not, reset or no reset. *)
Theorem key_release_sends (env : release_env) (key : string) (s s' : HeatMapper) :
  on_key_release get_cmap np_sqrt env key s = Ok s' ->
  match Py.get (str_key_of key) (key_to_location_map s) with
  | Some _ =>
      sock s' = (sock s ++ [Json.dumps (wire_document (location_to_color s'))])%list
  | None => sock s' = sock s
  end.
Proof.
  unfold on_key_release.
  destruct (refresh_check get_cmap env s) as [s1|] eqn:E; simpl; [|discriminate].
  apply refresh_check_frame in E as (Hm & _ & Hsock & _).
  rewrite <- Hm, <- Hsock. intro Hrec.
  destruct (Py.get (str_key_of key) (key_to_location_map s1)) as [locations|] eqn:Hget.
  - eapply record_key_fields in Hrec; [|exact Hget].
    destruct Hrec as (c & s2 & s3 & _ & _ & _ & _ & _ & _ & Hs & _). exact Hs.
  - unfold record_key in Hrec. rewrite Hget in Hrec. now injection Hrec as <-.
Qed.

End ReleaseTheorems.

Lemma key_release_counts_witness :
  exists s0 s',
    init ramp_cmap quiet_init [("a", [(0, 0)%Z; (0, 1)%Z; (0, 0)%Z])] "hot"
      3600%Q false false false = Ok s0
    /\ on_key_release ramp_cmap floor_sqrt (at_time 1%Q) "A" s0 = Ok s'
    /\ Py.get ((0, 0)%Z : location) (location_to_count s') = Some 2%nat
    /\ Py.get ((0, 1)%Z : location) (location_to_count s') = Some 1%nat
    /\ Py.get "a" (key_name_to_count s') = Some 1%nat.
Proof.
  assert (H : exists s0 s',
             init ramp_cmap quiet_init [("a", [(0, 0)%Z; (0, 1)%Z; (0, 0)%Z])]
               "hot" 3600%Q false false false = Ok s0
             /\ on_key_release ramp_cmap floor_sqrt (at_time 1%Q) "A" s0 = Ok s'
             /\ ~ (refresh_interval s0 < time_at_release (at_time 1%Q)
                                         - start_time s0)%Q
             /\ Py.get (str_key_of "A") (key_to_location_map s0)
                = Some [(0, 0)%Z; (0, 1)%Z; (0, 0)%Z]
             /\ Py.get ((0, 0)%Z : location) (location_to_count s0) = Some O
             /\ Py.get ((0, 1)%Z : location) (location_to_count s0) = Some O
             /\ Py.get "a" (key_name_to_count s0) = Some O).
  { eexists _, _. split; [vm_compute; reflexivity|].
    split; [vm_compute; reflexivity|].
    split; [vm_compute; discriminate|]. repeat split. }
  destruct H as (s0 & s' & Hinit & Hrel & Hno & Hget & H00 & H01 & Ha).
  destruct (@key_release_counts ramp_cmap floor_sqrt (at_time 1%Q) "A" _ s0 s'
              Hno Hget Hrel) as [Hloc Hkey].
  exists s0, s'. split; [exact Hinit|]. split; [exact Hrel|].
  split; [rewrite Hloc, H00; reflexivity|].
  split; [rewrite Hloc, H01; reflexivity|].
  rewrite Hkey, Ha. reflexivity.
Defined.

Lemma key_release_sends_witness :
  exists s0 s',
    init ramp_cmap quiet_init layout_ab "hot" 3600%Q false false false = Ok s0
    /\ on_key_release ramp_cmap floor_sqrt (at_time 1%Q) "b" s0 = Ok s'
    /\ sock s' = (sock s0 ++ [Json.dumps (wire_document (location_to_color s'))])%list.
Proof.
  assert (H : exists s0 s',
             init ramp_cmap quiet_init layout_ab "hot" 3600%Q false false false
             = Ok s0
             /\ on_key_release ramp_cmap floor_sqrt (at_time 1%Q) "b" s0 = Ok s'
             /\ Py.get (str_key_of "b") (key_to_location_map s0) = Some [(0, 1)%Z]).
  { eexists _, _. split; [vm_compute; reflexivity|].
    split; [vm_compute; reflexivity|]. reflexivity. }
  destruct H as (s0 & s' & Hinit & Hrel & Hget).
  pose proof (@key_release_sends ramp_cmap floor_sqrt (at_time 1%Q) "b" s0 s' Hrel)
    as Hsend.
  rewrite Hget in Hsend.
  exists s0, s'. split; [exact Hinit|]. split; [exact Hrel|]. exact Hsend.
Defined.

(** ** The engine: every entry stays in place *)

Lemma in_keys_fold_items {K V : Type} `{Hashable K} (items acc : dict K V) (k : K) :
  In k (Py.keys (fold_left (fun d kv => Py.set (fst kv) (snd kv) d) items acc))
  <-> In k (Py.keys items) \/ In k (Py.keys acc).
Proof.
  revert acc. induction items as [|[k' v'] items IH]; intro acc; simpl; [tauto|].
  rewrite IH, in_keys_set. simpl. intuition.
Qed.

Lemma in_keys_of_items {K V : Type} `{Hashable K} (items : dict K V) (k : K) :
  In k (Py.keys (Py.of_items items)) <-> In k (Py.keys items).
Proof.
  unfold Py.of_items. rewrite in_keys_fold_items. simpl. tauto.
Qed.

Section Complete.
Variable get_cmap : string -> cmap_arg -> list Q.
Variable np_sqrt : Q -> Q.

Lemma complete_send_colors_to_server (ok : bool) (s : HeatMapper) :
  complete s -> complete (send_colors_to_server ok s).
Proof.
  intros (Hcount & Hcolor & Hkey & Hnd & Hsock).
  assert (Hnew : Forall snapshot_payload
                   (sock s ++ [Json.dumps (wire_document (location_to_color s))])%list).
  { apply Forall_app. split; [exact Hsock|].
    constructor; [|constructor]. exists (location_to_color s). now split. }
  unfold send_colors_to_server. destruct ok; repeat split; assumption.
Qed.

Lemma complete_init_color_map (s : HeatMapper) :
  (forall k, In k (Py.keys (key_to_location_map s)) ->
             In k (Py.keys (key_name_to_count s))) ->
  NoDup (Py.keys (location_to_color s)) ->
  Forall snapshot_payload (sock s) ->
  complete (init_color_map get_cmap s).
Proof.
  intros Hkey Hnd Hsock. rewrite init_color_map_eq.
  repeat split;
    cbn [set_location_to_color set_location_to_count location_to_count
         location_to_color key_to_location_map key_name_to_count sock];
    try assumption.
  - intros loc Hin. apply in_keys_fold_set. now left.
  - intros loc Hin. apply in_keys_fold_set. now left.
  - now apply NoDup_keys_fold_set.
Qed.

Lemma complete_refresh_check (env : release_env) (s s' : HeatMapper) :
  complete s -> refresh_check get_cmap env s = Ok s' -> complete s'.
Proof.
  intros Hs H. pose proof Hs as (_ & _ & Hkey & Hnd & Hsock).
  apply refresh_check_cases in H.
  destruct H as [->|(s1 & [->|(name & index & -> & _)] & ->)];
    [exact Hs | |];
    (assert (Hc : forall t s2, complete s2 -> complete (set_start_time t s2))
       by (intros t s2 H2; exact H2));
    apply Hc, complete_init_color_map; assumption.
Qed.

Lemma complete_record_key (env : release_env) (key : string) (s s' : HeatMapper) :
  complete s -> record_key get_cmap np_sqrt env key s = Ok s' -> complete s'.
Proof.
  intros Hs Hrec.
  destruct (Py.get (str_key_of key) (key_to_location_map s)) as [locations|] eqn:Hget.
  - eapply record_key_steps in Hrec; [|exact Hget].
    destruct Hrec as (c & s1 & s2 & s3 & Hc & H1 & H2 & H3 & ->).
    apply complete_send_colors_to_server.
    apply count_locations_fields in H1 as (d & -> & Hd).
    assert (Hstore : same_store
                       (set_location_to_count d
                          (set_key_name_to_count
                             (Py.set (str_key_of key) (c + 1)%nat
                                (key_name_to_count s)) s)) s2).
    { destruct (debug_mode s); [now apply debug_hooks_same_store in H2|].
      injection H2 as <-. apply same_store_refl. }
    destruct Hstore as (Hm & Hcnt & Hcol & Hkn & Hsk & _).
    apply update_color_map_fields in H3 as (d' & -> & Hin & Hnd' & _).
    destruct Hs as (Hcount & Hcolor & Hkey & Hnd & Hsock).
    cbn [set_location_to_count set_key_name_to_count key_to_location_map
         location_to_count location_to_color key_name_to_count sock] in *.
    repeat split;
      cbn [set_location_to_color key_to_location_map location_to_count
           location_to_color key_name_to_count sock];
      rewrite ?Hm, ?Hcnt, ?Hkn, ?Hsk.
    + intros loc Hloc. apply Hd, Hcount, Hloc.
    + intros loc Hloc. apply Hin. rewrite Hcol. apply Hcolor, Hloc.
    + intros k Hk. apply in_keys_set. right. apply Hkey, Hk.
    + apply Hnd'. rewrite Hcol. exact Hnd.
    + exact Hsock.
  - unfold record_key in Hrec. rewrite Hget in Hrec. now injection Hrec as <-.
Qed.

Lemma complete_init (env : init_env) (layout : dict string (list location))
    (color_map : string) (refresh : Q) (enhance change debug : bool)
    (s : HeatMapper) :
  init get_cmap env layout color_map refresh enhance change debug = Ok s ->
  complete s.
Proof.
  unfold init.
  destruct (list_index color_map COLOR_MAPS) as [index|]; simpl; [|discriminate].
  destruct (connect_ok env); [|discriminate].
  intros [= <-].
  apply complete_send_colors_to_server, complete_init_color_map;
    cbn [key_to_location_map key_name_to_count location_to_color sock].
  - intros k Hk. apply in_keys_of_items.
    unfold Py.keys in *. rewrite map_map. exact Hk.
  - constructor.
  - constructor.
Qed.

Lemma reachable_complete (s : HeatMapper) :
  reachable get_cmap np_sqrt s -> complete s.
Proof.
  induction 1 as [env layout cm refresh enhance change debug s Hinit
                 | env key s s' _ IH Hrel].
  - eapply complete_init; eassumption.
  - unfold on_key_release in Hrel.
    destruct (refresh_check get_cmap env s) as [s1|] eqn:E; simpl in Hrel;
      [|discriminate].
    eapply complete_record_key; [|eassumption].
    eapply complete_refresh_check; eassumption.
Qed.

(** X6: in every state the engine goes through, the Press Counters and the
    Color Assignment have an entry for exactly the locations of the layout,
    and every key name of the layout has its counter. *)
Theorem reachable_key_sets (s : HeatMapper) :
  reachable get_cmap np_sqrt s ->
  (forall loc, In loc (Py.keys (location_to_count s))
               <-> In loc (layout_locations (key_to_location_map s)))
  /\ (forall loc, In loc (Py.keys (location_to_color s))
                  <-> In loc (layout_locations (key_to_location_map s)))
  /\ (forall k, In k (Py.keys (key_to_location_map s)) ->
                In k (Py.keys (key_name_to_count s))).
Proof.
  intro Hr.
  assert (Hcons : consistent s) by (eapply reachable_consistent; eassumption).
  assert (Hcomp : complete s) by (eapply reachable_complete; eassumption).
  destruct Hcons as (_ & _ & Hc1 & Hc2). destruct Hcomp as (Hk1 & Hk2 & Hk3 & _).
  repeat split; auto.
Qed.

(** X7: with a layout that has at least one cell, a key release never raises,
    whatever the key, the clock and the socket do. *)
Theorem key_release_never_raises (env : release_env) (key : string)
    (s : HeatMapper) :
  reachable get_cmap np_sqrt s ->
  layout_locations (key_to_location_map s) <> [] ->
  exists s', on_key_release get_cmap np_sqrt env key s = Ok s'.
Proof.
  intros Hr Hne.
  assert (Hcons : consistent s) by (eapply reachable_consistent; eassumption).
  assert (Hcomp : complete s) by (eapply reachable_complete; eassumption).
  destruct (@refresh_check_ok get_cmap env s Hcons) as [s1 Hs1].
  assert (Hcons1 : consistent s1)
    by (eapply consistent_refresh_check; eassumption).
  assert (Hcomp1 : complete s1)
    by (eapply complete_refresh_check; eassumption).
  assert (Hmap : key_to_location_map s1 = key_to_location_map s)
    by (eapply refresh_check_layout; eassumption).
  unfold on_key_release. rewrite Hs1. cbn [Py.bind].
  rewrite <- Hmap in Hne. clear Hr Hcons Hcomp Hs1 Hmap s.
  destruct Hcons1 as (Hidx & _). destruct Hcomp1 as (Hcount & _ & Hkey & _).
  unfold record_key.
  destruct (Py.get (str_key_of key) (key_to_location_map s1)) as [locations|] eqn:Hget;
    [|eauto].
  apply get_layout_locations in Hget as [Hk Hincl].
  apply Hkey, get_in_keys in Hk as [c Hc]. unfold Py.getitem. rewrite Hc.
  cbn [Py.bind].
  set (sa := set_key_name_to_count _ s1).
  destruct (@count_locations_ok locations sa) as [sb Hsb].
  { intros l Hl. apply Hcount, Hincl, Hl. }
  rewrite Hsb. cbn [Py.bind].
  apply count_locations_fields in Hsb as (d & -> & Hd).
  cbn [debug_mode set_location_to_count].
  assert (Hdbg : exists s2,
             (if debug_mode sa
              then debug_hooks (str_key_of key) (set_location_to_count d sa)
              else Ok (set_location_to_count d sa)) = Ok s2
             /\ location_to_count s2 = d).
  { destruct (debug_mode sa).
    - destruct (@debug_hooks_ok (str_key_of key) (set_location_to_count d sa) Hidx)
        as [s2 Hs2].
      exists s2. split; [exact Hs2|].
      apply debug_hooks_same_store in Hs2 as (_ & Hcnt & _). exact Hcnt.
    - eexists. split; reflexivity. }
  destruct Hdbg as (s2 & -> & Hcnt). cbn [Py.bind].
  destruct (@update_color_map_ok get_cmap np_sqrt s2) as [s3 ->]; [|simpl; eauto].
  rewrite Hcnt. intro Hnil.
  assert (Hex : exists l, In l (layout_locations (key_to_location_map s1))).
  { destruct (layout_locations (key_to_location_map s1)) as [|l ls];
      [congruence | exists l; now left]. }
  destruct Hex as [l Hl]. apply Hcount, Hd in Hl.
  rewrite Hnil in Hl. destruct Hl.
Qed.

(** X8: with a layout whose keys have no cell at all, the release of a key of
    the layout raises ValueError: the update takes the minimum of an empty
    array. *)
Theorem key_release_without_cells (env : release_env) (key : string)
    (locations : list location) (s : HeatMapper) :
  reachable get_cmap np_sqrt s ->
  layout_locations (key_to_location_map s) = [] ->
  Py.get (str_key_of key) (key_to_location_map s) = Some locations ->
  on_key_release get_cmap np_sqrt env key s = Raise ValueError.
Proof.
  intros Hr Hnil Hget.
  assert (Hcons : consistent s) by (eapply reachable_consistent; eassumption).
  assert (Hcomp : complete s) by (eapply reachable_complete; eassumption).
  destruct (@refresh_check_ok get_cmap env s Hcons) as [s1 Hs1].
  assert (Hcons1 : consistent s1)
    by (eapply consistent_refresh_check; eassumption).
  assert (Hcomp1 : complete s1)
    by (eapply complete_refresh_check; eassumption).
  assert (Hmap : key_to_location_map s1 = key_to_location_map s)
    by (eapply refresh_check_layout; eassumption).
  unfold on_key_release. rewrite Hs1. cbn [Py.bind].
  rewrite <- Hmap in Hnil, Hget. clear Hr Hcons Hcomp Hs1 Hmap s.
  destruct Hcons1 as (Hidx & _ & Hsub & _). destruct Hcomp1 as (_ & _ & Hkey & _).
  unfold record_key. rewrite Hget.
  apply get_layout_locations in Hget as [Hk Hincl].
  apply Hkey, get_in_keys in Hk as [c Hc]. unfold Py.getitem. rewrite Hc.
  cbn [Py.bind].
  assert (Hlocs : locations = []).
  { destruct locations as [|l ls]; [reflexivity|].
    specialize (Hincl l (or_introl eq_refl)). rewrite Hnil in Hincl. destruct Hincl. }
  assert (Hempty : location_to_count s1 = []).
  { destruct (location_to_count s1) as [|[l n] d]; [reflexivity|].
    specialize (Hsub l (or_introl eq_refl)). rewrite Hnil in Hsub. destruct Hsub. }
  subst locations. cbn [count_locations Py.bind debug_mode set_key_name_to_count].
  set (sa := set_key_name_to_count _ s1).
  assert (Hdbg : exists s2,
             (if debug_mode s1 then debug_hooks (str_key_of key) sa else Ok sa)
             = Ok s2 /\ location_to_count s2 = []).
  { destruct (debug_mode s1).
    - destruct (@debug_hooks_ok (str_key_of key) sa Hidx) as [s2 Hs2].
      exists s2. split; [exact Hs2|].
      apply debug_hooks_same_store in Hs2 as (_ & Hcnt & _).
      rewrite Hcnt. exact Hempty.
    - exists sa. split; [reflexivity | exact Hempty]. }
  destruct Hdbg as (s2 & -> & Hcnt). cbn [Py.bind].
  unfold update_color_map, normalized_by_location, normalized_counts.
  rewrite Hcnt. destruct (enhance_lowkeys s2); reflexivity.
Qed.

End Complete.

Lemma reachable_after_init_and_release (layout : dict string (list location))
    (key : string) (s0 s : HeatMapper) :
  init ramp_cmap quiet_init layout "hot" 3600%Q true false true = Ok s0 ->
  on_key_release ramp_cmap floor_sqrt (at_time 1%Q) key s0 = Ok s ->
  reachable ramp_cmap floor_sqrt s.
Proof.
  intros Hinit Hrel.
  eapply reachable_release; [eapply reachable_init; exact Hinit | exact Hrel].
Qed.

Lemma reachable_key_sets_witness :
  exists s0 s,
    init ramp_cmap quiet_init layout_ab "hot" 3600%Q true false true = Ok s0
    /\ on_key_release ramp_cmap floor_sqrt (at_time 1%Q) "a" s0 = Ok s
    /\ (forall loc, In loc (Py.keys (location_to_count s))
                    <-> In loc (layout_locations (key_to_location_map s))).
Proof.
  assert (H : exists s0 s,
             init ramp_cmap quiet_init layout_ab "hot" 3600%Q true false true = Ok s0
             /\ on_key_release ramp_cmap floor_sqrt (at_time 1%Q) "a" s0 = Ok s)
    by (eexists _, _; split; vm_compute; reflexivity).
  destruct H as (s0 & s & Hinit & Hrel).
  exists s0, s. split; [exact Hinit|]. split; [exact Hrel|].
  exact (proj1 (@reachable_key_sets ramp_cmap floor_sqrt s
                  (@reachable_after_init_and_release _ _ _ _ Hinit Hrel))).
Defined.

Lemma key_release_never_raises_witness :
  exists s0 s,
    init ramp_cmap quiet_init layout_ab "hot" 3600%Q true false true = Ok s0
    /\ on_key_release ramp_cmap floor_sqrt (at_time 1%Q) "a" s0 = Ok s
    /\ exists s',
         on_key_release ramp_cmap floor_sqrt (mkReleaseEnv 5000%Q 5001%Q false)
           "Key.f2" s = Ok s'.
Proof.
  assert (H : exists s0 s,
             init ramp_cmap quiet_init layout_ab "hot" 3600%Q true false true = Ok s0
             /\ on_key_release ramp_cmap floor_sqrt (at_time 1%Q) "a" s0 = Ok s
             /\ layout_locations (key_to_location_map s) <> [])
    by (eexists _, _; split; [|split]; try (vm_compute; reflexivity); discriminate).
  destruct H as (s0 & s & Hinit & Hrel & Hne).
  exists s0, s. split; [exact Hinit|]. split; [exact Hrel|].
  apply (@key_release_never_raises ramp_cmap floor_sqrt _ "Key.f2" s
           (@reachable_after_init_and_release _ _ _ _ Hinit Hrel) Hne).
Defined.

Lemma key_release_without_cells_witness :
  exists s0,
    init ramp_cmap quiet_init [("a", [])] "hot" 3600%Q true false true = Ok s0
    /\ on_key_release ramp_cmap floor_sqrt (at_time 1%Q) "a" s0 = Raise ValueError.
Proof.
  assert (H : exists s0,
             init ramp_cmap quiet_init [("a", [])] "hot" 3600%Q true false true
             = Ok s0
             /\ layout_locations (key_to_location_map s0) = []
             /\ Py.get (str_key_of "a") (key_to_location_map s0) = Some [])
    by (eexists; split; [|split]; vm_compute; reflexivity).
  destruct H as (s0 & Hinit & Hnil & Hget).
  exists s0. split; [exact Hinit|].
  apply (@key_release_without_cells ramp_cmap floor_sqrt (at_time 1%Q) "a" [] s0);
    [eapply reachable_init; exact Hinit | exact Hnil | exact Hget].
Defined.

(** ** From the engine to the device *)

Lemma draw_count_app (a b : list Server.event) :
  draw_count (a ++ b)%list = (draw_count a + draw_count b)%nat.
Proof. unfold draw_count. now rewrite filter_app, length_app. Qed.

Lemma draw_count_cells_of (colors : dict location (list Z)) :
  draw_count (Server.cells_of colors) = O.
Proof. induction colors as [|kv colors IH]; [reflexivity | exact IH]. Qed.

(** One iteration of the read loop on the encoding of a Color Assignment:
    its cells are set, in order, and drawn. *)
Lemma read_loop_snapshot (colors : dict location (list Z))
    (rest : list string) (f : Server.frame) :
  NoDup (Py.keys colors) ->
  Server.read_loop (Json.dumps (wire_document colors) :: rest) f
  = Server.read_loop rest
      (Server.mkFrame (Some (wire_document colors))
         (Server.events f
          ++ [Server.Log_received_data;
              Server.Log_size_of (String.length (Json.dumps (wire_document colors)))]
          ++ Server.cells_of colors ++ [Server.Draw])%list).
Proof.
  intro Hnd.
  pose proof (@loads_dumps_wire_document colors Hnd) as Hloads.
  pose proof (@decode_dumps_wire_document colors Hnd) as Hdecode.
  unfold Server.decode in Hdecode. rewrite Hloads in Hdecode.
  unfold wire_document in Hdecode. cbn [Py.bind] in Hdecode.
  assert (Hpayload : Json.dumps (wire_document colors) <> "").
  { rewrite wire_document_members by exact Hnd.
    rewrite JsonFacts.dumps_wire_object. discriminate. }
  set (payload := Json.dumps (wire_document colors)) in *.
  clearbody payload. destruct payload as [|c t]; [congruence|].
  cbn [Server.read_loop].
  unfold Server.try_loads. rewrite Hloads.
  unfold Server.apply_update. cbn [Server.color_map_str Server.events Server.record].
  unfold wire_document at 1. rewrite Hdecode.
  rewrite set_cells_as_decoded.
  unfold Server.record. cbn [Server.color_map_str Server.events].
  rewrite <- !app_assoc. reflexivity.
Qed.

Lemma read_loop_snapshots (chunks : list string) :
  Forall snapshot_payload chunks ->
  forall f, exists f',
    Server.read_loop chunks f = (Server.Awaiting_data, f')
    /\ draw_count (Server.events f')
       = (draw_count (Server.events f) + List.length chunks)%nat.
Proof.
  induction 1 as [|p chunks (colors & Hnd & ->) _ IH]; intro f.
  - exists f. split; [reflexivity | simpl; lia].
  - rewrite read_loop_snapshot by exact Hnd.
    destruct (IH (Server.mkFrame (Some (wire_document colors))
                    (Server.events f
                     ++ [Server.Log_received_data;
                         Server.Log_size_of
                           (String.length (Json.dumps (wire_document colors)))]
                     ++ Server.cells_of colors ++ [Server.Draw])%list))
      as (f' & Hrun & Hdraws).
    exists f'. split; [exact Hrun|]. rewrite Hdraws.
    cbn [Server.events]. rewrite !draw_count_app, draw_count_cells_of.
    unfold draw_count. cbn [filter List.length]. lia.
Qed.

Lemma snapshot_payloads_assignments (chunks : list string) :
  Forall snapshot_payload chunks ->
  exists assignments : list (dict location (list Z)),
    chunks = map (fun colors => Json.dumps (wire_document colors)) assignments
    /\ Forall (fun colors => NoDup (Py.keys colors)) assignments.
Proof.
  induction 1 as [|p chunks (colors & Hnd & ->) _ (assignments & -> & Hall)].
  - exists []. split; [reflexivity | constructor].
  - exists (colors :: assignments). split; [reflexivity | now constructor].
Qed.

Lemma read_loop_assignments (assignments : list (dict location (list Z))) :
  Forall (fun colors => NoDup (Py.keys colors)) assignments ->
  forall f, exists f',
    Server.read_loop
      (map (fun colors => Json.dumps (wire_document colors)) assignments) f
    = (Server.Awaiting_data, f')
    /\ Server.events f'
       = (Server.events f ++ flat_map message_events assignments)%list.
Proof.
  induction 1 as [|colors assignments Hnd _ IH]; intro f.
  - exists f. split; [reflexivity | now rewrite app_nil_r].
  - cbn [map]. rewrite read_loop_snapshot by exact Hnd.
    destruct (IH (Server.mkFrame (Some (wire_document colors))
                    (Server.events f
                     ++ [Server.Log_received_data;
                         Server.Log_size_of
                           (String.length (Json.dumps (wire_document colors)))]
                     ++ Server.cells_of colors ++ [Server.Draw])%list))
      as (f' & Hrun & Hev).
    exists f'. split; [exact Hrun|]. rewrite Hev.
    cbn [Server.events flat_map]. unfold message_events at 2.
    now rewrite <- !app_assoc.
Qed.

Lemma message_events_decoded (assignments : list (dict location (list Z))) :
  ~ In Server.Log_decode_error (flat_map message_events assignments).
Proof.
  intro Hin. apply in_flat_map in Hin as (colors & _ & Hin).
  unfold message_events in Hin.
  apply in_app_or in Hin. destruct Hin as [Hin|Hin].
  - destruct Hin as [H|[H|[]]]; discriminate H.
  - apply in_app_or in Hin. destruct Hin as [Hin|Hin].
    + unfold Server.cells_of in Hin. apply in_map_iff in Hin.
      destruct Hin as (kv & H & _). discriminate H.
    + destruct Hin as [H|[]]. discriminate H.
Qed.

(** X9: what the engine has handed to the socket, from its construction on, is
    a sequence of encoded Color Assignments; a server that reads it one
    message per chunk, each message short enough for one read of 4096
    bytes, decodes every message, sets the cells of each assignment in
    order and draws once for each, logs no decode error, and goes on
    waiting. *)
Theorem server_applies_every_payload
    (get_cmap : string -> cmap_arg -> list Q) (np_sqrt : Q -> Q) (s : HeatMapper) :
  reachable get_cmap np_sqrt s ->
  Forall (fun p => (String.length p <= 4096)%nat) (sock s) ->
  exists (assignments : list (dict location (list Z))) (f : Server.frame),
    sock s = map (fun colors => Json.dumps (wire_document colors)) assignments
    /\ Forall (fun colors => NoDup (Py.keys colors)) assignments
    /\ Server.start_listening (sock s) = (Server.Awaiting_data, f)
    /\ Server.events f
       = Server.Log_connected :: flat_map message_events assignments
    /\ ~ In Server.Log_decode_error (Server.events f)
    /\ draw_count (Server.events f) = List.length (sock s).
Proof.
  intros Hr _. apply reachable_complete in Hr as (_ & _ & _ & _ & Hsock).
  destruct (snapshot_payloads_assignments Hsock) as (assignments & Hmap & Hall).
  unfold Server.start_listening.
  destruct (@read_loop_snapshots (sock s) Hsock
              (Server.mkFrame None [Server.Log_connected]))
    as (f & Hrun & Hdraws).
  destruct (@read_loop_assignments assignments Hall
              (Server.mkFrame None [Server.Log_connected]))
    as (f' & Hrun' & Hev).
  rewrite <- Hmap, Hrun in Hrun'. injection Hrun' as <-.
  exists assignments, f. split; [exact Hmap|]. split; [exact Hall|].
  split; [exact Hrun|]. split; [exact Hev|]. split; [|exact Hdraws].
  rewrite Hev. cbn [Server.events app]. intros [H|Hin]; [discriminate H|].
  exact (message_events_decoded _ Hin).
Qed.

Lemma server_applies_every_payload_witness :
  exists s0 s f,
    init ramp_cmap quiet_init layout_ab "hot" 3600%Q true false true = Ok s0
    /\ on_key_release ramp_cmap floor_sqrt (at_time 1%Q) "a" s0 = Ok s
    /\ Server.start_listening (sock s) = (Server.Awaiting_data, f)
    /\ ~ In Server.Log_decode_error (Server.events f)
    /\ draw_count (Server.events f) = 2%nat.
Proof.
  assert (H : exists s0 s,
             init ramp_cmap quiet_init layout_ab "hot" 3600%Q true false true = Ok s0
             /\ on_key_release ramp_cmap floor_sqrt (at_time 1%Q) "a" s0 = Ok s
             /\ forallb (fun p => (String.length p <=? 4096)%nat) (sock s) = true
             /\ List.length (sock s) = 2%nat).
  { eexists _, _. split; [vm_compute; reflexivity|].
    split; [vm_compute; reflexivity|]. split; vm_compute; reflexivity. }
  destruct H as (s0 & s & Hinit & Hrel & Hlen & Hsent).
  assert (Hshort : Forall (fun p => (String.length p <= 4096)%nat) (sock s)).
  { apply Forall_forall. intros p Hp. apply Nat.leb_le.
    exact (proj1 (forallb_forall _ _) Hlen p Hp). }
  destruct (@server_applies_every_payload ramp_cmap floor_sqrt s
              (@reachable_after_init_and_release _ _ _ _ Hinit Hrel) Hshort)
    as (assignments & f & _ & _ & Hrun & _ & Hdec & Hdraws).
  exists s0, s, f. split; [exact Hinit|]. split; [exact Hrel|].
  split; [exact Hrun|]. split; [exact Hdec|]. now rewrite Hdraws.
Defined.

(** ** The engine: key names *)





Section KeyNames.
Variable get_cmap : string -> cmap_arg -> list Q.
Variable np_sqrt : Q -> Q.


(** X11: a key release never changes the layout, the refresh interval, the
    rotation flag or the debug flag; outside debug mode it never changes
    the enhancement flag, and without rotation on refresh it never changes
    the palette either. *)
Theorem key_release_keeps_settings (env : release_env) (key : string)
    (s s' : HeatMapper) :
  on_key_release get_cmap np_sqrt env key s = Ok s' ->
  key_to_location_map s' = key_to_location_map s
  /\ refresh_interval s' = refresh_interval s
  /\ change_heatmap_on_refresh s' = change_heatmap_on_refresh s
  /\ debug_mode s' = debug_mode s
  /\ (debug_mode s = false -> enhance_lowkeys s' = enhance_lowkeys s)
  /\ (debug_mode s = false -> change_heatmap_on_refresh s = false ->
      color_map_name s' = color_map_name s
      /\ color_map_index s' = color_map_index s).
Proof.
  unfold on_key_release.
  destruct (refresh_check get_cmap env s) as [s1|] eqn:E; simpl; [|discriminate].
  intro Hrec.
  assert (Hpal : change_heatmap_on_refresh s = false ->
                 color_map_name s1 = color_map_name s
                 /\ color_map_index s1 = color_map_index s).
  { intro Hch. unfold refresh_check in E.
    cbn [refresh_interval elapsed_time set_elapsed_time change_heatmap_on_refresh] in E.
    rewrite Hch in E. destruct (Np.Qlt_bool _ _); simpl in E; injection E as <-;
      rewrite ?init_color_map_eq; split; reflexivity. }
  apply refresh_check_frame in E as (Hm & _ & _ & Hdm & Hri & Hch & Hen & _).
  destruct (Py.get (str_key_of key) (key_to_location_map s1)) as [locations|] eqn:Hget.
  - eapply record_key_fields in Hrec; [|exact Hget].
    destruct Hrec as (c & s2 & s3 & _ & _ & H1 & _ & H2 & _ & _ & Hm' & Hdm' & Hri'
                      & Hch' & _ & _ & Hname & Hidx & Hen').
    apply count_locations_fields in H1 as (d & -> & _).
    rewrite Hm', Hdm', Hri', Hch', Hm, Hdm, Hri, Hch.
    repeat split; try reflexivity.
    + intro Hd. rewrite Hdm, Hd in H2. injection H2 as <-.
      rewrite Hen'. exact Hen.
    + rewrite Hdm, H in H2. injection H2 as <-. rewrite Hname.
      exact (proj1 (Hpal H0)).
    + rewrite Hdm, H in H2. injection H2 as <-. rewrite Hidx.
      exact (proj2 (Hpal H0)).
  - unfold record_key in Hrec. rewrite Hget in Hrec. injection Hrec as <-.
    repeat split; try assumption; intros; try apply Hpal; assumption.
Qed.

(** X12: in debug mode the key "Key.f3" switches lowkey enhancement, but only
    when the layout has an entry for it: the debug keys are looked up in the
    layout like every other key. *)
Theorem debug_key_switches_enhancement (env : release_env) (s s' : HeatMapper) :
  debug_mode s = true ->
  on_key_release get_cmap np_sqrt env "Key.f3" s = Ok s' ->
  enhance_lowkeys s'
  = match Py.get "Key.f3" (key_to_location_map s) with
    | Some _ => negb (enhance_lowkeys s)
    | None => enhance_lowkeys s
    end.
Proof.
  intro Hdebug. unfold on_key_release.
  destruct (refresh_check get_cmap env s) as [s1|] eqn:E; simpl; [|discriminate].
  apply refresh_check_frame in E as (Hm & _ & _ & Hdm & _ & _ & Hen & _).
  rewrite <- Hm, <- Hen. rewrite <- Hdm in Hdebug. intro Hrec.
  destruct (Py.get "Key.f3" (key_to_location_map s1)) as [locations|] eqn:Hget.
  - eapply record_key_fields in Hrec; [|exact Hget].
    destruct Hrec as (c & s2 & s3 & _ & _ & H1 & _ & H2 & _ & _ & _ & _ & _
                      & _ & _ & _ & _ & _ & Hen').
    apply count_locations_fields in H1 as (d & -> & _).
    rewrite Hdebug in H2. rewrite Hen'.
    change (str_key_of "Key.f3") with "Key.f3" in H2.
    unfold debug_hooks in H2. cbn [String.eqb Ascii.eqb Bool.eqb Py.bind] in H2.
    injection H2 as <-. reflexivity.
  - unfold record_key in Hrec.
    change (str_key_of "Key.f3") with "Key.f3" in Hrec.
    rewrite Hget in Hrec. now injection Hrec as <-.
Qed.

End KeyNames.


Lemma key_release_keeps_settings_witness :
  exists s0 s',
    init ramp_cmap quiet_init layout_ab "hot" 3600%Q true false false = Ok s0
    /\ on_key_release ramp_cmap floor_sqrt (at_time 4000%Q) "b" s0 = Ok s'
    /\ key_to_location_map s' = key_to_location_map s0
    /\ enhance_lowkeys s' = enhance_lowkeys s0
    /\ color_map_name s' = color_map_name s0.
Proof.
  assert (H : exists s0 s',
             init ramp_cmap quiet_init layout_ab "hot" 3600%Q true false false
             = Ok s0
             /\ on_key_release ramp_cmap floor_sqrt (at_time 4000%Q) "b" s0 = Ok s'
             /\ debug_mode s0 = false
             /\ change_heatmap_on_refresh s0 = false).
  { eexists _, _. split; [vm_compute; reflexivity|].
    split; [vm_compute; reflexivity|]. split; reflexivity. }
  destruct H as (s0 & s' & Hinit & Hrel & Hd & Hc).
  destruct (@key_release_keeps_settings ramp_cmap floor_sqrt (at_time 4000%Q) "b"
              s0 s' Hrel) as (Hm & _ & _ & _ & Hen & Hpal).
  exists s0, s'. split; [exact Hinit|]. split; [exact Hrel|].
  split; [exact Hm|]. split; [exact (Hen Hd)|]. exact (proj1 (Hpal Hd Hc)).
Defined.

Lemma debug_key_switches_enhancement_witness :
  exists s0 s',
    init ramp_cmap quiet_init [("Key.f3", [(0, 0)%Z])] "hot" 3600%Q
      false false true = Ok s0
    /\ on_key_release ramp_cmap floor_sqrt (at_time 1%Q) "Key.f3" s0 = Ok s'
    /\ enhance_lowkeys s' = true.
Proof.
  assert (H : exists s0 s',
             init ramp_cmap quiet_init [("Key.f3", [(0, 0)%Z])] "hot" 3600%Q
               false false true = Ok s0
             /\ on_key_release ramp_cmap floor_sqrt (at_time 1%Q) "Key.f3" s0 = Ok s'
             /\ debug_mode s0 = true
             /\ Py.get "Key.f3" (key_to_location_map s0) = Some [(0, 0)%Z]
             /\ enhance_lowkeys s0 = false).
  { eexists _, _. split; [vm_compute; reflexivity|].
    split; [vm_compute; reflexivity|]. repeat split. }
  destruct H as (s0 & s' & Hinit & Hrel & Hd & Hget & Hen).
  exists s0, s'. split; [exact Hinit|]. split; [exact Hrel|].
  rewrite (@debug_key_switches_enhancement ramp_cmap floor_sqrt (at_time 1%Q)
             s0 s' Hd Hrel), Hget, Hen.
  reflexivity.
Defined.

(** ** The server: chunks that are not one message *)

Section Chunks.
Import Text Json TextFacts JsonFacts.

(** A document of the engine followed by anything but white space is not a
    JSON document. *)
Lemma loads_wire_then_more (m : list (string * list Z)) (more : string) :
  skip_ws more <> "" ->
  loads (dumps (Obj (map wire_value m)) ++ more) = Raise ValueError.
Proof.
  intro Hmore. rewrite dumps_wire_object. unfold loads.
  set (body := join (map wire_member m)).
  rewrite !append_assoc.
  change ("{" ++ body ++ "}" ++ more) with (String "{" (body ++ String "}" more)).
  change (skip_ws (String "{" (body ++ String "}" more)))
    with (String "{" (body ++ String "}" more)).
  rewrite parse_value_brace.
  destruct m as [|kv m'].
  - change (expect "}" (skip_ws (body ++ String "}" more))) with (Some more).
    cbv iota. destruct (skip_ws more); [congruence | reflexivity].
  - destruct (@skip_ws_members (kv :: m') (String "}" more)) as [Hskip Hexp];
      [discriminate|].
    fold body in Hskip, Hexp. rewrite Hskip, Hexp.
    subst body. rewrite parse_members_wire.
    + destruct (skip_ws more); [congruence | reflexivity].
    + discriminate.
    + cbn [String.length]. rewrite length_append. lia.
Qed.

End Chunks.

Lemma wire_payload_head (colors : dict location (list Z)) :
  NoDup (Py.keys colors) ->
  exists t, Json.dumps (wire_document colors) = String "{" t.
Proof.
  intro Hnd. rewrite wire_document_members by exact Hnd.
  rewrite JsonFacts.dumps_wire_object. eexists. reflexivity.
Qed.

Lemma apply_update_snapshot (colors : dict location (list Z)) (f : Server.frame) :
  NoDup (Py.keys colors) ->
  Server.color_map_str f = Some (wire_document colors) ->
  Server.apply_update f
  = (Ok tt,
     Server.mkFrame (Some (wire_document colors))
       (Server.events f ++ Server.cells_of colors ++ [Server.Draw])%list).
Proof.
  intros Hnd Hf.
  pose proof (@loads_dumps_wire_document colors Hnd) as Hloads.
  pose proof (@decode_dumps_wire_document colors Hnd) as Hdecode.
  unfold Server.decode in Hdecode. rewrite Hloads in Hdecode.
  unfold wire_document in Hdecode. cbn [Py.bind] in Hdecode.
  unfold Server.apply_update. rewrite Hf.
  unfold wire_document at 1. rewrite Hdecode.
  rewrite set_cells_as_decoded.
  unfold Server.record. cbn [Server.color_map_str Server.events].
  rewrite Hf, <- !app_assoc. reflexivity.
Qed.

(** X13: the server reads one message per chunk.  A chunk that holds a message of
    the engine followed by anything but white space, as when two messages
    arrive in one read, is rejected by [json.loads]: as the first chunk it
    ends the server with an UnboundLocalError, and after an earlier message
    it makes the server apply that earlier message once more, so that
    neither of the two messages of the chunk reaches the device. *)
Theorem joined_messages_are_lost (before colors : dict location (list Z))
    (more : string) :
  NoDup (Py.keys before) ->
  NoDup (Py.keys colors) ->
  Json.skip_ws more <> "" ->
  let first := Json.dumps (wire_document before) in
  let chunk := Json.dumps (wire_document colors) ++ more in
  Json.loads chunk = Raise ValueError
  /\ Server.start_listening [chunk]
     = (Server.Uncaught UnboundLocalError,
        Server.mkFrame None
          [Server.Log_connected; Server.Log_received_data;
           Server.Log_size_of (String.length chunk); Server.Log_decode_error])
  /\ Server.start_listening [first; chunk]
     = (Server.Awaiting_data,
        Server.mkFrame (Some (wire_document before))
          ([Server.Log_connected; Server.Log_received_data;
            Server.Log_size_of (String.length first)]
           ++ Server.cells_of before ++ [Server.Draw]
           ++ [Server.Log_received_data;
               Server.Log_size_of (String.length chunk); Server.Log_decode_error]
           ++ Server.cells_of before ++ [Server.Draw])%list).
Proof.
  intros Hb Hc Hmore first chunk.
  assert (Hloads : Json.loads chunk = Raise ValueError).
  { unfold chunk. rewrite wire_document_members by exact Hc.
    now apply loads_wire_then_more. }
  assert (Hhead : exists t, chunk = String "{" t).
  { unfold chunk. destruct (@wire_payload_head colors Hc) as [t ->].
    eexists. reflexivity. }
  split; [exact Hloads|].
  unfold Server.start_listening. split.
  - clearbody chunk. destruct Hhead as [t ->].
    cbn [Server.read_loop]. unfold Server.try_loads. rewrite Hloads. reflexivity.
  - unfold first. rewrite read_loop_snapshot by exact Hb. fold first.
    clearbody chunk first. destruct Hhead as [t ->].
    cbn [Server.read_loop]. unfold Server.try_loads. rewrite Hloads.
    rewrite (@apply_update_snapshot before) by (exact Hb || reflexivity).
    cbn [Server.read_loop]. unfold Server.record.
    cbn [Server.color_map_str Server.events].
    rewrite <- !app_assoc. reflexivity.
Qed.

Lemma joined_messages_are_lost_witness :
  Json.loads (Json.dumps (wire_document [((0, 0)%Z, [0; 0; 255]%Z)])
              ++ Json.dumps (wire_document [((0, 0)%Z, [255; 0; 0]%Z)]))
  = Raise ValueError.
Proof.
  apply (@joined_messages_are_lost
           [((0, 0)%Z, [255; 0; 0]%Z)] [((0, 0)%Z, [0; 0; 255]%Z)]
           (Json.dumps (wire_document [((0, 0)%Z, [255; 0; 0]%Z)]))).
  - repeat constructor; simpl; tauto.
  - repeat constructor; simpl; tauto.
  - vm_compute. discriminate.
Defined.

(** Reading goes on, chunk after chunk, from the frame the earlier chunks
    left. *)
Lemma read_loop_app (before after : list string) (f : Server.frame) :
  Server.read_loop (before ++ after)%list f
  = match Server.read_loop before f with
    | (Server.Awaiting_data, f') => Server.read_loop after f'
    | stopped => stopped
    end.
Proof.
  revert f. induction before as [|data before IH]; intro f; [reflexivity|].
  rewrite <- app_comm_cons. destruct data as [|c t]; [reflexivity|].
  cbn [Server.read_loop].
  destruct (Server.try_loads _ _) as [[u|e] f1]; [|reflexivity].
  destruct (Server.apply_update f1) as [[u'|e] f2]; [|reflexivity].
  apply IH.
Qed.

(** X14: the read loop stops at the first empty read, which is the peer
    closing the connection, and at the first chunk whose pass through the
    loop body raises, with that exception; whatever was sent after that
    chunk is never read.  After a chunk whose pass raises nothing it goes
    on with the next chunk. *)
Theorem read_loop_stops (before after : list string) (f f' : Server.frame) :
  Server.read_loop before f = (Server.Awaiting_data, f') ->
  Server.read_loop (before ++ "" :: after)%list f
  = (Server.Peer_closed,
     Server.record (Server.Log_size_of 0)
       (Server.record Server.Log_received_data f'))
  /\ (forall data e f'',
        data <> "" -> loop_body data f' = (Raise e, f'') ->
        Server.read_loop (before ++ data :: after)%list f
        = (Server.Uncaught e, f''))
  /\ (forall data f'',
        data <> "" -> loop_body data f' = (Ok tt, f'') ->
        Server.read_loop (before ++ data :: after)%list f
        = Server.read_loop after f'').
Proof.
  intro Hrun. rewrite !read_loop_app, Hrun. split; [reflexivity|]. split.
  - intros data e f'' Hdata Hbody. rewrite read_loop_app, Hrun.
    destruct data as [|c t]; [congruence|].
    unfold loop_body in Hbody. cbn [Server.read_loop].
    destruct (Server.try_loads _ _) as [[u|e1] f1].
    + destruct (Server.apply_update f1) as [[u'|e2] f2]; [discriminate Hbody|].
      now injection Hbody as -> ->.
    + now injection Hbody as -> ->.
  - intros data f'' Hdata Hbody. rewrite read_loop_app, Hrun.
    destruct data as [|c t]; [congruence|].
    unfold loop_body in Hbody. cbn [Server.read_loop].
    destruct (Server.try_loads _ _) as [[u|e1] f1]; [|discriminate Hbody].
    destruct (Server.apply_update f1) as [[u'|e2] f2]; [|discriminate Hbody].
    injection Hbody as _ ->. reflexivity.
Qed.

Lemma read_loop_stops_witness :
  Server.start_listening [red_document; ""; red_document]
  = (Server.Peer_closed,
     Server.mkFrame
       (Some (Json.Obj [("(0, 0)", Json.Arr [Json.Int 255; Json.Int 0; Json.Int 0])]))
       [Server.Log_connected;
        Server.Log_received_data; Server.Log_size_of 23;
        Server.Set_cell 0 0 [Json.Int 255; Json.Int 0; Json.Int 0]; Server.Draw;
        Server.Log_received_data; Server.Log_size_of 0])
  /\ Server.start_listening [red_document; "[0]"; red_document]
     = (Server.Uncaught AttributeError,
        Server.mkFrame (Some (Json.Arr [Json.Int 0]))
          [Server.Log_connected;
           Server.Log_received_data; Server.Log_size_of 23;
           Server.Set_cell 0 0 [Json.Int 255; Json.Int 0; Json.Int 0]; Server.Draw;
           Server.Log_received_data; Server.Log_size_of 3]).
Proof.
  destruct (@read_loop_stops [red_document] [red_document]
              (Server.mkFrame None [Server.Log_connected])
              (Server.mkFrame
                 (Some (Json.Obj [("(0, 0)",
                                   Json.Arr [Json.Int 255; Json.Int 0; Json.Int 0])]))
                 [Server.Log_connected;
                  Server.Log_received_data; Server.Log_size_of 23;
                  Server.Set_cell 0 0 [Json.Int 255; Json.Int 0; Json.Int 0];
                  Server.Draw]))
    as (Hclosed & Hraise & _); [vm_compute; reflexivity|].
  split; [exact Hclosed|].
  apply (Hraise "[0]"); [discriminate | vm_compute; reflexivity].
Defined.

(** X15: a chunk that is a JSON document but not an object (an array, a number,
    a string) ends the server with an AttributeError: it is decoded, and the
    loop then asks it for its items.  Nothing is applied for it. *)
Theorem not_an_object_ends_the_server (data : string) (v : Json.value)
    (rest : list string) (f : Server.frame) :
  Json.loads data = Ok v ->
  (forall members, v <> Json.Obj members) ->
  Server.read_loop (data :: rest) f
  = (Server.Uncaught AttributeError,
     Server.mkFrame (Some v)
       (Server.events f
        ++ [Server.Log_received_data; Server.Log_size_of (String.length data)])%list).
Proof.
  intros Hloads Hobj. destruct data as [|c t]; [discriminate Hloads|].
  cbn [Server.read_loop]. unfold Server.try_loads. rewrite Hloads.
  unfold Server.apply_update, Server.record.
  cbn [Server.color_map_str Server.events].
  rewrite <- app_assoc.
  destruct v; try reflexivity. now elim (Hobj members).
Qed.

Lemma not_an_object_ends_the_server_witness :
  Server.start_listening ["[255, 0, 0]"]
  = (Server.Uncaught AttributeError,
     Server.mkFrame (Some (Json.Arr [Json.Int 255; Json.Int 0; Json.Int 0]))
       [Server.Log_connected; Server.Log_received_data; Server.Log_size_of 11]).
Proof.
  apply (@not_an_object_ends_the_server "[255, 0, 0]"
           (Json.Arr [Json.Int 255; Json.Int 0; Json.Int 0]) []
           (Server.mkFrame None [Server.Log_connected])).
  - vm_compute. reflexivity.
  - intros members H. discriminate H.
Defined.

(** ** The engine: its constructor *)

Section ConstructorFacts.
Variable get_cmap : string -> cmap_arg -> list Q.




End ConstructorFacts.

(** ** The engine: the range of the normalized values *)

Lemma fold_Qmin_le_init (r : list Q) (y : Q) : (fold_left Qmin r y <= y)%Q.
Proof.
  revert y. induction r as [|z r IH]; intro y; simpl; [apply Qle_refl|].
  eapply Qle_trans; [apply IH | apply Q.le_min_l].
Qed.

Lemma fold_Qmin_le (r : list Q) (y x : Q) :
  In x (y :: r) -> (fold_left Qmin r y <= x)%Q.
Proof.
  revert y. induction r as [|z r IH]; intros y Hin; simpl.
  - destruct Hin as [->|[]]. apply Qle_refl.
  - destruct Hin as [->|[->|Hin]].
    + eapply Qle_trans; [apply fold_Qmin_le_init | apply Q.le_min_l].
    + eapply Qle_trans; [apply fold_Qmin_le_init | apply Q.le_min_r].
    + apply IH. now right.
Qed.

Lemma fold_Qmin_bound (b : Q) (r : list Q) (y : Q) :
  (forall x, In x (y :: r) -> (b <= x)%Q) -> (b <= fold_left Qmin r y)%Q.
Proof.
  revert y. induction r as [|z r IH]; intros y Hall; simpl.
  - apply Hall. now left.
  - apply IH. intros x [<-|Hin].
    + apply Q.min_glb; apply Hall; [now left | right; now left].
    + apply Hall. right. now right.
Qed.

Lemma fold_Qmax_bound (b : Q) (r : list Q) (y : Q) :
  (forall x, In x (y :: r) -> (x <= b)%Q) -> (fold_left Qmax r y <= b)%Q.
Proof.
  revert y. induction r as [|z r IH]; intros y Hall; simpl.
  - apply Hall. now left.
  - apply IH. intros x [<-|Hin].
    + apply Q.max_lub; apply Hall; [now left | right; now left].
    + apply Hall. right. now right.
Qed.

Lemma np_min_le (a : list Q) (lo x : Q) :
  Np.min a = Ok lo -> In x a -> (lo <= x)%Q.
Proof.
  destruct a as [|y r]; [discriminate|]. intros [= <-]. apply fold_Qmin_le.
Qed.

Lemma np_min_bound (b : Q) (a : list Q) (lo : Q) :
  Np.min a = Ok lo -> (forall x, In x a -> (b <= x)%Q) -> (b <= lo)%Q.
Proof.
  destruct a as [|y r]; [discriminate|]. intros [= <-]. apply fold_Qmin_bound.
Qed.

Lemma np_max_bound (b : Q) (a : list Q) (hi : Q) :
  Np.max a = Ok hi -> (forall x, In x a -> (x <= b)%Q) -> (hi <= b)%Q.
Proof.
  destruct a as [|y r]; [discriminate|]. intros [= <-]. apply fold_Qmax_bound.
Qed.

Lemma np_div_positive (a hi : Q) :
  (0 < hi)%Q -> Np.div a hi = Np.Finite (Qred (a / hi)).
Proof.
  intro Hhi. unfold Np.div.
  destruct (Qeq_bool hi 0) eqn:E; [|reflexivity].
  apply Qeq_bool_eq in E. rewrite E in Hhi. now apply Qlt_irrefl in Hhi.
Qed.

Section NormalizedRange.
Variable np_sqrt : Q -> Q.

(** What is assumed of [np.sqrt]: it keeps the order of non-negative
    arguments, the root of 0 is not negative and the root of 1 is
    positive. *)
Hypothesis np_sqrt_monotone :
  forall a b : Q, (0 <= a)%Q -> (a <= b)%Q -> (np_sqrt a <= np_sqrt b)%Q.
Hypothesis np_sqrt_zero : (0 <= np_sqrt 0)%Q.
Hypothesis np_sqrt_one : (0 < np_sqrt 1)%Q.

Lemma transformed_nonneg (s : HeatMapper) (c : nat) :
  (0 <= transformed_count np_sqrt s c)%Q.
Proof.
  apply Qle_trans with (transformed_count np_sqrt s O).
  - unfold transformed_count. destruct (enhance_lowkeys s);
      [exact np_sqrt_zero | apply Qle_refl].
  - apply transformed_monotone; [exact np_sqrt_monotone | lia].
Qed.

Lemma normalized_counts_bounds (s : HeatMapper) (v : list Np.float64) :
  normalized_counts np_sqrt s = Ok v ->
  exists lo hi,
    Np.min (map (transformed_count np_sqrt s) (Py.values (location_to_count s))) = Ok lo
    /\ Np.max (map (transformed_count np_sqrt s) (Py.values (location_to_count s)))
       = Ok hi
    /\ v = map (fun c => Np.div (Np.sub (transformed_count np_sqrt s c) lo) hi)
             (Py.values (location_to_count s)).
Proof.
  unfold normalized_counts, Np.fromiter, transformed_count.
  destruct (enhance_lowkeys s); rewrite ?map_map;
    (destruct (Np.min _) as [lo|] eqn:El; simpl; [|discriminate]);
    (destruct (Np.max _) as [hi|] eqn:Eh; simpl; [|discriminate]);
    intros [= <-]; exists lo, hi; (split; [reflexivity|]);
    (split; [reflexivity|]); now rewrite map_map.
Qed.

(** X17: once some location has been pressed, every normalized value of
    [__update_color_map] is a number between 0 and 1, with lowkey
    enhancement on or off: no nan and no infinity reaches the palette. *)
Theorem normalized_in_unit_interval (s : HeatMapper) (v : list Np.float64) :
  normalized_counts np_sqrt s = Ok v ->
  (exists c, In c (Py.values (location_to_count s)) /\ (0 < c)%nat) ->
  Forall (fun x => exists q, x = Np.Finite q /\ (0 <= q)%Q /\ (q <= 1)%Q) v.
Proof.
  intros Hv (c0 & Hc0 & Hpos).
  destruct (normalized_counts_bounds s Hv) as (lo & hi & Hlo & Hhi & ->).
  assert (Hhi0 : (0 < hi)%Q).
  { apply Qlt_le_trans with (transformed_count np_sqrt s c0).
    - apply transformed_positive; assumption.
    - apply (@np_max_ge _ _ _ Hhi). now apply in_map. }
  assert (Hlo0 : (0 <= lo)%Q).
  { apply (@np_min_bound _ _ _ Hlo). intros x Hx.
    apply in_map_iff in Hx as (c & <- & _). apply transformed_nonneg. }
  apply Forall_forall. intros x Hx.
  apply in_map_iff in Hx as (c & <- & Hc).
  set (t := transformed_count np_sqrt s c).
  assert (Hlt : (lo <= t)%Q) by (apply (@np_min_le _ _ _ Hlo); now apply in_map).
  assert (Hth : (t <= hi)%Q) by (apply (@np_max_ge _ _ _ Hhi); now apply in_map).
  rewrite np_div_positive by exact Hhi0.
  eexists. split; [reflexivity|].
  unfold Np.sub. rewrite !Qred_correct. split.
  - apply Qle_shift_div_l; [exact Hhi0|]. rewrite Qmult_0_l.
    apply (proj1 (Qle_minus_iff lo t)). exact Hlt.
  - apply Qle_shift_div_r; [exact Hhi0|]. rewrite Qmult_1_l.
    apply Qle_trans with t; [|exact Hth].
    apply Qle_trans with (t - 0)%Q.
    + apply Qplus_le_compat; [apply Qle_refl|]. now apply Qopp_le_compat.
    + unfold Qminus. setoid_replace (- 0)%Q with 0%Q by reflexivity.
      rewrite Qplus_0_r. apply Qle_refl.
Qed.

(** X18: the division is by the maximum, not by the spread: when every location
    has the same positive count, every normalized value is 0, so that a
    keyboard whose keys were all pressed equally often shows the colour of
    a keyboard never pressed. *)
Theorem equal_counts_normalize_to_zero (s : HeatMapper) (c : nat) :
  location_to_count s <> [] ->
  (0 < c)%nat ->
  (forall c', In c' (Py.values (location_to_count s)) -> c' = c) ->
  normalized_counts np_sqrt s
  = Ok (map (fun _ => Np.Finite 0%Q) (Py.values (location_to_count s))).
Proof.
  intros Hne Hpos Hall.
  destruct (normalized_counts np_sqrt s) as [v|e] eqn:Hv.
  - destruct (normalized_counts_bounds s Hv) as (lo & hi & Hlo & Hhi & ->).
    set (t := transformed_count np_sqrt s c).
    assert (Hin : forall x,
               In x (map (transformed_count np_sqrt s)
                         (Py.values (location_to_count s))) -> x = t).
    { intros x Hx. apply in_map_iff in Hx as (c' & <- & Hc').
      now rewrite (Hall c' Hc'). }
    assert (Ht : In t (map (transformed_count np_sqrt s)
                           (Py.values (location_to_count s)))).
    { destruct (location_to_count s) as [|[k c1] d]; [congruence|].
      left. simpl. f_equal. unfold t. f_equal. apply Hall. now left. }
    assert (Hlo' : (lo == t)%Q).
    { apply Qle_antisym.
      - now apply (@np_min_le _ _ _ Hlo).
      - apply (@np_min_bound _ _ _ Hlo). intros x Hx. rewrite (Hin x Hx).
        apply Qle_refl. }
    assert (Hhi0 : (0 < hi)%Q).
    { apply Qlt_le_trans with t.
      - apply transformed_positive; assumption.
      - now apply (@np_max_ge _ _ _ Hhi). }
    f_equal. apply map_ext_in. intros c' Hc'.
    rewrite np_div_positive by exact Hhi0. f_equal.
    change 0%Q with (Qred 0). apply Qred_complete.
    unfold Np.sub. rewrite Qred_correct, (Hall c' Hc'). fold t.
    rewrite Hlo'. unfold Qminus. rewrite Qplus_opp_r.
    unfold Qdiv. apply Qmult_0_l.
  - exfalso. unfold normalized_counts in Hv.
    destruct (location_to_count s) as [|[k c1] d]; [congruence|].
    destruct (enhance_lowkeys s); simpl in Hv; discriminate.
Qed.

End NormalizedRange.

Lemma floor_sqrt_zero : (0 <= floor_sqrt 0)%Q.
Proof. unfold Qle. vm_compute. discriminate. Qed.

Lemma normalized_in_unit_interval_witness :
  exists s0 s v,
    init ramp_cmap quiet_init layout_ab "hot" 3600%Q true false false = Ok s0
    /\ on_key_release ramp_cmap floor_sqrt (at_time 1%Q) "a" s0 = Ok s
    /\ normalized_counts floor_sqrt s = Ok v
    /\ Forall (fun x => exists q, x = Np.Finite q /\ (0 <= q)%Q /\ (q <= 1)%Q) v.
Proof.
  assert (H : exists s0 s v,
             init ramp_cmap quiet_init layout_ab "hot" 3600%Q true false false
             = Ok s0
             /\ on_key_release ramp_cmap floor_sqrt (at_time 1%Q) "a" s0 = Ok s
             /\ normalized_counts floor_sqrt s = Ok v
             /\ In 1%nat (Py.values (location_to_count s))).
  { eexists _, _, _. split; [vm_compute; reflexivity|].
    split; [vm_compute; reflexivity|].
    split; [vm_compute; reflexivity|]. left. reflexivity. }
  destruct H as (s0 & s & v & Hinit & Hrel & Hv & Hin).
  exists s0, s, v. split; [exact Hinit|]. split; [exact Hrel|].
  split; [exact Hv|].
  apply (@normalized_in_unit_interval floor_sqrt floor_sqrt_monotone
           floor_sqrt_zero floor_sqrt_one s v Hv).
  exists 1%nat. split; [exact Hin | lia].
Defined.

Lemma equal_counts_normalize_to_zero_witness :
  exists s0 s,
    init ramp_cmap quiet_init layout_ab "hot" 3600%Q false false false = Ok s0
    /\ releases ramp_cmap floor_sqrt [(at_time 1%Q, "a"); (at_time 2%Q, "b")] s0
       = Ok s
    /\ normalized_counts floor_sqrt s = Ok [Np.Finite 0%Q; Np.Finite 0%Q].
Proof.
  assert (H : exists s0 s,
             init ramp_cmap quiet_init layout_ab "hot" 3600%Q false false false
             = Ok s0
             /\ releases ramp_cmap floor_sqrt
                  [(at_time 1%Q, "a"); (at_time 2%Q, "b")] s0 = Ok s
             /\ location_to_count s <> []
             /\ (forall c', In c' (Py.values (location_to_count s)) -> c' = 1%nat)
             /\ map (fun _ : nat => Np.Finite 0%Q) (Py.values (location_to_count s))
                = [Np.Finite 0%Q; Np.Finite 0%Q]).
  { eexists _, _. split; [vm_compute; reflexivity|].
    split; [vm_compute; reflexivity|].
    split; [discriminate|].
    split; [|reflexivity].
    intros c' [<-|[<-|[]]]; reflexivity. }
  destruct H as (s0 & s & Hinit & Hrel & Hne & Hall & Hmap).
  exists s0, s. split; [exact Hinit|]. split; [exact Hrel|].
  rewrite <- Hmap.
  apply (@equal_counts_normalize_to_zero floor_sqrt floor_sqrt_monotone
           floor_sqrt_one s 1%nat Hne); [lia | exact Hall].
Defined.

(** ** The engine: the range of the colours *)

Lemma np_int_range (c : Q) :
  (0 <= c)%Q -> (c <= 1)%Q -> (0 <= Np.int (c * 255)%Q <= 255)%Z.
Proof.
  intros H0 H1.
  assert (Hlo : (0 <= c * 255)%Q).
  { apply Qmult_le_0_compat; [exact H0 | discriminate]. }
  assert (Hhi : (c * 255 <= 255)%Q).
  { setoid_replace 255%Q with (1 * 255)%Q at 2 by reflexivity.
    apply Qmult_le_compat_r; [exact H1 | discriminate]. }
  generalize dependent (c * 255)%Q. intros [n d] Hlo Hhi.
  unfold Qle in Hlo, Hhi. unfold Np.int. cbn [Qnum Qden] in *.
  rewrite Z.quot_div_nonneg by lia. split.
  - apply Z.div_pos; lia.
  - apply Z.div_le_upper_bound; lia.
Qed.

Lemma scale_rgb_triple (get_cmap : string -> cmap_arg -> list Q)
    (name : string) (x : cmap_arg) :
  palette_in_range get_cmap -> color_triple (scale_rgb (get_cmap name x)).
Proof.
  intro Hpal. destruct (Hpal name x) as [Hlen Hall].
  destruct (get_cmap name x) as [|a [|b [|c [|d [|e l]]]]]; try discriminate Hlen.
  inversion Hall as [|? ? [Ha0 Ha1] Hall1]; subst.
  inversion Hall1 as [|? ? [Hb0 Hb1] Hall2]; subst.
  inversion Hall2 as [|? ? [Hc0 Hc1] _]; subst.
  split; [reflexivity|]. unfold scale_rgb. cbn [firstn map].
  repeat constructor; now apply np_int_range.
Qed.

Section ColorRange.
Variable get_cmap : string -> cmap_arg -> list Q.
Variable np_sqrt : Q -> Q.
Hypothesis palette_ok : palette_in_range get_cmap.

Lemma range_init_color_map (s : HeatMapper) :
  colors_in_range s -> colors_in_range (init_color_map get_cmap s).
Proof.
  intros Hs loc rgb. rewrite init_color_map_eq.
  cbn [location_to_color set_location_to_color set_location_to_count].
  destruct (in_dec location_eq_dec loc (layout_locations (key_to_location_map s)))
    as [Hin|Hout].
  - rewrite get_fold_set_in by exact Hin. intros [= <-].
    now apply scale_rgb_triple.
  - rewrite get_fold_set_notin by exact Hout. apply Hs.
Qed.

Lemma range_refresh_check (env : release_env) (s s' : HeatMapper) :
  colors_in_range s -> refresh_check get_cmap env s = Ok s' -> colors_in_range s'.
Proof.
  intros Hs H. apply refresh_check_cases in H.
  destruct H as [->|(s1 & Hs1 & ->)]; [exact Hs|].
  intros loc rgb Hget.
  apply (@range_init_color_map s1) with loc; [|exact Hget].
  destruct Hs1 as [->|(name & index & -> & _)]; exact Hs.
Qed.

Lemma range_record_key (env : release_env) (key : string) (s s' : HeatMapper) :
  colors_in_range s -> record_key get_cmap np_sqrt env key s = Ok s' ->
  colors_in_range s'.
Proof.
  intros Hs Hrec.
  destruct (Py.get (str_key_of key) (key_to_location_map s)) as [locations|] eqn:Hget.
  - eapply record_key_steps in Hrec; [|exact Hget].
    destruct Hrec as (c & s1 & s2 & s3 & Hc & H1 & H2 & H3 & ->).
    apply count_locations_fields in H1 as (d & -> & Hd).
    assert (Hstore : same_store
                       (set_location_to_count d
                          (set_key_name_to_count
                             (Py.set (str_key_of key) (c + 1)%nat
                                (key_name_to_count s)) s)) s2).
    { destruct (debug_mode s); [now apply debug_hooks_same_store in H2|].
      injection H2 as <-. apply same_store_refl. }
    destruct Hstore as (_ & _ & Hcol & _).
    apply update_color_map_fields in H3 as (d' & -> & _ & _ & Hval).
    intros loc rgb.
    replace (location_to_color
               (send_colors_to_server (sendall_ok env) (set_location_to_color d' s2)))
      with d' by (unfold send_colors_to_server; now destruct (sendall_ok env)).
    intro Hloc. destruct (Hval loc rgb Hloc) as [Hold|[x ->]].
    + rewrite Hcol in Hold. exact (Hs loc rgb Hold).
    + now apply scale_rgb_triple.
  - unfold record_key in Hrec. rewrite Hget in Hrec. now injection Hrec as <-.
Qed.

Lemma range_init (env : init_env) (layout : dict string (list location))
    (color_map : string) (refresh : Q) (enhance change debug : bool)
    (s : HeatMapper) :
  init get_cmap env layout color_map refresh enhance change debug = Ok s ->
  colors_in_range s.
Proof.
  unfold init. destruct (list_index color_map COLOR_MAPS) as [i|]; [|discriminate].
  cbn [Py.bind]. destruct (connect_ok env); [|discriminate]. intros [= <-].
  intros loc rgb.
  match goal with
  | |- context [send_colors_to_server ?ok ?st] =>
      replace (location_to_color (send_colors_to_server ok st))
        with (location_to_color st)
        by (unfold send_colors_to_server; now destruct ok)
  end.
  apply range_init_color_map. intros loc' rgb' H. discriminate H.
Qed.

Lemma reachable_colors_in_range (s : HeatMapper) :
  reachable get_cmap np_sqrt s -> colors_in_range s.
Proof.
  induction 1 as [? ? ? ? ? ? ? s Hinit | env key s s' _ IH Hrel].
  - eapply range_init; eassumption.
  - unfold on_key_release in Hrel.
    destruct (refresh_check get_cmap env s) as [s1|] eqn:E; simpl in Hrel;
      [|discriminate].
    eapply range_record_key; [|exact Hrel].
    eapply range_refresh_check; eassumption.
Qed.

(** X19: with a palette whose channels are in [0, 1], every location of the
    layout has, in every state the engine goes through, a colour of three
    integer channels from 0 to 255: what the device is asked to show is
    always a colour it can show. *)
Theorem layout_colors_in_range (s : HeatMapper) (loc : location) :
  reachable get_cmap np_sqrt s ->
  In loc (layout_locations (key_to_location_map s)) ->
  exists rgb,
    Py.get loc (location_to_color s) = Some rgb
    /\ List.length rgb = 3%nat
    /\ Forall (fun z => (0 <= z <= 255)%Z) rgb.
Proof.
  intros Hr Hloc.
  pose proof (reachable_complete Hr) as (_ & Hcolor & _).
  pose proof (reachable_colors_in_range Hr) as Hrange.
  destruct (proj1 (get_in_keys loc (location_to_color s)) (Hcolor loc Hloc))
    as [rgb Hget].
  exists rgb. split; [exact Hget|]. exact (Hrange loc rgb Hget).
Qed.

End ColorRange.

Lemma clip01_range (q : Q) : (0 <= clip01 q)%Q /\ (clip01 q <= 1)%Q.
Proof.
  unfold clip01. split.
  - apply Q.le_max_l.
  - apply Q.max_lub; [discriminate | apply Q.le_min_r].
Qed.

Lemma grey_cmap_in_range : palette_in_range grey_cmap.
Proof.
  intros name x. split.
  - destruct x as [i|[q| | |]]; reflexivity.
  - destruct x as [i|[q| | |]]; cbn [grey_cmap];
      repeat constructor; try apply clip01_range; discriminate.
Qed.

Lemma layout_colors_in_range_witness :
  exists s0 s rgb,
    init grey_cmap quiet_init layout_ab "hot" 3600%Q false false false = Ok s0
    /\ on_key_release grey_cmap floor_sqrt (at_time 1%Q) "a" s0 = Ok s
    /\ Py.get ((0, 0)%Z : location) (location_to_color s) = Some rgb
    /\ List.length rgb = 3%nat
    /\ Forall (fun z => (0 <= z <= 255)%Z) rgb.
Proof.
  assert (H : exists s0 s,
             init grey_cmap quiet_init layout_ab "hot" 3600%Q false false false
             = Ok s0
             /\ on_key_release grey_cmap floor_sqrt (at_time 1%Q) "a" s0 = Ok s
             /\ In ((0, 0)%Z : location) (layout_locations (key_to_location_map s))).
  { eexists _, _. split; [vm_compute; reflexivity|].
    split; [vm_compute; reflexivity|]. left. reflexivity. }
  destruct H as (s0 & s & Hinit & Hrel & Hin).
  assert (Hr : reachable grey_cmap floor_sqrt s).
  { eapply reachable_release; [|exact Hrel].
    eapply reachable_init. exact Hinit. }
  destruct (@layout_colors_in_range grey_cmap floor_sqrt grey_cmap_in_range s
              ((0, 0)%Z : location) Hr Hin) as (rgb & Hget & Hlen & Hall).
  exists s0, s, rgb. split; [exact Hinit|]. split; [exact Hrel|].
  split; [exact Hget|]. split; [exact Hlen | exact Hall].
Defined.

(** ** The wire format: one message, one Color Assignment *)

Lemma map_Int_injective (a b : list Z) :
  map Json.Int a = map Json.Int b -> a = b.
Proof.
  revert b. induction a as [|x a IH]; intros [|y b] H; try discriminate H;
    [reflexivity|].
  simpl in H. injection H as -> H. f_equal. now apply IH.
Qed.

Lemma as_decoded_injective (c1 c2 : dict location (list Z)) :
  Server.as_decoded c1 = Server.as_decoded c2 -> c1 = c2.
Proof.
  revert c2. induction c1 as [|[[r c] rgb] c1 IH]; intros [|[[r' c'] rgb'] c2] H;
    try discriminate H; [reflexivity|].
  cbn [Server.as_decoded map fst snd] in H.
  injection H as -> -> Hrgb H. apply map_Int_injective in Hrgb as ->.
  f_equal. now apply IH.
Qed.

(** X20: two Color Assignments with the same encoding are the same: a message on
    the wire stands for one assignment only, entries in order. *)
Theorem wire_encoding_injective (c1 c2 : dict location (list Z)) :
  NoDup (Py.keys c1) ->
  NoDup (Py.keys c2) ->
  Json.dumps (wire_document c1) = Json.dumps (wire_document c2) ->
  c1 = c2.
Proof.
  intros H1 H2 Heq. apply as_decoded_injective.
  pose proof (@decode_dumps_wire_document c1 H1) as D1.
  pose proof (@decode_dumps_wire_document c2 H2) as D2.
  rewrite Heq, D2 in D1. now injection D1.
Qed.

Lemma wire_encoding_injective_witness :
  ([((0, 0)%Z, [255; 0; 0]%Z); ((0, 1)%Z, [0; 0; 255]%Z)] : dict location (list Z))
  = [((0, 0)%Z, [255; 0; 0]%Z); ((0, 1)%Z, [0; 0; 255]%Z)].
Proof.
  apply wire_encoding_injective.
  - repeat constructor; simpl; intuition discriminate.
  - repeat constructor; simpl; intuition discriminate.
  - reflexivity.
Defined.

(** ** The engine: the key-name counters over a run *)

Lemma get_fold_items_const {V : Type} (x : V) (items : dict string (list location))
    (acc : dict string V) (k : string) :
  In k (Py.keys items) \/ Py.get k acc = Some x ->
  Py.get k (fold_left (fun d kv => Py.set (fst kv) (snd kv) d)
              (map (fun kl : string * list location => (fst kl, x)) items) acc)
  = Some x.
Proof.
  revert acc. induction items as [|[k' l] items IH]; intros acc Hk.
  - destruct Hk as [[]|Hk]. exact Hk.
  - cbn [map fold_left fst snd]. apply IH.
    destruct (string_dec k k') as [->|Hne].
    + right. apply get_set_same.
    + destruct Hk as [[Heq|Hin]|Hacc].
      * simpl in Heq. congruence.
      * now left.
      * right. rewrite get_set_other by exact Hne. exact Hacc.
Qed.

Section Run.
Variable get_cmap : string -> cmap_arg -> list Q.
Variable np_sqrt : Q -> Q.

Lemma init_fields (env : init_env) (layout : dict string (list location))
    (color_map : string) (refresh : Q) (enhance change debug : bool)
    (s : HeatMapper) :
  init get_cmap env layout color_map refresh enhance change debug = Ok s ->
  key_to_location_map s = layout
  /\ key_name_to_count s
     = Py.of_items (map (fun kl : string * list location => (fst kl, O)) layout).
Proof.
  unfold init. destruct (list_index color_map COLOR_MAPS) as [i|]; [|discriminate].
  cbn [Py.bind]. destruct (connect_ok env); [|discriminate]. intros [= <-].
  unfold send_colors_to_server. rewrite init_color_map_eq.
  destruct (first_sendall_ok env); split; reflexivity.
Qed.

Lemma key_name_step (env : release_env) (key : string) (s s' : HeatMapper) :
  on_key_release get_cmap np_sqrt env key s = Ok s' ->
  key_to_location_map s' = key_to_location_map s
  /\ forall k c,
       In k (Py.keys (key_to_location_map s)) ->
       Py.get k (key_name_to_count s) = Some c ->
       Py.get k (key_name_to_count s')
       = Some (if String.eqb (str_key_of key) k then S c else c).
Proof.
  unfold on_key_release.
  destruct (refresh_check get_cmap env s) as [s1|] eqn:E; simpl; [|discriminate].
  apply refresh_check_frame in E as (Hm & Hkn & _). rewrite <- Hm, <- Hkn.
  intro Hrec.
  destruct (Py.get (str_key_of key) (key_to_location_map s1)) as [locations|] eqn:Hget.
  - eapply record_key_fields in Hrec; [|exact Hget].
    destruct Hrec as (c0 & s2 & s3 & Hc0 & Hkn' & _ & _ & _ & _ & _ & Hm' & _).
    split; [exact Hm'|]. intros k c _ Hc. rewrite Hkn'.
    destruct (String.eqb_spec (str_key_of key) k) as [<-|Hne].
    + rewrite get_set_same. rewrite Hc0 in Hc. injection Hc as ->.
      f_equal. lia.
    + rewrite get_set_other by congruence. exact Hc.
  - unfold record_key in Hrec. rewrite Hget in Hrec. injection Hrec as <-.
    split; [reflexivity|]. intros k c Hk Hc.
    destruct (String.eqb_spec (str_key_of key) k) as [<-|Hne]; [|exact Hc].
    apply get_in_keys in Hk as [l Hl]. congruence.
Qed.

Lemma key_name_run (k : string) (evs : list (release_env * string)) :
  forall (s s' : HeatMapper) (c : nat),
    releases get_cmap np_sqrt evs s = Ok s' ->
    In k (Py.keys (key_to_location_map s)) ->
    Py.get k (key_name_to_count s) = Some c ->
    Py.get k (key_name_to_count s') = Some (c + releases_of k evs)%nat.
Proof.
  induction evs as [|[env key] evs IH]; intros s s' c Hrun Hk Hc.
  - injection Hrun as <-. rewrite Hc. f_equal. unfold releases_of. simpl. lia.
  - cbn [releases] in Hrun.
    destruct (on_key_release get_cmap np_sqrt env key s) as [s1|] eqn:E;
      simpl in Hrun; [|discriminate].
    apply key_name_step in E as [Hm Hstep].
    rewrite (IH s1 s' (if String.eqb (str_key_of key) k then S c else c) Hrun);
      [| now rewrite Hm | exact (Hstep k c Hk Hc)].
    f_equal. unfold releases_of. cbn [filter snd].
    destruct (String.eqb (str_key_of key) k); cbn [List.length]; lia.
Qed.

(** X21: the Key-Name Counters count the releases since construction: after any
    run of key releases, with or without refreshes in between, the counter
    of a key name of the layout is the number of releases that were looked
    up under that name. *)
Theorem key_name_counters_count_releases (env : init_env)
    (layout : dict string (list location)) (color_map : string) (refresh : Q)
    (enhance change debug : bool) (evs : list (release_env * string))
    (s0 s : HeatMapper) (k : string) :
  init get_cmap env layout color_map refresh enhance change debug = Ok s0 ->
  releases get_cmap np_sqrt evs s0 = Ok s ->
  In k (Py.keys layout) ->
  Py.get k (key_name_to_count s) = Some (releases_of k evs).
Proof.
  intros Hinit Hrun Hk.
  apply init_fields in Hinit as [Hm Hkn].
  apply (@key_name_run k evs s0 s O Hrun).
  - now rewrite Hm.
  - rewrite Hkn. unfold Py.of_items. apply get_fold_items_const. now left.
Qed.

(** X22: in debug mode and without a refresh, a release of "Key.f2" that the
    layout has an entry for moves the palette cursor to the next palette of
    the registry, the first one after the last. *)
Theorem debug_key_switches_palette (env : release_env)
    (locations : list location) (s s' : HeatMapper) :
  debug_mode s = true ->
  ~ (refresh_interval s < time_at_release env - start_time s)%Q ->
  Py.get "Key.f2" (key_to_location_map s) = Some locations ->
  on_key_release get_cmap np_sqrt env "Key.f2" s = Ok s' ->
  color_map_index s'
  = (if (color_map_index s =? List.length COLOR_MAPS - 1)%nat then O
     else S (color_map_index s))
  /\ nth_error COLOR_MAPS (color_map_index s') = Some (color_map_name s').
Proof.
  intros Hdebug Hno Hget Hrel.
  rewrite release_without_refresh in Hrel by exact Hno.
  eapply record_key_fields in Hrel; [|exact Hget].
  destruct Hrel as (c & s1 & s2 & _ & _ & H1 & _ & H2 & _ & _ & _ & _ & _
                    & _ & _ & _ & Hname & Hidx & _).
  apply count_locations_fields in H1 as (d & -> & _).
  cbn [debug_mode set_elapsed_time] in H2. rewrite Hdebug in H2.
  rewrite Hname, Hidx.
  change (str_key_of "Key.f2") with "Key.f2" in H2.
  unfold debug_hooks in H2. cbn [String.eqb Ascii.eqb Bool.eqb] in H2.
  match type of H2 with
  | context [select_next_colormap ?st] =>
      destruct (select_next_colormap st) as [s3|] eqn:E; [|discriminate H2]
  end.
  cbn [Py.bind] in H2. injection H2 as <-.
  unfold select_next_colormap in E.
  cbn [color_map_index set_location_to_count set_key_name_to_count
       set_elapsed_time] in E.
  destruct (nth_error COLOR_MAPS _) as [name|] eqn:En; [|discriminate E].
  injection E as <-. split; [reflexivity | exact En].
Qed.

End Run.

Lemma key_name_counters_count_releases_witness :
  exists s0 s,
    init ramp_cmap quiet_init layout_ab "hot" 3600%Q false true false = Ok s0
    /\ releases ramp_cmap floor_sqrt
         [(at_time 1%Q, "a"); (at_time 4000%Q, "A"); (at_time 4001%Q, "b");
          (at_time 4002%Q, "c")] s0 = Ok s
    /\ Py.get "a" (key_name_to_count s) = Some 2%nat.
Proof.
  assert (H : exists s0 s,
             init ramp_cmap quiet_init layout_ab "hot" 3600%Q false true false
             = Ok s0
             /\ releases ramp_cmap floor_sqrt
                  [(at_time 1%Q, "a"); (at_time 4000%Q, "A"); (at_time 4001%Q, "b");
                   (at_time 4002%Q, "c")] s0 = Ok s).
  { eexists _, _. split; vm_compute; reflexivity. }
  destruct H as (s0 & s & Hinit & Hrun).
  exists s0, s. split; [exact Hinit|]. split; [exact Hrun|].
  apply (@key_name_counters_count_releases ramp_cmap floor_sqrt quiet_init
           layout_ab "hot" 3600%Q false true false _ s0 s "a" Hinit Hrun).
  left. reflexivity.
Defined.

Lemma debug_key_switches_palette_witness :
  exists s0 s',
    init ramp_cmap quiet_init [("Key.f2", [(0, 0)%Z])] "rainbow" 3600%Q
      false false true = Ok s0
    /\ on_key_release ramp_cmap floor_sqrt (at_time 1%Q) "Key.f2" s0 = Ok s'
    /\ color_map_index s' = O
    /\ color_map_name s' = "jet".
Proof.
  assert (H : exists s0 s',
             init ramp_cmap quiet_init [("Key.f2", [(0, 0)%Z])] "rainbow" 3600%Q
               false false true = Ok s0
             /\ on_key_release ramp_cmap floor_sqrt (at_time 1%Q) "Key.f2" s0 = Ok s'
             /\ debug_mode s0 = true
             /\ ~ (refresh_interval s0 < time_at_release (at_time 1%Q)
                                         - start_time s0)%Q
             /\ Py.get "Key.f2" (key_to_location_map s0) = Some [(0, 0)%Z]
             /\ color_map_index s0 = 9%nat).
  { eexists _, _. split; [vm_compute; reflexivity|].
    split; [vm_compute; reflexivity|]. split; [reflexivity|].
    split; [vm_compute; discriminate|]. split; reflexivity. }
  destruct H as (s0 & s' & Hinit & Hrel & Hd & Hno & Hget & Hidx).
  destruct (@debug_key_switches_palette ramp_cmap floor_sqrt (at_time 1%Q)
              [(0, 0)%Z] s0 s' Hd Hno Hget Hrel) as [Hi Hn].
  rewrite Hidx in Hi. cbn in Hi.
  exists s0, s'. split; [exact Hinit|]. split; [exact Hrel|].
  split; [exact Hi|]. rewrite Hi in Hn. cbn in Hn. now injection Hn.
Defined.

(** ** The engine: the normalization formula *)

Lemma Qmin_cases (a b : Q) : Qmin a b = a \/ Qmin a b = b.
Proof.
  unfold Qmin, GenericMinMax.gmin. destruct (a ?= b)%Q; auto.
Qed.

Lemma Qmax_cases (a b : Q) : Qmax a b = a \/ Qmax a b = b.
Proof.
  unfold Qmax, GenericMinMax.gmax. destruct (a ?= b)%Q; auto.
Qed.

Lemma fold_Qmin_in (r : list Q) (y : Q) : In (fold_left Qmin r y) (y :: r).
Proof.
  revert y. induction r as [|z r IH]; intro y; simpl; [now left|].
  destruct (IH (Qmin y z)) as [H|H]; [|right; now right].
  rewrite <- H.
  destruct (Qmin_cases y z) as [E|E]; rewrite E; [now left | right; now left].
Qed.

Lemma fold_Qmax_in (r : list Q) (y : Q) : In (fold_left Qmax r y) (y :: r).
Proof.
  revert y. induction r as [|z r IH]; intro y; simpl; [now left|].
  destruct (IH (Qmax y z)) as [H|H]; [|right; now right].
  rewrite <- H.
  destruct (Qmax_cases y z) as [E|E]; rewrite E; [now left | right; now left].
Qed.

Lemma np_min_least (a : list Q) (lo : Q) : Np.min a = Ok lo -> least lo a.
Proof.
  intro H. split; [|intros x Hx; now apply (@np_min_le a lo x)].
  destruct a as [|y r]; [discriminate|]. injection H as <-. apply fold_Qmin_in.
Qed.

Lemma np_max_greatest (a : list Q) (hi : Q) : Np.max a = Ok hi -> greatest hi a.
Proof.
  intro H. split; [|intros x Hx; now apply (@np_max_ge a hi x)].
  destruct a as [|y r]; [discriminate|]. injection H as <-. apply fold_Qmax_in.
Qed.

Section Formula.
Variable get_cmap : string -> cmap_arg -> list Q.
Variable np_sqrt : Q -> Q.

Lemma normalized_by_location_formula (s : HeatMapper)
    (norm : dict location Np.float64) :
  enhance_lowkeys s = false ->
  normalized_by_location np_sqrt s = Ok norm ->
  exists lo hi : Q,
    least lo (Np.fromiter (Py.values (location_to_count s)))
    /\ greatest hi (Np.fromiter (Py.values (location_to_count s)))
    /\ forall loc c,
         Py.get loc (location_to_count s) = Some c ->
         Py.get loc norm
         = Some (Np.div (Np.sub (inject_Z (Z.of_nat c)) lo) hi).
Proof.
  intros Hoff. unfold normalized_by_location, normalized_counts. rewrite Hoff.
  destruct (Np.min _) as [lo|] eqn:El; simpl; [|discriminate].
  destruct (Np.max _) as [hi|] eqn:Eh; simpl; [|discriminate].
  intros [= <-]. exists lo, hi.
  split; [now apply np_min_least|]. split; [now apply np_max_greatest|].
  intros loc c Hc. unfold Np.fromiter. rewrite map_map.
  rewrite get_combine_map, Hc. reflexivity.
Qed.

(** C6: on the layout a -> (0,0), b -> (0,1), with lowkey enhancement off
    and no release past the refresh interval, three releases of "a" leave
    the Press Counters at 3 and 0, the normalized values at 1 and 0, and the
    colours at the palette's values at 1.0 and 0.0.  In general, with
    lowkey enhancement off, the normalized value of a location with count
    [c] is [(c - lo) / hi], where [lo] is the least and [hi] the greatest
    of the counts (the division being numpy's: nan or an infinity when
    [hi] is 0). *)
Theorem three_releases_of_a (ienv : init_env) (cm : string) (refresh : Q)
    (change debug : bool) (e1 e2 e3 : release_env) (s0 : HeatMapper) :
  init get_cmap ienv layout_ab cm refresh false change debug = Ok s0 ->
  ~ (refresh < time_at_release e1 - time_at_start ienv)%Q ->
  ~ (refresh < time_at_release e2 - time_at_start ienv)%Q ->
  ~ (refresh < time_at_release e3 - time_at_start ienv)%Q ->
  (exists s3,
     releases get_cmap np_sqrt [(e1, "a"); (e2, "a"); (e3, "a")] s0 = Ok s3
     /\ location_to_count s3 = [((0, 0)%Z, 3%nat); ((0, 1)%Z, O)]
     /\ normalized_counts np_sqrt s3
        = Ok [Np.Finite 1%Q; Np.Finite 0%Q]
     /\ location_to_color s3
        = [((0, 0)%Z, scale_rgb (get_cmap cm (CFloat (Np.Finite 1%Q))));
           ((0, 1)%Z, scale_rgb (get_cmap cm (CFloat (Np.Finite 0%Q))))])
  /\ (forall (s : HeatMapper) (norm : dict location Np.float64),
        enhance_lowkeys s = false ->
        normalized_by_location np_sqrt s = Ok norm ->
        exists lo hi : Q,
          least lo (Np.fromiter (Py.values (location_to_count s)))
          /\ greatest hi (Np.fromiter (Py.values (location_to_count s)))
          /\ forall loc c,
               Py.get loc (location_to_count s) = Some c ->
               Py.get loc norm
               = Some (Np.div (Np.sub (inject_Z (Z.of_nat c)) lo) hi)).
Proof.
  intros Hinit H1 H2 H3. split.
  - exact (@three_releases_scenario get_cmap np_sqrt ienv cm refresh change debug
             e1 e2 e3 s0 Hinit H1 H2 H3).
  - exact normalized_by_location_formula.
Qed.

End Formula.

Lemma three_releases_of_a_witness :
  exists s0 s3 s4 norm,
    init ramp_cmap quiet_init layout_ab "hot" 3600%Q false false false = Ok s0
    /\ releases ramp_cmap floor_sqrt
         [(at_time 1%Q, "a"); (at_time 2%Q, "a"); (at_time 3%Q, "a")] s0 = Ok s3
    /\ location_to_count s3 = [((0, 0)%Z, 3%nat); ((0, 1)%Z, O)]
    /\ normalized_counts floor_sqrt s3 = Ok [Np.Finite 1%Q; Np.Finite 0%Q]
    /\ location_to_color s3
       = [((0, 0)%Z, [255; 255; 255]%Z); ((0, 1)%Z, [0; 0; 0]%Z)]
    /\ on_key_release ramp_cmap floor_sqrt (at_time 4%Q) "b" s3 = Ok s4
    /\ location_to_count s4 = [((0, 0)%Z, 3%nat); ((0, 1)%Z, 1%nat)]
    /\ normalized_by_location floor_sqrt s4 = Ok norm
    /\ Py.get ((0, 0)%Z : location) norm = Some (Np.Finite (2 # 3))
    /\ Py.get ((0, 1)%Z : location) norm = Some (Np.Finite 0%Q).
Proof.
  assert (H : exists s0 s3 s4 norm,
             init ramp_cmap quiet_init layout_ab "hot" 3600%Q false false false
             = Ok s0
             /\ releases ramp_cmap floor_sqrt
                  [(at_time 1%Q, "a"); (at_time 2%Q, "a"); (at_time 3%Q, "a")] s0
                = Ok s3
             /\ on_key_release ramp_cmap floor_sqrt (at_time 4%Q) "b" s3 = Ok s4
             /\ location_to_count s4 = [((0, 0)%Z, 3%nat); ((0, 1)%Z, 1%nat)]
             /\ enhance_lowkeys s4 = false
             /\ normalized_by_location floor_sqrt s4 = Ok norm).
  { eexists _, _, _, _. split; [vm_compute; reflexivity|].
    split; [vm_compute; reflexivity|]. split; [vm_compute; reflexivity|].
    split; [reflexivity|]. split; [reflexivity|]. vm_compute. reflexivity. }
  destruct H as (s0 & s3' & s4 & norm & Hinit & Hrun' & Hrel & Hcount4 & Hoff
                 & Hnorm4).
  destruct (@three_releases_of_a ramp_cmap floor_sqrt quiet_init "hot" 3600%Q
              false false (at_time 1%Q) (at_time 2%Q) (at_time 3%Q) s0 Hinit)
    as [(s3 & Hrun & Hcount & Hnorm & Hcolor) Hformula];
    [vm_compute; discriminate ..|].
  rewrite Hrun in Hrun'. injection Hrun' as <-.
  destruct (Hformula s4 norm Hoff Hnorm4) as (lo & hi & Hlo & Hhi & Hval).
  rewrite Hcount4 in Hlo, Hhi, Hval.
  assert (Elo : lo = 1%Q).
  { destruct Hlo as [[<-|[<-|[]]] Hle]; [|reflexivity].
    exfalso. apply (Hle 1%Q); [right; now left | reflexivity]. }
  assert (Ehi : hi = 3%Q).
  { destruct Hhi as [[<-|[<-|[]]] Hge]; [reflexivity|].
    exfalso. apply (Hge 3%Q); [now left | reflexivity]. }
  subst lo hi.
  exists s0, s3, s4, norm. split; [exact Hinit|]. split; [exact Hrun|].
  split; [exact Hcount|]. split; [exact Hnorm|]. split; [exact Hcolor|].
  split; [exact Hrel|]. split; [exact Hcount4|]. split; [exact Hnorm4|].
  split; [exact (Hval ((0, 0)%Z : location) 3%nat eq_refl)
         | exact (Hval ((0, 1)%Z : location) 1%nat eq_refl)].
Defined.
